(** * H5P Speak the Words: the task controller

    A shallow embedding of [src/app/components/speak-the-words.js] (the
    controller class) and of the second copy of that class kept in the
    repository (module [Part000]), followed by the properties of the
    view-state machine, answer evaluation, snapshot restore and encoding
    negotiation.

    Conventions of the embedding.
    - The controller object is a record [State]; a method is a computation
      in a small state-and-exception monad [M].  A JavaScript exception
      keeps the mutations made before it, so [Throw] carries the state.
    - Calls into the host question framework, the DOM and the shared event
      store are appended, in program order, to the [trace] field.
    - [undefined]/[null] are [None].  The snapshot handed in by the host is
      an object whose keys may each be absent ([Snapshot.t]).
    - [decode] (package [he]) is not part of the repository and is a
      parameter.  [Util.extend] only fills in defaults for missing author
      parameters; [Params] is the completed parameter object.
    - The controller creates its content wrapper detached from the
      document and hands it to the host with [question.setContent]; the
      field [placement] records where the wrapper is.  Reading
      [questionWrapper.parentNode.classList] throws while the wrapper is
      detached, and the update of [parentNode.parentNode] is made only
      when that node exists.  Class-list updates are recorded as effects.
    - The platform is a record [Window]: the recognition engine, the
      recorder API, [navigator.mediaDevices] and the export collaborator
      may each be absent.  The promise of [getUserMedia] is settled by the
      platform, later, as a command of its own. *)

From Stdlib Require Import String List ZArith Bool Lia.
Import ListNotations.
Local Open Scope string_scope.
Local Open Scope Z_scope.
Local Open Scope list_scope.

(** ** JavaScript primitives used by the controller *)

Module Js.

Inductive Error := TypeError | InvalidStateError.

(** [Array.prototype.indexOf] on an array of strings: the index of the
    first element strictly equal to the searched value, else -1. *)
Fixpoint indexOfFrom (a : list string) (x : string) (i : Z) : Z :=
  match a with
  | [] => -1
  | y :: a' => if String.eqb y x then i else indexOfFrom a' x (i + 1)
  end.

(** The searched value may be [undefined], which no string equals. *)
Definition indexOf (a : list string) (x : option string) : Z :=
  match x with
  | None => -1
  | Some s => indexOfFrom a s 0
  end.

(** Truthiness of a value that is a string, [null] or [undefined]. *)
Definition truthy (v : option string) : bool :=
  match v with
  | None => false
  | Some s => negb (String.eqb s EmptyString)
  end.

(** [v === s] for a string literal [s]. *)
Definition strictEq (v : option string) (s : string) : bool :=
  match v with
  | None => false
  | Some x => String.eqb x s
  end.

(** [v || d] for a string default [d]. *)
Definition orElse (v : option string) (d : string) : string :=
  match v with
  | None => d
  | Some s => if String.eqb s EmptyString then d else s
  end.

End Js.

(** ** Author parameters, platform capabilities, persisted snapshot *)

Record L10n := mkL10n {
  retryLabel : string;
  showSolutionLabel : string;
  unsupportedBrowserHeader : string;
  unsupportedBrowserDetails : string;
  a11yShowSolution : string;
  a11yRetry : string
}.

Record Params := mkParams {
  question : string;
  acceptedAnswers : list string;
  incorrectAnswerText : string;
  correctAnswerText : string;
  inputLanguage : string;
  l10n : L10n
}.

(** [window.MediaRecorder]: present or not, and when present its static
    method [isTypeSupported], itself present or not. *)
Record MediaRecorderApi := mkMediaRecorderApi {
  isTypeSupported : option (string -> bool)
}.

Record Window := mkWindow {
  annyang : bool;
  MediaRecorder : option MediaRecorderApi;
  mediaDevices : bool;
  KLFileExporter : bool
}.

Module Snapshot.

(** The object stored by the host between sessions.  [getCurrentState]
    writes the keys [viewState] and [lastInterpretations]; the
    constructor reads the key [vieState]. *)
Record t := mk {
  vieState : option string;
  viewState : option string;
  lastInterpretations : option (list string)
}.

(** The empty object [{}]. *)
Definition empty : t := mk None None None.

End Snapshot.

Record Extras := mkExtras {
  extrasPreviousState : option Snapshot.t
}.

(** ** Effects on the collaborators *)

Definition Chunk := nat.

Inductive RecorderState := inactive | recording | paused.

Definition recorderStateEqb (a b : RecorderState) : bool :=
  match a, b with
  | inactive, inactive | recording, recording | paused, paused => true
  | _, _ => false
  end.

Inductive DomNode := WrapperParent | WrapperGrandParent.

(** Where the content wrapper is.  [createContent] makes a [div] that has
    no parent.  [question.setContent] puts it into a new section element
    of the host, so that [parentNode] exists and [parentNode.parentNode]
    does not.  The host inserts its sections into the page when it
    attaches the question, after [registerDomElements] has returned; from
    then on [parentNode.parentNode] exists too. *)
Inductive Placement := Detached | InSection | InPage.

Inductive IntroductionElement :=
| UnsupportedNotice (header details : string)
| IntroductionNode (node : option string).

(** The statement of an [H5P.XAPIEvent] as the controller fills it in. *)
Record XAPIStatement := mkXAPIStatement {
  verb : string;
  response : option string;
  rawScore : Z;
  maxScore : Z;
  completion : bool;
  success : bool;
  description : string;
  activityType : string;
  interactionType : string;
  correctResponsesPattern : list string
}.

Inductive Effect :=
| AddButton (id label : string) (visible : bool) (ariaLabel : string)
| HideButton (id : string)
| ShowButton (id : string)
| SetFeedback (text : string) (score max : Z)
| RemoveFeedback
| SetIntroduction (e : IntroductionElement)
| SetContent
| QuestionTrigger (event : string)
| QuestionTriggerXAPI (statement : XAPIStatement)
| StoreTrigger (event : string) (data : option (list string))
| ClassListAdd (node : DomNode) (cls : string)
| ClassListRemove (node : DomNode) (cls : list string)
| GetUserMedia
| RecorderStart
| RecorderStop
| FileExport (mime : option string) (blob : list Chunk).

(** The Interaction Outcome Records published to the host, in order. *)
Fixpoint published (t : list Effect) : list XAPIStatement :=
  match t with
  | [] => []
  | QuestionTriggerXAPI s :: t' => s :: published t'
  | _ :: t' => published t'
  end.

(** How the host question framework shows a control after a sequence of
    calls: the last of [addButton] (with its initial visibility),
    [showButton] and [hideButton] naming the control decides. *)
Definition buttonStep (id : string) (visible : bool) (e : Effect) : bool :=
  match e with
  | AddButton i _ v _ => if String.eqb i id then v else visible
  | ShowButton i => if String.eqb i id then true else visible
  | HideButton i => if String.eqb i id then false else visible
  | _ => visible
  end.

Definition buttonVisibleFrom (id : string) (visible : bool) (t : list Effect) : bool :=
  fold_left (buttonStep id) t visible.

Definition buttonVisible (id : string) (t : list Effect) : bool :=
  buttonVisibleFrom id false t.

(** ** The state-and-exception monad *)

Inductive Outcome (S A : Type) :=
| Return (a : A) (s : S)
| Throw (e : Js.Error) (s : S).
Arguments Return {S A} a s.
Arguments Throw {S A} e s.

Definition M (S A : Type) := S -> Outcome S A.

Definition ret {S A} (a : A) : M S A := fun s => Return a s.

Definition bind {S A B} (m : M S A) (k : A -> M S B) : M S B :=
  fun s =>
    match m s with
    | Return a s' => k a s'
    | Throw e s' => Throw e s'
    end.

Definition gets {S A} (f : S -> A) : M S A := fun s => Return (f s) s.

Definition modify {S} (f : S -> S) : M S unit := fun s => Return tt (f s).

Definition throw {S A} (e : Js.Error) : M S A := fun s => Throw e s.

Definition when {S} (b : bool) (m : M S unit) : M S unit :=
  if b then m else ret tt.

Fixpoint repeatM {S} (n : nat) (m : M S unit) : M S unit :=
  match n with
  | O => ret tt
  | Datatypes.S n' => bind m (fun _ => repeatM n' m)
  end.

(** The state an invocation leaves behind, whether it returned or threw. *)
Definition stateOf {S A} (o : Outcome S A) : S :=
  match o with
  | Return _ s => s
  | Throw _ s => s
  end.

Definition returned {S A} (o : Outcome S A) : bool :=
  match o with
  | Return _ _ => true
  | Throw _ _ => false
  end.

Declare Scope js_scope.
Delimit Scope js_scope with js.
Notation "x <- c1 ;; c2" := (bind c1 (fun x => c2))
  (at level 61, c1 at next level, right associativity) : js_scope.
Notation "c1 ;; c2" := (bind c1 (fun _ => c2))
  (at level 61, right associativity) : js_scope.
Local Open Scope js_scope.

(** ** Encoding negotiation: [getRecordingMIMEType] *)

Definition getRecordingMIMEType (w : Window) : option string :=
  match MediaRecorder w with
  | None => None
  | Some api =>
      match isTypeSupported api with
      | None => Some "audio/mp4"
      | Some supported =>
          if supported "audio/webm" then Some "audio/webm"
          else if supported "audio/mp4" then Some "audio/mp4"
          else None
      end
  end.

(** The answer test written inline in [handleAnswered] and
    [recreateState]: [acceptedAnswers.indexOf(response) !== -1]. *)
Definition isAccepted (accepted : list string) (response : option string) : bool :=
  negb (Js.indexOf accepted response =? -1).

(** The publication test written inline in [handleAnswered]:
    [!this.previousState.viewState || this.previousState.viewState === 'task']. *)
Definition snapshotPermitsReport (ps : Snapshot.t) : bool :=
  negb (Js.truthy (Snapshot.viewState ps))
  || Js.strictEq (Snapshot.viewState ps) "task".

(** [(extras && extras.previousState) ? extras.previousState : {}]. *)
Definition previousStateOf (extras : option Extras) : Snapshot.t :=
  match extras with
  | Some e =>
      match extrasPreviousState e with
      | Some ps => ps
      | None => Snapshot.empty
      end
  | None => Snapshot.empty
  end.

Definition VIEW_STATES : list string := ["task"; "results"; "solutions"].

Definition getxAPIDefinitionOf (p : Params) (st : XAPIStatement) : XAPIStatement :=
  mkXAPIStatement (verb st) (response st) (rawScore st) (maxScore st)
    (completion st) (success st)
    (question p)
    "http://adlnet.gov/expapi/activities/cmi.interaction"
    "fill-in"
    (acceptedAnswers p).

(** A new [H5P.XAPIEvent] with only the verb set. *)
Definition newXAPIEvent (v : string) : XAPIStatement :=
  mkXAPIStatement v None 0 0 false false EmptyString EmptyString EmptyString [].

Definition setScoredResult (sc mx : Z) (compl succ : bool) (st : XAPIStatement)
  : XAPIStatement :=
  mkXAPIStatement (verb st) (response st) sc mx compl succ
    (description st) (activityType st) (interactionType st)
    (correctResponsesPattern st).

Definition setResponse (r : option string) (st : XAPIStatement) : XAPIStatement :=
  mkXAPIStatement (verb st) r (rawScore st) (maxScore st)
    (completion st) (success st)
    (description st) (activityType st) (interactionType st)
    (correctResponsesPattern st).

(** The Interaction Outcome Record for a response evaluated to score [sc]
    under parameters [p]. *)
Definition outcomeRecord (p : Params) (sc : Z) (r : option string) : XAPIStatement :=
  mkXAPIStatement "answered" r sc 1 true (sc =? 1)
    (question p)
    "http://adlnet.gov/expapi/activities/cmi.interaction"
    "fill-in"
    (acceptedAnswers p).

(** A view state that is one of the three legal names. *)
Definition legalViewState (v : option string) : Prop :=
  v = Some "task" \/ v = Some "results" \/ v = Some "solutions".

(** ** The controller object *)

(** The shared event store: the controller's own [handleAnswered] is
    subscribed to both answer events at construction; each resolved
    capture request subscribes one more [start-listening] handler. *)
Record EventStore := mkEventStore {
  startListeningHandlers : nat
}.

Record State := mkState {
  params : Params;
  previousState : Snapshot.t;
  mediaRecorder : option RecorderState;
  mediaChunks : list Chunk;
  mediaMIMEType : option string;
  hasAnswered : bool;
  score : Z;
  viewState : option string;
  lastInterpretations : option (list string);
  speechEventStore : option EventStore;
  introduction : option string;
  questionWrapper : bool;
  placement : Placement;
  pendingUserMedia : nat;
  trace : list Effect
}.

Definition set_params v s :=
  mkState v (previousState s) (mediaRecorder s) (mediaChunks s)
    (mediaMIMEType s) (hasAnswered s) (score s) (viewState s)
    (lastInterpretations s) (speechEventStore s) (introduction s)
    (questionWrapper s) (placement s) (pendingUserMedia s) (trace s).

Definition set_previousState v s :=
  mkState (params s) v (mediaRecorder s) (mediaChunks s)
    (mediaMIMEType s) (hasAnswered s) (score s) (viewState s)
    (lastInterpretations s) (speechEventStore s) (introduction s)
    (questionWrapper s) (placement s) (pendingUserMedia s) (trace s).

Definition set_mediaRecorder v s :=
  mkState (params s) (previousState s) v (mediaChunks s)
    (mediaMIMEType s) (hasAnswered s) (score s) (viewState s)
    (lastInterpretations s) (speechEventStore s) (introduction s)
    (questionWrapper s) (placement s) (pendingUserMedia s) (trace s).

Definition set_mediaChunks v s :=
  mkState (params s) (previousState s) (mediaRecorder s) v
    (mediaMIMEType s) (hasAnswered s) (score s) (viewState s)
    (lastInterpretations s) (speechEventStore s) (introduction s)
    (questionWrapper s) (placement s) (pendingUserMedia s) (trace s).

Definition set_mediaMIMEType v s :=
  mkState (params s) (previousState s) (mediaRecorder s) (mediaChunks s)
    v (hasAnswered s) (score s) (viewState s)
    (lastInterpretations s) (speechEventStore s) (introduction s)
    (questionWrapper s) (placement s) (pendingUserMedia s) (trace s).

Definition set_hasAnswered v s :=
  mkState (params s) (previousState s) (mediaRecorder s) (mediaChunks s)
    (mediaMIMEType s) v (score s) (viewState s)
    (lastInterpretations s) (speechEventStore s) (introduction s)
    (questionWrapper s) (placement s) (pendingUserMedia s) (trace s).

Definition set_score v s :=
  mkState (params s) (previousState s) (mediaRecorder s) (mediaChunks s)
    (mediaMIMEType s) (hasAnswered s) v (viewState s)
    (lastInterpretations s) (speechEventStore s) (introduction s)
    (questionWrapper s) (placement s) (pendingUserMedia s) (trace s).

Definition set_viewState v s :=
  mkState (params s) (previousState s) (mediaRecorder s) (mediaChunks s)
    (mediaMIMEType s) (hasAnswered s) (score s) v
    (lastInterpretations s) (speechEventStore s) (introduction s)
    (questionWrapper s) (placement s) (pendingUserMedia s) (trace s).

Definition set_lastInterpretations v s :=
  mkState (params s) (previousState s) (mediaRecorder s) (mediaChunks s)
    (mediaMIMEType s) (hasAnswered s) (score s) (viewState s)
    v (speechEventStore s) (introduction s)
    (questionWrapper s) (placement s) (pendingUserMedia s) (trace s).

Definition set_speechEventStore v s :=
  mkState (params s) (previousState s) (mediaRecorder s) (mediaChunks s)
    (mediaMIMEType s) (hasAnswered s) (score s) (viewState s)
    (lastInterpretations s) v (introduction s)
    (questionWrapper s) (placement s) (pendingUserMedia s) (trace s).

Definition set_introduction v s :=
  mkState (params s) (previousState s) (mediaRecorder s) (mediaChunks s)
    (mediaMIMEType s) (hasAnswered s) (score s) (viewState s)
    (lastInterpretations s) (speechEventStore s) v
    (questionWrapper s) (placement s) (pendingUserMedia s) (trace s).

Definition set_questionWrapper v s :=
  mkState (params s) (previousState s) (mediaRecorder s) (mediaChunks s)
    (mediaMIMEType s) (hasAnswered s) (score s) (viewState s)
    (lastInterpretations s) (speechEventStore s) (introduction s)
    v (placement s) (pendingUserMedia s) (trace s).

Definition set_placement v s :=
  mkState (params s) (previousState s) (mediaRecorder s) (mediaChunks s)
    (mediaMIMEType s) (hasAnswered s) (score s) (viewState s)
    (lastInterpretations s) (speechEventStore s) (introduction s)
    (questionWrapper s) v (pendingUserMedia s) (trace s).

Definition set_pendingUserMedia v s :=
  mkState (params s) (previousState s) (mediaRecorder s) (mediaChunks s)
    (mediaMIMEType s) (hasAnswered s) (score s) (viewState s)
    (lastInterpretations s) (speechEventStore s) (introduction s)
    (questionWrapper s) (placement s) v (trace s).

Definition set_trace v s :=
  mkState (params s) (previousState s) (mediaRecorder s) (mediaChunks s)
    (mediaMIMEType s) (hasAnswered s) (score s) (viewState s)
    (lastInterpretations s) (speechEventStore s) (introduction s)
    (questionWrapper s) (placement s) (pendingUserMedia s) v.

(** Record one call to a collaborator. *)
Definition emit (e : Effect) : M State unit :=
  modify (fun s => set_trace (trace s ++ [e]) s).

(** Reading [this.questionWrapper.parentNode.classList]: the wrapper
    exists only when the constructor went past the speech-engine check,
    and its [parentNode] is [null] until [question.setContent]. *)
Definition wrapperParent : M State unit :=
  w <- gets questionWrapper ;;
  if w then
    pl <- gets placement ;;
    match pl with
    | Detached => throw Js.TypeError
    | _ => ret tt
    end
  else throw Js.TypeError.

(** The test [if (this.questionWrapper.parentNode.parentNode)], made
    after [parentNode] has been read. *)
Definition wrapperGrandParent : M State bool :=
  pl <- gets placement ;;
  ret match pl with
      | InPage => true
      | _ => false
      end.

(** [this.question.setContent(this.questionWrapper)]: the host wraps
    the node in a new section element that is not in the page yet. *)
Definition setContent : M State unit :=
  emit SetContent ;;
  modify (set_placement InSection).

Section Controller.

Variable decode : string -> string.

Definition getScore : M State Z := gets score.

Definition getMaxScore : M State Z := ret 1.

Definition isQuestionAnswered : M State bool := gets hasAnswered.

Definition getxAPIDefinition (st : XAPIStatement) : M State XAPIStatement :=
  p <- gets params ;;
  ret (getxAPIDefinitionOf p st).

Definition createXAPIEvent (v : string) : M State XAPIStatement :=
  getxAPIDefinition (newXAPIEvent v).

Definition getXAPIAnswerEvent : M State XAPIStatement :=
  ev <- createXAPIEvent "answered" ;;
  sc <- getScore ;;
  mx <- getMaxScore ;;
  sc' <- getScore ;;
  mx' <- getMaxScore ;;
  ret (setScoredResult sc mx true (sc' =? mx') ev).

Definition getXAPIData : M State XAPIStatement := getXAPIAnswerEvent.

Definition triggerXAPIAnswered (r : option string) : M State unit :=
  ev <- getXAPIAnswerEvent ;;
  emit (QuestionTriggerXAPI (setResponse r ev)).

Definition setViewState (state : string) : M State unit :=
  if Js.indexOf VIEW_STATES (Some state) =? -1 then ret tt
  else
    emit (QuestionTrigger "kllStoreSessionState") ;;
    modify (set_viewState (Some state)).

Definition getCurrentState : M State Snapshot.t :=
  vs <- gets viewState ;;
  li <- gets lastInterpretations ;;
  ret (Snapshot.mk None vs
         (Some match li with Some l => l | None => [] end)).

(** [this.mediaRecorder.stop()]. *)
Definition recorderStop : M State unit :=
  modify (set_mediaRecorder (Some inactive)) ;;
  emit RecorderStop.

(** [event.data] is the list of interpretations that came with the
    event, or [undefined] when the event was triggered without data. *)
Definition handleAnswered (data : option (list string)) : M State unit :=
  rec <- gets mediaRecorder ;;
  match rec with
  | Some st => when (negb (recorderStateEqb st inactive)) recorderStop
  | None => ret tt
  end ;;
  wrapperParent ;;
  emit (ClassListAdd WrapperParent "empty") ;;
  gp <- wrapperGrandParent ;;
  when gp (emit (ClassListAdd WrapperGrandParent "answered")) ;;
  match data with
  | None => throw Js.TypeError
  | Some d =>
      let r := hd_error d in
      modify (set_lastInterpretations (Some d)) ;;
      p <- gets params ;;
      let correct := isAccepted (acceptedAnswers p) r in
      answerText <-
        (if correct then
           modify (set_score 1) ;;
           emit (HideButton "try-again") ;;
           emit (HideButton "show-solution") ;;
           ret (correctAnswerText p)
         else
           modify (set_score 0) ;;
           emit (ShowButton "try-again") ;;
           emit (ShowButton "show-solution") ;;
           ret (incorrectAnswerText p)) ;;
      sc <- getScore ;;
      mx <- getMaxScore ;;
      emit (SetFeedback (decode answerText) sc mx) ;;
      ps <- gets previousState ;;
      when (snapshotPermitsReport ps) (triggerXAPIAnswered r) ;;
      modify (set_hasAnswered true) ;;
      setViewState "results"
  end.

(** The [start-listening] handler installed once capture is granted. *)
Definition onStartListening : M State unit :=
  rec <- gets mediaRecorder ;;
  match rec with
  | None => throw Js.TypeError
  | Some recording => ret tt
  | Some inactive => modify (set_mediaRecorder (Some recording)) ;; emit RecorderStart
  | Some paused => throw Js.InvalidStateError
  end.

(** [this.speechEventStore.trigger(event, data)]: the UI components
    subscribed first are notified, then the controller's own handlers. *)
Definition storeTrigger (event : string) (data : option (list string))
  : M State unit :=
  st <- gets speechEventStore ;;
  match st with
  | None => throw Js.TypeError
  | Some store =>
      emit (StoreTrigger event data) ;;
      if String.eqb event "answered-correctly" || String.eqb event "answered-wrong"
      then handleAnswered data
      else if String.eqb event "start-listening"
      then repeatM (startListeningHandlers store) onStartListening
      else ret tt
  end.

Definition showSolutions : M State unit :=
  wrapperParent ;;
  emit (ClassListRemove WrapperParent ["empty"]) ;;
  gp <- wrapperGrandParent ;;
  when gp (emit (ClassListAdd WrapperGrandParent "showing-solution")) ;;
  emit (HideButton "show-solution") ;;
  storeTrigger "show-solution" None ;;
  setViewState "solutions".

Definition resetTask : M State unit :=
  wrapperParent ;;
  emit (ClassListRemove WrapperParent ["empty"]) ;;
  gp <- wrapperGrandParent ;;
  when gp (emit (ClassListRemove WrapperGrandParent
                   ["answered"; "showing-solution"])) ;;
  emit (HideButton "try-again") ;;
  emit (HideButton "show-solution") ;;
  emit RemoveFeedback ;;
  storeTrigger "reset-task" None ;;
  modify (set_hasAnswered false) ;;
  modify (set_score 0) ;;
  emit (QuestionTrigger "reset-task") ;;
  modify (set_previousState Snapshot.empty) ;;
  modify (set_lastInterpretations (Some [])) ;;
  setViewState "task".

Definition stopListening : M State unit :=
  storeTrigger "stop-all-media" None.

Definition recreateState : M State unit :=
  ps <- gets previousState ;;
  match Snapshot.lastInterpretations ps with
  | None => throw Js.TypeError
  | Some li =>
      p <- gets params ;;
      let wasCorrect := isAccepted (acceptedAnswers p) (hd_error li) in
      when (Js.strictEq (Snapshot.viewState ps) "results"
            || Js.strictEq (Snapshot.viewState ps) "solutions")
           (if wasCorrect
            then storeTrigger "answered-correctly" (Some li)
            else storeTrigger "answered-wrong" (Some li)) ;;
      ps' <- gets previousState ;;
      when (Js.strictEq (Snapshot.viewState ps') "solutions") showSolutions ;;
      storeTrigger "resize" None
  end.

(** [navigator.mediaDevices.getUserMedia({audio: true})]; the promise is
    settled later by the platform. *)
Definition getUserMedia (w : Window) : M State unit :=
  if mediaDevices w then
    emit GetUserMedia ;;
    modify (fun s => set_pendingUserMedia (Datatypes.S (pendingUserMedia s)) s)
  else throw Js.TypeError.

(** The [then] callback of the capture request. *)
Definition onUserMedia : M State unit :=
  modify (set_mediaRecorder (Some inactive)) ;;
  st <- gets speechEventStore ;;
  match st with
  | None => throw Js.TypeError
  | Some store =>
      modify (set_speechEventStore
                (Some (mkEventStore (Datatypes.S (startListeningHandlers store)))))
  end.

(** [mediaRecorder.onstop]. *)
Definition onStop (w : Window) : M State unit :=
  blob <- gets mediaChunks ;;
  modify (set_mediaChunks []) ;;
  mime <- gets mediaMIMEType ;;
  when (KLFileExporter w) (emit (FileExport mime blob)).

(** [mediaRecorder.ondataavailable]. *)
Definition onDataAvailable (c : Chunk) : M State unit :=
  modify (fun s => set_mediaChunks (mediaChunks s ++ [c]) s).

Definition registerDomElements (w : Window) : M State unit :=
  if negb (annyang w) then
    p <- gets params ;;
    emit (SetIntroduction
            (UnsupportedNotice (decode (unsupportedBrowserHeader (l10n p)))
                               (decode (unsupportedBrowserDetails (l10n p)))))
  else
    modify (set_mediaMIMEType (getRecordingMIMEType w)) ;;
    mime <- gets mediaMIMEType ;;
    when (Js.truthy mime) (getUserMedia w) ;;
    intro <- gets introduction ;;
    emit (SetIntroduction (IntroductionNode intro)) ;;
    setContent ;;
    ps <- gets previousState ;;
    match Snapshot.lastInterpretations ps with
    | Some (_ :: _) => recreateState
    | _ => ret tt
    end.

Definition createIntroduction (text : string) : M State unit :=
  modify (set_introduction (Some (decode text))).

Definition createContent : M State unit :=
  modify (set_questionWrapper true) ;;
  modify (set_placement Detached).

Definition createButtonBar (l : L10n) : M State unit :=
  emit (AddButton "try-again" (decode (retryLabel l)) false (a11yRetry l)) ;;
  emit (AddButton "show-solution" (decode (showSolutionLabel l)) false
          (a11yShowSolution l)).

(** The object before the constructor body runs: every field undefined. *)
Definition blank (p : Params) : State :=
  mkState p Snapshot.empty None [] None false 0 None None None None false
    Detached 0%nat [].

Definition constructorBody (w : Window) (extras : option Extras) : M State unit :=
  modify (set_previousState (previousStateOf extras)) ;;
  modify (fun s =>
            set_params (mkParams (question (params s))
                          (map decode (acceptedAnswers (params s)))
                          (incorrectAnswerText (params s))
                          (correctAnswerText (params s))
                          (inputLanguage (params s))
                          (l10n (params s))) s) ;;
  modify (set_mediaRecorder None) ;;
  modify (set_mediaChunks []) ;;
  modify (set_hasAnswered false) ;;
  modify (set_score 0) ;;
  ps <- gets previousState ;;
  setViewState (Js.orElse (Snapshot.vieState ps) "task") ;;
  if negb (annyang w) then ret tt
  else
    modify (set_speechEventStore (Some (mkEventStore 0))) ;;
    p <- gets params ;;
    createIntroduction (question p) ;;
    createContent ;;
    createButtonBar (l10n p).

Definition construct (w : Window) (p : Params) (extras : option Extras) : State :=
  stateOf (constructorBody w extras (blank p)).

(** ** The session as a transition system

    What the host, the UI shell, the recognition engine and the capture
    device can do to a constructed controller. *)
Inductive Command :=
| RegisterDomElements
| Answered (correctly : bool) (data : list string)
| ResetTask
| ShowSolutions
| StopListening
| SetViewState (state : string)
| StartListening
| UserMediaGranted
| DataAvailable (c : Chunk)
| RecorderStopped
| SectionsAttached.

Definition exec (w : Window) (c : Command) : M State unit :=
  match c with
  | RegisterDomElements => registerDomElements w
  | Answered correctly data =>
      storeTrigger (if correctly then "answered-correctly" else "answered-wrong")
        (Some data)
  | ResetTask => resetTask
  | ShowSolutions => showSolutions
  | StopListening => stopListening
  | SetViewState s => setViewState s
  | StartListening => storeTrigger "start-listening" None
  | UserMediaGranted =>
      n <- gets pendingUserMedia ;;
      match n with
      | O => ret tt
      | Datatypes.S n' => modify (set_pendingUserMedia n') ;; onUserMedia
      end
  | DataAvailable c =>
      rec <- gets mediaRecorder ;;
      match rec with
      | None => ret tt
      | Some _ => onDataAvailable c
      end
  | RecorderStopped =>
      rec <- gets mediaRecorder ;;
      match rec with
      | None => ret tt
      | Some _ => onStop w
      end
  | SectionsAttached =>
      pl <- gets placement ;;
      match pl with
      | InSection => modify (set_placement InPage)
      | _ => ret tt
      end
  end.

Inductive reachable (w : Window) (p : Params) (extras : option Extras)
  : State -> Prop :=
| reachable_new : reachable w p extras (construct w p extras)
| reachable_step : forall st c,
    reachable w p extras st ->
    reachable w p extras (stateOf (exec w c st)).

End Controller.

(** ** Predicates and closed forms used by the properties *)

(** The controller went past the speech-engine check of its constructor:
    the content wrapper and the event store exist. *)
Definition rendered (st : State) : Prop :=
  questionWrapper st = true /\ speechEventStore st <> None.

(** The wrapper has been handed to the host: its [parentNode] exists. *)
Definition attached (st : State) : Prop :=
  placement st <> Detached.

(** The section holding the wrapper is in the page: the wrapper's
    [parentNode.parentNode] exists. *)
Definition inPage (st : State) : bool :=
  match placement st with
  | InPage => true
  | _ => false
  end.

(** [questionWrapper.parentNode] can be read: the wrapper exists and is
    not detached. *)
Definition parentReadable (st : State) : bool :=
  questionWrapper st &&
  match placement st with
  | Detached => false
  | _ => true
  end.

(** A class-list update of [parentNode.parentNode], made when that node
    exists. *)
Definition onGrandParent (st : State) (e : Effect) : list Effect :=
  if inPage st then [e] else [].

(** The updates of the class list of [parentNode.parentNode]. *)
Definition onPageNode (e : Effect) : bool :=
  match e with
  | ClassListAdd WrapperGrandParent _
  | ClassListRemove WrapperGrandParent _ => true
  | _ => false
  end.

(** No capture request is pending and no recorder exists. *)
Definition captureOff (st : State) : Prop :=
  mediaRecorder st = None /\ pendingUserMedia st = 0%nat.

(** What every operation carries from the state it starts in to the state
    it leaves, whether it returns or throws. *)
Definition maintains (w : Window) (st st' : State) : Prop :=
  (rendered st -> rendered st') /\
  (legalViewState (viewState st) -> legalViewState (viewState st')) /\
  (getRecordingMIMEType w = None -> captureOff st -> captureOff st') /\
  (mediaMIMEType st = getRecordingMIMEType w ->
   mediaMIMEType st' = getRecordingMIMEType w) /\
  (attached st -> attached st').

(** [m] relates every state to the state it leaves by [R]. *)
Definition frames {A} (R : State -> State -> Prop) (m : M State A) : Prop :=
  forall st, R st (stateOf (m st)).

(** [registerDomElements] from the point where the negotiated encoding
    has been stored, when the recognition engine exists. *)
Definition afterNegotiation (decode : string -> string) (w : Window)
  : M State unit :=
  when (Js.truthy (getRecordingMIMEType w)) (getUserMedia w) ;;
  intro <- gets introduction ;;
  emit (SetIntroduction (IntroductionNode intro)) ;;
  setContent ;;
  ps <- gets previousState ;;
  match Snapshot.lastInterpretations ps with
  | Some (_ :: _) => recreateState decode
  | _ => ret tt
  end.

(** The capture request of registration can be issued: either no encoding
    was negotiated, so none is made, or [navigator.mediaDevices] exists. *)
Definition captureRequestable (w : Window) : Prop :=
  getRecordingMIMEType w = None \/ mediaDevices w = true.

(** The snapshot [{viewState: vs, lastInterpretations: L}]. *)
Definition snapshotOf (vs : string) (L : list string) : option Extras :=
  Some (mkExtras (Some (Snapshot.mk None (Some vs) (Some L)))).

(** The name of the store event carrying a recognition outcome. *)
Definition answeredEvent (correctly : bool) : string :=
  if correctly then "answered-correctly" else "answered-wrong".

(** Closed forms of [handleAnswered], [showSolutions] and [resetTask] on a
    controller whose event store exists and whose wrapper has been handed
    to the host; each is proved equal to what the method computes. *)

(** The recorder, when it exists and is not inactive, is stopped. *)
Definition stopEffects (st : State) : list Effect :=
  match mediaRecorder st with
  | None | Some inactive => []
  | Some _ => [RecorderStop]
  end.

Definition answeredScore (st : State) (data : list string) : Z :=
  if isAccepted (acceptedAnswers (params st)) (hd_error data) then 1 else 0.

Definition answeredEffects (decode : string -> string) (st : State)
  (data : list string) : list Effect :=
  [ClassListAdd WrapperParent "empty"]
  ++ onGrandParent st (ClassListAdd WrapperGrandParent "answered")
  ++ (if isAccepted (acceptedAnswers (params st)) (hd_error data)
      then [HideButton "try-again"; HideButton "show-solution";
            SetFeedback (decode (correctAnswerText (params st))) 1 1]
      else [ShowButton "try-again"; ShowButton "show-solution";
            SetFeedback (decode (incorrectAnswerText (params st))) 0 1])
  ++ (if snapshotPermitsReport (previousState st)
      then [QuestionTriggerXAPI
              (outcomeRecord (params st) (answeredScore st data) (hd_error data))]
      else [])
  ++ [QuestionTrigger "kllStoreSessionState"].

Definition answered (decode : string -> string) (data : list string)
  (st : State) : State :=
  mkState (params st) (previousState st)
    match mediaRecorder st with
    | None => None
    | Some _ => Some inactive
    end
    (mediaChunks st) (mediaMIMEType st)
    true (answeredScore st data) (Some "results") (Some data)
    (speechEventStore st) (introduction st) (questionWrapper st)
    (placement st) (pendingUserMedia st)
    (trace st ++ stopEffects st ++ answeredEffects decode st data).

Definition solutionsShown (st : State) : State :=
  set_viewState (Some "solutions")
    (set_trace (trace st ++
                [ClassListRemove WrapperParent ["empty"]]
                ++ onGrandParent st
                     (ClassListAdd WrapperGrandParent "showing-solution")
                ++ [HideButton "show-solution";
                    StoreTrigger "show-solution" None;
                    QuestionTrigger "kllStoreSessionState"]) st).

Definition taskReset (st : State) : State :=
  set_viewState (Some "task")
    (set_lastInterpretations (Some [])
       (set_previousState Snapshot.empty
          (set_score 0
             (set_hasAnswered false
                (set_trace (trace st ++
                            [ClassListRemove WrapperParent ["empty"]]
                            ++ onGrandParent st
                                 (ClassListRemove WrapperGrandParent
                                    ["answered"; "showing-solution"])
                            ++ [HideButton "try-again";
                                HideButton "show-solution";
                                RemoveFeedback;
                                StoreTrigger "reset-task" None;
                                QuestionTrigger "reset-task";
                                QuestionTrigger "kllStoreSessionState"]) st))))).

(** ** Further predicates: command sequences, effect counts, consistency *)

(** The state left by a sequence of commands, each run in the state the
    previous one left (an exception ends a command, not the session). *)
Fixpoint execAll (decode : string -> string) (w : Window) (cs : list Command)
  (st : State) : State :=
  match cs with
  | [] => st
  | c :: cs' => execAll decode w cs' (stateOf (exec decode w c st))
  end.

Definition isRecorderStart (e : Effect) : bool :=
  match e with RecorderStart => true | _ => false end.

Definition isRecorderStop (e : Effect) : bool :=
  match e with RecorderStop => true | _ => false end.

Definition isCaptureRequest (e : Effect) : bool :=
  match e with GetUserMedia => true | _ => false end.

Definition isFileExport (e : Effect) : bool :=
  match e with FileExport _ _ => true | _ => false end.

(** How many effects of a kind a trace holds. *)
Definition occurrences (kind : Effect -> bool) (t : list Effect) : nat :=
  length (filter kind t).

(** The state in which [handleAnswered] throws, after the calls [log]
    made on the DOM: the recorder has been stopped, nothing else is
    changed. *)
Definition haltedAnswer (log : list Effect) (st : State) : State :=
  set_trace (trace st ++ stopEffects st ++ log)
    (set_mediaRecorder
       match mediaRecorder st with
       | None => None
       | Some _ => Some inactive
       end st).

(** The state in which [resetTask] throws when the event store is
    missing: the host calls made so far are kept. *)
Definition haltedReset (st : State) : State :=
  set_trace (trace st ++
             [ClassListRemove WrapperParent ["empty"]]
             ++ onGrandParent st
                  (ClassListRemove WrapperGrandParent
                     ["answered"; "showing-solution"])
             ++ [HideButton "try-again";
                 HideButton "show-solution";
                 RemoveFeedback]) st.

(** Likewise for [showSolutions]. *)
Definition haltedSolutions (st : State) : State :=
  set_trace (trace st ++
             [ClassListRemove WrapperParent ["empty"]]
             ++ onGrandParent st
                  (ClassListAdd WrapperGrandParent "showing-solution")
             ++ [HideButton "show-solution"]) st.

(** Score and answered flag agree with the last interpretations. *)
Definition evaluated (st : State) : Prop :=
  if hasAnswered st
  then exists d, lastInterpretations st = Some d /\ score st = answeredScore st d
  else score st = 0.

(** A control is shown only while an incorrect answer stands. *)
Definition controlsOnlyAfterWrong (st : State) : Prop :=
  forall id,
    id = "try-again" \/ id = "show-solution" ->
    buttonVisible id (trace st) = true ->
    hasAnswered st = true /\ score st = 0.

(** A published record built from parameters [p]. *)
Definition recordWellFormed (p : Params) (r : XAPIStatement) : Prop :=
  r = outcomeRecord p (rawScore r) (response r) /\
  (rawScore r = 0 \/ rawScore r = 1).

Definition sound (st : State) : Prop :=
  evaluated st /\
  controlsOnlyAfterWrong st /\
  Forall (recordWellFormed (params st)) (published (trace st)).

(** An operation keeps the parameters, and consistency when it holds. *)
Definition keepsSound (st st' : State) : Prop :=
  params st' = params st /\ (sound st -> sound st').

(** A controller built without the recognition engine. *)
Definition inert (st : State) : Prop :=
  questionWrapper st = false /\
  speechEventStore st = None /\
  hasAnswered st = false /\
  score st = 0 /\
  lastInterpretations st = None /\
  published (trace st) = [] /\
  mediaRecorder st = None /\
  pendingUserMedia st = 0%nat /\
  mediaMIMEType st = None.

(** Effects that neither show a control nor publish a record. *)
Definition quiet (e : Effect) : bool :=
  match e with
  | ShowButton _ | AddButton _ _ _ _ | QuestionTriggerXAPI _ => false
  | _ => true
  end.

(** An operation that leaves parameters, score, answered flag and last
    interpretations alone and only adds quiet effects. *)
Definition quietStep (st st' : State) : Prop :=
  params st' = params st /\
  hasAnswered st' = hasAnswered st /\
  score st' = score st /\
  lastInterpretations st' = lastInterpretations st /\
  exists delta, trace st' = trace st ++ delta /\ forallb quiet delta = true.

(** The effects of registration up to [setContent]. *)
Definition registrationEffects (w : Window) (st : State) : list Effect :=
  (if Js.truthy (getRecordingMIMEType w) then [GetUserMedia] else [])
  ++ [SetIntroduction (IntroductionNode (introduction st)); SetContent].

(** The state registration reaches before it looks at the snapshot: the
    wrapper is in the content section of the host. *)
Definition registered (w : Window) (st : State) : State :=
  set_placement InSection
    (set_trace (trace st ++ registrationEffects w st)
       (set_pendingUserMedia
          (if Js.truthy (getRecordingMIMEType w)
           then Datatypes.S (pendingUserMedia st) else pendingUserMedia st)
          (set_mediaMIMEType (getRecordingMIMEType w) st))).

(** ** Audio capture: closed forms and consistency *)

(** The number of [start-listening] handlers the capture callback has
    installed. *)
Definition captureHandlers (st : State) : nat :=
  match speechEventStore st with
  | Some store => startListeningHandlers store
  | None => 0%nat
  end.

(** The state after a [start-listening] event: the first installed
    handler starts an inactive recorder, the others find it recording. *)
Definition listeningStarted (st : State) : State :=
  match captureHandlers st, mediaRecorder st with
  | Datatypes.S _, Some inactive =>
      set_trace (trace st ++ [StoreTrigger "start-listening" None; RecorderStart])
        (set_mediaRecorder (Some recording) st)
  | _, _ => set_trace (trace st ++ [StoreTrigger "start-listening" None]) st
  end.

(** The state after the recorder delivered the chunks [cs] and then its
    [stop] event. *)
Definition exported (w : Window) (cs : list Chunk) (st : State) : State :=
  set_trace (trace st ++
             if KLFileExporter w
             then [FileExport (mediaMIMEType st) (mediaChunks st ++ cs)]
             else [])
    (set_mediaChunks [] st).

(** Effects that do not concern audio capture. *)
Definition captureFree (e : Effect) : bool :=
  match e with
  | GetUserMedia | RecorderStart | RecorderStop | FileExport _ _ => false
  | _ => true
  end.

(** The calls made on the capture device, the recorder and the export
    collaborator, in order. *)
Definition captureLog (t : list Effect) : list Effect :=
  filter (fun e => negb (captureFree e)) t.

(** 1 while a recorder exists and is not inactive. *)
Definition running (st : State) : nat :=
  match mediaRecorder st with
  | None | Some inactive => 0%nat
  | Some _ => 1%nat
  end.

(** Consistency of the capture fields with the platform [w]. *)
Definition captureSound (w : Window) (st : State) : Prop :=
  mediaRecorder st <> Some paused /\
  (mediaRecorder st = None -> captureHandlers st = 0%nat) /\
  (mediaRecorder st <> None \/ pendingUserMedia st <> 0%nat ->
   annyang w = true /\
   mediaDevices w = true /\
   Js.truthy (getRecordingMIMEType w) = true /\
   mediaMIMEType st = getRecordingMIMEType w) /\
  (forall m b, In (FileExport m b) (trace st) ->
               KLFileExporter w = true /\ m = getRecordingMIMEType w /\
               Js.truthy m = true) /\
  (occurrences isRecorderStop (trace st) + running st
   <= occurrences isRecorderStart (trace st))%nat.

Definition keepsCapture (w : Window) (st st' : State) : Prop :=
  captureSound w st -> captureSound w st'.

(** An operation that leaves recorder, encoding, handlers and pending
    requests alone and makes no call on the capture collaborators. *)
Definition captureNeutral (st st' : State) : Prop :=
  mediaRecorder st' = mediaRecorder st /\
  mediaMIMEType st' = mediaMIMEType st /\
  captureHandlers st' = captureHandlers st /\
  pendingUserMedia st' = pendingUserMedia st /\
  exists delta, trace st' = trace st ++ delta /\ forallb captureFree delta = true.

(** [m] returns from every state in which the event store exists and
    the wrapper has been handed to the host, and leaves such a state. *)
Definition safe {A} (m : M State A) : Prop :=
  forall st, rendered st -> attached st ->
             exists a st', m st = Return a st' /\ rendered st' /\ attached st'.

(** [st'] is [st] with recorder [rec], collected chunks [chunks] and the
    further capture calls [log]; wrapper and event store still exist and
    encoding, handlers and pending requests are those of [st]. *)
Definition captureMoves (st st' : State) (rec : option RecorderState)
  (chunks : list Chunk) (log : list Effect) : Prop :=
  rendered st' /\
  mediaRecorder st' = rec /\
  mediaChunks st' = chunks /\
  mediaMIMEType st' = mediaMIMEType st /\
  captureHandlers st' = captureHandlers st /\
  pendingUserMedia st' = pendingUserMedia st /\
  captureLog (trace st') = captureLog (trace st) ++ log.

(** One recording cycle: listening starts, the recorder delivers [cs1],
    an outcome arrives, the recorder delivers [cs2] and stops. *)
Definition recordingCycle (cs1 cs2 : list Chunk) (correctly : bool)
  (data : list string) : list Command :=
  [StartListening] ++ map DataAvailable cs1 ++ [Answered correctly data]
  ++ map DataAvailable cs2 ++ [RecorderStopped].

(** ** The second copy of the controller class

    The repository holds another copy of the class, without view states
    and snapshots.  Only what an answer event runs through is embedded:
    construction, registration, the capture callback and
    [handleAnswered]. *)

Module Part000.

Record State := mkState {
  params : Params;
  mediaRecorder : option RecorderState;
  mediaChunks : list Chunk;
  mediaMIMEType : option string;
  hasAnswered : bool;
  score : Z;
  speechEventStore : option EventStore;
  introduction : option string;
  questionWrapper : bool;
  pendingUserMedia : nat;
  trace : list Effect
}.

Definition set_params v s :=
  mkState v (mediaRecorder s) (mediaChunks s) (mediaMIMEType s)
    (hasAnswered s) (score s) (speechEventStore s) (introduction s)
    (questionWrapper s) (pendingUserMedia s) (trace s).

Definition set_mediaRecorder v s :=
  mkState (params s) v (mediaChunks s) (mediaMIMEType s)
    (hasAnswered s) (score s) (speechEventStore s) (introduction s)
    (questionWrapper s) (pendingUserMedia s) (trace s).

Definition set_mediaMIMEType v s :=
  mkState (params s) (mediaRecorder s) (mediaChunks s) v
    (hasAnswered s) (score s) (speechEventStore s) (introduction s)
    (questionWrapper s) (pendingUserMedia s) (trace s).

Definition set_hasAnswered v s :=
  mkState (params s) (mediaRecorder s) (mediaChunks s) (mediaMIMEType s)
    v (score s) (speechEventStore s) (introduction s)
    (questionWrapper s) (pendingUserMedia s) (trace s).

Definition set_score v s :=
  mkState (params s) (mediaRecorder s) (mediaChunks s) (mediaMIMEType s)
    (hasAnswered s) v (speechEventStore s) (introduction s)
    (questionWrapper s) (pendingUserMedia s) (trace s).

Definition set_speechEventStore v s :=
  mkState (params s) (mediaRecorder s) (mediaChunks s) (mediaMIMEType s)
    (hasAnswered s) (score s) v (introduction s)
    (questionWrapper s) (pendingUserMedia s) (trace s).

Definition set_introduction v s :=
  mkState (params s) (mediaRecorder s) (mediaChunks s) (mediaMIMEType s)
    (hasAnswered s) (score s) (speechEventStore s) v
    (questionWrapper s) (pendingUserMedia s) (trace s).

Definition set_questionWrapper v s :=
  mkState (params s) (mediaRecorder s) (mediaChunks s) (mediaMIMEType s)
    (hasAnswered s) (score s) (speechEventStore s) (introduction s)
    v (pendingUserMedia s) (trace s).

Definition set_pendingUserMedia v s :=
  mkState (params s) (mediaRecorder s) (mediaChunks s) (mediaMIMEType s)
    (hasAnswered s) (score s) (speechEventStore s) (introduction s)
    (questionWrapper s) v (trace s).

Definition set_trace v s :=
  mkState (params s) (mediaRecorder s) (mediaChunks s) (mediaMIMEType s)
    (hasAnswered s) (score s) (speechEventStore s) (introduction s)
    (questionWrapper s) (pendingUserMedia s) v.

Definition emit (e : Effect) : M State unit :=
  modify (fun s => set_trace (trace s ++ [e]) s).

(** Reading [this.questionWrapper.parentNode.classList].  The copy is
    embedded for outcome events only, which find a recorder or throw at
    their first line; a recorder is created by the capture callback,
    after registration has passed [question.setContent].  The field
    [questionWrapper] therefore stands for the wrapper in its section;
    the position of that section is not tracked, and the update of
    [parentNode.parentNode] is recorded as when the section is in the
    page. *)
Definition wrapperParent : M State unit :=
  w <- gets questionWrapper ;;
  if w then ret tt else throw Js.TypeError.

Section Controller.

Variable decode : string -> string.

Definition getScore : M State Z := gets score.

Definition getMaxScore : M State Z := ret 1.

Definition getXAPIAnswerEvent : M State XAPIStatement :=
  p <- gets params ;;
  let ev := getxAPIDefinitionOf p (newXAPIEvent "answered") in
  sc <- getScore ;;
  mx <- getMaxScore ;;
  sc' <- getScore ;;
  mx' <- getMaxScore ;;
  ret (setScoredResult sc mx true (sc' =? mx') ev).

Definition triggerXAPIAnswered (r : option string) : M State unit :=
  ev <- getXAPIAnswerEvent ;;
  emit (QuestionTriggerXAPI (setResponse r ev)).

Definition recorderStop : M State unit :=
  modify (set_mediaRecorder (Some inactive)) ;;
  emit RecorderStop.

(** [this.mediaRecorder.state] is read without a test that the recorder
    exists.  [data] is the list of interpretations carried by the event. *)
Definition handleAnswered (data : list string) : M State unit :=
  rec <- gets mediaRecorder ;;
  match rec with
  | None => throw Js.TypeError
  | Some st => when (negb (recorderStateEqb st inactive)) recorderStop
  end ;;
  wrapperParent ;;
  emit (ClassListAdd WrapperParent "empty") ;;
  emit (ClassListAdd WrapperGrandParent "answered") ;;
  let r := hd_error data in
  p <- gets params ;;
  let correct := isAccepted (acceptedAnswers p) r in
  answerText <-
    (if correct then
       modify (set_score 1) ;;
       emit (HideButton "try-again") ;;
       emit (HideButton "show-solution") ;;
       ret (correctAnswerText p)
     else
       modify (set_score 0) ;;
       emit (ShowButton "try-again") ;;
       emit (ShowButton "show-solution") ;;
       ret (incorrectAnswerText p)) ;;
  sc <- getScore ;;
  mx <- getMaxScore ;;
  emit (SetFeedback (decode answerText) sc mx) ;;
  triggerXAPIAnswered r ;;
  modify (set_hasAnswered true).

Definition getUserMedia (w : Window) : M State unit :=
  if mediaDevices w then
    emit GetUserMedia ;;
    modify (fun s => set_pendingUserMedia (Datatypes.S (pendingUserMedia s)) s)
  else throw Js.TypeError.

Definition onUserMedia : M State unit :=
  modify (set_mediaRecorder (Some inactive)) ;;
  st <- gets speechEventStore ;;
  match st with
  | None => throw Js.TypeError
  | Some store =>
      modify (set_speechEventStore
                (Some (mkEventStore (Datatypes.S (startListeningHandlers store)))))
  end.

Definition registerDomElements (w : Window) : M State unit :=
  if negb (annyang w) then
    p <- gets params ;;
    emit (SetIntroduction
            (UnsupportedNotice (decode (unsupportedBrowserHeader (l10n p)))
                               (decode (unsupportedBrowserDetails (l10n p)))))
  else
    modify (set_mediaMIMEType (getRecordingMIMEType w)) ;;
    mime <- gets mediaMIMEType ;;
    when (Js.truthy mime) (getUserMedia w) ;;
    intro <- gets introduction ;;
    emit (SetIntroduction (IntroductionNode intro)) ;;
    emit SetContent.

Definition createButtonBar (l : L10n) : M State unit :=
  emit (AddButton "try-again" (decode (retryLabel l)) false (a11yRetry l)) ;;
  emit (AddButton "show-solution" (decode (showSolutionLabel l)) false
          (a11yShowSolution l)).

Definition blank (p : Params) : State :=
  mkState p None [] None false 0 None None false 0%nat [].

Definition constructorBody (w : Window) : M State unit :=
  modify (fun s =>
            set_params (mkParams (question (params s))
                          (map decode (acceptedAnswers (params s)))
                          (incorrectAnswerText (params s))
                          (correctAnswerText (params s))
                          (inputLanguage (params s))
                          (l10n (params s))) s) ;;
  modify (set_mediaRecorder None) ;;
  modify (set_hasAnswered false) ;;
  modify (set_score 0) ;;
  if negb (annyang w) then ret tt
  else
    modify (set_speechEventStore (Some (mkEventStore 0))) ;;
    p <- gets params ;;
    modify (set_introduction (Some (decode (question p)))) ;;
    modify (set_questionWrapper true) ;;
    createButtonBar (l10n p).

Definition construct (w : Window) (p : Params) : State :=
  stateOf (constructorBody w (blank p)).

End Controller.

End Part000.

(** ** Concrete inputs used to exercise the properties *)

Module Scenario.

Definition texts : L10n :=
  mkL10n "Retry" "Show solution"
    "It looks like your browser does not support speech recognition"
    "Please try again in a browser like Chrome"
    "Show the solution." "Retry the task.".

Definition paris : Params :=
  mkParams "What is the capital of France?" ["paris"]
    "Incorrect answer" "Correct answer" "en-US" texts.

(** [decode] on text that holds no character reference. *)
Definition plain (s : string) : string := s.

(** A browser with the recognition engine and no recorder API. *)
Definition noRecorder : Window := mkWindow true None false false.

(** A browser that records WebM and has an export collaborator. *)
Definition webm : Window :=
  mkWindow true (Some (mkMediaRecorderApi (Some (String.eqb "audio/webm"))))
    true true.

(** An older Apple device: a recorder API without [isTypeSupported]. *)
Definition appleLegacy : Window :=
  mkWindow true (Some (mkMediaRecorderApi None)) true false.

(** An Apple device that records MP4 only. *)
Definition appleMp4 : Window :=
  mkWindow true (Some (mkMediaRecorderApi (Some (String.eqb "audio/mp4"))))
    true false.

(** A new session, constructed without snapshot and registered. *)
Definition fresh : State :=
  stateOf (exec plain noRecorder RegisterDomElements
             (construct plain noRecorder paris None)).

(** The same outcome event delivered once, then once more. *)
Definition answeredOnce : State :=
  stateOf (exec plain noRecorder (Answered true ["paris"]) fresh).

Definition answeredTwice : State :=
  stateOf (exec plain noRecorder (Answered true ["paris"]) answeredOnce).

(** The snapshot of a session left in the solutions view. *)
Definition solved : Snapshot.t :=
  Snapshot.mk None (Some "solutions") (Some ["paris"]).

(** The second copy of the class, constructed and registered in the same
    browser. *)
Definition fresh000 : Part000.State :=
  stateOf (Part000.registerDomElements plain noRecorder
             (Part000.construct plain noRecorder paris)).

End Scenario.

(** ** Further concrete inputs *)

Module Cases.

(** A browser without the recognition engine. *)
Definition unsupported : Window := mkWindow false None false false.

(** A page without [navigator.mediaDevices] (an insecure origin) in a
    browser that records WebM. *)
Definition insecure : Window :=
  mkWindow true (Some (mkMediaRecorderApi (Some (String.eqb "audio/webm"))))
    false false.

(** A session in the WebM browser, registered, capture granted. *)
Definition granted : State :=
  execAll Scenario.plain Scenario.webm [RegisterDomElements; UserMediaGranted]
    (construct Scenario.plain Scenario.webm Scenario.paris None).

(** The same session while it records. *)
Definition listening : State :=
  stateOf (exec Scenario.plain Scenario.webm StartListening granted).

(** A session restored from a snapshot taken in the results view. *)
Definition restored : State :=
  stateOf (exec Scenario.plain Scenario.noRecorder RegisterDomElements
             (construct Scenario.plain Scenario.noRecorder Scenario.paris
                (snapshotOf "results" ["london"]))).

(** A controller that has been constructed and not registered: its
    wrapper is detached. *)
Definition unregistered : State :=
  construct Scenario.plain Scenario.noRecorder Scenario.paris None.

(** The same controller after [setViewState("results")]. *)
Definition unregisteredInResults : State :=
  stateOf (exec Scenario.plain Scenario.noRecorder (SetViewState "results")
             unregistered).

(** A registered session whose sections the host has put into the page. *)
Definition shownInPage : State :=
  stateOf (exec Scenario.plain Scenario.noRecorder SectionsAttached
             Scenario.fresh).

(** The second copy of the class with a recorder. *)
Definition granted000 : Part000.State :=
  stateOf (Part000.onUserMedia
             (stateOf (Part000.registerDomElements Scenario.plain Scenario.webm
                         (Part000.construct Scenario.plain Scenario.webm
                            Scenario.paris)))).

End Cases.


(** * Properties *)

(** ** Array search *)

Lemma indexOfFrom_absent (a : list string) (x : string) (i : Z) :
  0 <= i -> (Js.indexOfFrom a x i = -1 <-> ~ In x a).
Proof.
  revert i. induction a as [|y a IH]; intros i Hi; simpl.
  - split; [intros _ [] | reflexivity].
  - destruct (String.eqb_spec y x) as [->|Hne].
    + split; [lia | intros H; exfalso; apply H; left; reflexivity].
    + rewrite (IH (i + 1)) by lia.
      split; [intros H [E|E]; [congruence | exact (H E)] | intros H E; apply H; right; exact E].
Qed.

Lemma isAccepted_In (A : list string) (r : string) :
  isAccepted A (Some r) = true <-> In r A.
Proof.
  unfold isAccepted, Js.indexOf.
  rewrite negb_true_iff, Z.eqb_neq, indexOfFrom_absent by lia.
  split.
  - intros H. destruct (in_dec string_dec r A) as [Hin|Hout]; [exact Hin | contradiction].
  - intros H Hn. exact (Hn H).
Qed.

Lemma isAccepted_undefined (A : list string) : isAccepted A None = false.
Proof. reflexivity. Qed.

Lemma setViewState_legal_name (s : string) :
  In s VIEW_STATES <-> (Js.indexOf VIEW_STATES (Some s) =? -1) = false.
Proof.
  rewrite Z.eqb_neq. unfold Js.indexOf.
  rewrite indexOfFrom_absent by lia.
  split.
  - intros H Hn. exact (Hn H).
  - intros H. destruct (in_dec string_dec s VIEW_STATES) as [Hin|Hout]; [exact Hin | contradiction].
Qed.

(** ** Traces *)

Lemma published_app (a b : list Effect) :
  published (a ++ b) = published a ++ published b.
Proof.
  induction a as [|e a IH]; simpl; [reflexivity|].
  destruct e; simpl; rewrite ?IH; reflexivity.
Qed.

(** ** Symbolic execution of the methods *)

Lemma State_ext (a b : State) :
  params a = params b ->
  previousState a = previousState b ->
  mediaRecorder a = mediaRecorder b ->
  mediaChunks a = mediaChunks b ->
  mediaMIMEType a = mediaMIMEType b ->
  hasAnswered a = hasAnswered b ->
  score a = score b ->
  viewState a = viewState b ->
  lastInterpretations a = lastInterpretations b ->
  speechEventStore a = speechEventStore b ->
  introduction a = introduction b ->
  questionWrapper a = questionWrapper b ->
  placement a = placement b ->
  pendingUserMedia a = pendingUserMedia b ->
  trace a = trace b ->
  a = b.
Proof.
  destruct a, b; simpl; intros; subst; reflexivity.
Qed.

Ltac unfold_methods :=
  unfold exec, registerDomElements, recreateState, resetTask, showSolutions,
    stopListening, storeTrigger, handleAnswered, triggerXAPIAnswered,
    getXAPIAnswerEvent, createXAPIEvent, getxAPIDefinition, getScore,
    getMaxScore, getCurrentState, setViewState, recorderStop, wrapperParent,
    wrapperGrandParent, setContent, getUserMedia, onUserMedia, onStop, onDataAvailable, emit, when, bind,
    gets, modify, ret, throw in *.

Ltac case_step :=
  match goal with
  | |- context [match ?x with _ => _ end] =>
      lazymatch x with
      | context [match _ with _ => _ end] => fail
      | _ =>
          let T := type of x in
          lazymatch T with
          | string => fail
          | Ascii.ascii => fail
          | _ => destruct x eqn:?
          end
      end
  end.

Ltac run_with tac :=
  unfold_methods; cbn in *; tac;
  repeat (case_step; try (exfalso; congruence); cbn in *; tac).

Ltac run := run_with idtac.

(** Ends the comparison of an executed method with its closed form,
    field by field. *)
Ltac close_form :=
  subst; apply (f_equal (Return tt)); apply State_ext; cbn;
  repeat match goal with
         | H : ?f ?a = _ |- context [?f ?a] => rewrite H
         end;
  cbn; rewrite <- ?app_assoc; reflexivity.

Ltac in_list := simpl; repeat first [left; reflexivity | right].

Ltac in_trace :=
  lazymatch goal with
  | |- In _ (_ ++ _) =>
      apply in_or_app; first [ solve [right; in_trace] | solve [left; in_trace] ]
  | |- In _ (_ :: _) => first [ solve [left; reflexivity] | right; in_trace ]
  | |- _ \/ _ => first [ solve [left; reflexivity] | right; in_trace ]
  end.

Ltac frame_goal :=
  unfold frames, maintains, rendered, captureOff, legalViewState, attached;
  intros.

Section Frames.

Variable R : State -> State -> Prop.
Hypothesis R_refl : forall st, R st st.
Hypothesis R_trans : forall a b c, R a b -> R b c -> R a c.

Lemma frames_ret {A} (a : A) : frames R (ret a).
Proof. intros st. apply R_refl. Qed.

Lemma frames_gets {A} (f : State -> A) : frames R (gets f).
Proof. intros st. apply R_refl. Qed.

Lemma frames_throw {A} (e : Js.Error) : frames R (@throw State A e).
Proof. intros st. apply R_refl. Qed.

Lemma frames_bind {A B} (m : M State A) (k : A -> M State B) :
  frames R m -> (forall a, frames R (k a)) -> frames R (bind m k).
Proof.
  intros Hm Hk st. unfold bind. specialize (Hm st).
  destruct (m st) as [a s1|e s1]; simpl in *.
  - eapply R_trans; [exact Hm | apply Hk].
  - exact Hm.
Qed.

Lemma frames_when (b : bool) (m : M State unit) :
  frames R m -> frames R (when b m).
Proof. intros H. destruct b; simpl; [exact H | apply frames_ret]. Qed.

Lemma frames_repeatM (n : nat) (m : M State unit) :
  frames R m -> frames R (repeatM n m).
Proof.
  intros H. induction n as [|n IH]; simpl.
  - apply frames_ret.
  - apply frames_bind; [exact H | intros _; exact IH].
Qed.

End Frames.

Lemma maintains_refl (w : Window) (st : State) : maintains w st st.
Proof. unfold maintains. auto. Qed.

Lemma maintains_trans (w : Window) (a b c : State) :
  maintains w a b -> maintains w b c -> maintains w a c.
Proof.
  unfold maintains. intros (A1 & A2 & A3 & A4 & A5) (B1 & B2 & B3 & B4 & B5).
  split; [| split; [| split; [| split]]]; auto.
Qed.

Section Methods.

Variable decode : string -> string.
Variable w : Window.

Lemma maintains_emit (e : Effect) : frames (maintains w) (emit e).
Proof. frame_goal. cbn. auto. Qed.

Lemma setViewState_spec (s : string) (st : State) :
  setViewState s st =
  if Js.indexOf VIEW_STATES (Some s) =? -1 then Return tt st
  else Return tt (set_viewState (Some s)
                    (set_trace (trace st ++ [QuestionTrigger "kllStoreSessionState"]) st)).
Proof.
  unfold setViewState. destruct (Js.indexOf VIEW_STATES (Some s) =? -1); reflexivity.
Qed.

Lemma legal_string (s : string) :
  (Js.indexOf VIEW_STATES (Some s) =? -1) = false -> legalViewState (Some s).
Proof.
  intros H. apply setViewState_legal_name in H.
  unfold legalViewState. simpl in H.
  destruct H as [<-|[<-|[<-|[]]]]; auto.
Qed.

Lemma maintains_setViewState (s : string) : frames (maintains w) (setViewState s).
Proof.
  intros st. rewrite setViewState_spec.
  destruct (Js.indexOf VIEW_STATES (Some s) =? -1) eqn:E; cbn.
  - apply maintains_refl.
  - unfold maintains, rendered, captureOff, attached; cbn.
    split; [auto | split; [intros _; exact (legal_string s E) | auto]].
Qed.

Lemma handleAnswered_eq (data : list string) (st : State) :
  questionWrapper st = true ->
  attached st ->
  handleAnswered decode (Some data) st = Return tt (answered decode data st).
Proof.
  intros Hq Ha. unfold attached in Ha. run; try discriminate; try congruence;
    try (match goal with r : RecorderState |- _ => destruct r end;
         try discriminate);
    unfold answered, answeredEffects, answeredScore, stopEffects,
      onGrandParent, inPage;
    close_form.
Qed.

Lemma maintains_handleAnswered (data : option (list string)) :
  frames (maintains w) (handleAnswered decode data).
Proof.
  frame_goal. run; intuition congruence.
Qed.

Lemma maintains_onStartListening : frames (maintains w) onStartListening.
Proof.
  frame_goal. unfold onStartListening. run; intuition congruence.
Qed.

Lemma maintains_storeTrigger (event : string) (data : option (list string)) :
  frames (maintains w) (storeTrigger decode event data).
Proof.
  unfold storeTrigger.
  apply frames_bind; [apply maintains_trans | apply frames_gets; apply maintains_refl |].
  intros [store|]; [| apply frames_throw; apply maintains_refl].
  apply frames_bind; [apply maintains_trans | apply maintains_emit |].
  intros _.
  destruct (_ || _).
  - apply maintains_handleAnswered.
  - destruct (String.eqb _ _).
    + apply frames_repeatM;
        [apply maintains_refl | apply maintains_trans | apply maintains_onStartListening].
    + apply frames_ret, maintains_refl.
Qed.

Lemma maintains_showSolutions : frames (maintains w) (showSolutions decode).
Proof.
  frame_goal. run; intuition congruence.
Qed.

Lemma maintains_resetTask : frames (maintains w) (resetTask decode).
Proof.
  frame_goal. run; intuition congruence.
Qed.

Ltac frames_seq :=
  apply frames_bind; [apply maintains_trans | | intros ?].

Ltac frames_leaf :=
  first [ apply maintains_emit
        | apply frames_gets, maintains_refl
        | apply frames_ret, maintains_refl
        | apply frames_throw, maintains_refl ].

Lemma maintains_recreateState : frames (maintains w) (recreateState decode).
Proof.
  unfold recreateState.
  frames_seq; [frames_leaf|].
  destruct (Snapshot.lastInterpretations _); [| frames_leaf].
  frames_seq; [frames_leaf|].
  frames_seq.
  { apply frames_when; [apply maintains_refl|].
    destruct (isAccepted _ _); apply maintains_storeTrigger. }
  frames_seq; [frames_leaf|].
  frames_seq.
  { apply frames_when; [apply maintains_refl | apply maintains_showSolutions]. }
  apply maintains_storeTrigger.
Qed.

Lemma maintains_capture_request :
  frames (maintains w)
    (when (Js.truthy (getRecordingMIMEType w)) (getUserMedia w)).
Proof.
  frame_goal. unfold getUserMedia.
  destruct (getRecordingMIMEType w) as [m|] eqn:Hm; run; intuition congruence.
Qed.

Lemma registerDomElements_supported (st : State) :
  annyang w = true ->
  registerDomElements decode w st =
  afterNegotiation decode w
    (set_mediaMIMEType (getRecordingMIMEType w) st).
Proof.
  intros H. unfold registerDomElements. rewrite H. reflexivity.
Qed.

Lemma maintains_setContent : frames (maintains w) setContent.
Proof.
  frame_goal. cbn. intuition discriminate.
Qed.

Lemma maintains_afterNegotiation :
  frames (maintains w) (afterNegotiation decode w).
Proof.
  unfold afterNegotiation.
  frames_seq; [apply maintains_capture_request|].
  do 2 (frames_seq; [frames_leaf|]).
  frames_seq; [apply maintains_setContent|].
  frames_seq; [frames_leaf|].
  destruct (Snapshot.lastInterpretations _) as [[|x l]|];
    [frames_leaf | apply maintains_recreateState | frames_leaf].
Qed.

Lemma registerDomElements_negotiates (st : State) :
  annyang w = true ->
  mediaMIMEType (stateOf (registerDomElements decode w st)) =
  getRecordingMIMEType w.
Proof.
  intros Ha. rewrite (registerDomElements_supported st Ha).
  apply (maintains_afterNegotiation (set_mediaMIMEType (getRecordingMIMEType w) st)).
  reflexivity.
Qed.

Lemma maintains_registerDomElements :
  frames (maintains w) (registerDomElements decode w).
Proof.
  intros st. destruct (annyang w) eqn:Ha.
  - rewrite (registerDomElements_supported st Ha).
    apply maintains_trans with (b := set_mediaMIMEType (getRecordingMIMEType w) st).
    + frame_goal. cbn. auto.
    + apply maintains_afterNegotiation.
  - unfold registerDomElements. rewrite Ha. cbn [negb].
    apply frames_bind; [apply maintains_trans | frames_leaf | intros p; frames_leaf].
Qed.

Lemma maintains_exec (c : Command) : frames (maintains w) (exec decode w c).
Proof.
  destruct c; cbn [exec].
  - apply maintains_registerDomElements.
  - apply maintains_storeTrigger.
  - apply maintains_resetTask.
  - apply maintains_showSolutions.
  - apply maintains_storeTrigger.
  - apply maintains_setViewState.
  - apply maintains_storeTrigger.
  - frame_goal. run; intuition congruence.
  - frame_goal. run; intuition congruence.
  - frame_goal. run; intuition congruence.
  - frame_goal. run; intuition congruence.
Qed.

End Methods.

(** ** Construction *)

Section Construction.

Variable decode : string -> string.
Variables (w : Window) (p : Params) (extras : option Extras).

Lemma construct_params :
  acceptedAnswers (params (construct decode w p extras)) =
  map decode (acceptedAnswers p).
Proof.
  unfold construct, constructorBody, bind, modify, gets.
  cbn -[setViewState]. rewrite setViewState_spec.
  destruct (Js.indexOf _ _ =? -1); destruct (annyang w); reflexivity.
Qed.

Lemma construct_question :
  question (params (construct decode w p extras)) = question p.
Proof.
  unfold construct, constructorBody, bind, modify, gets.
  cbn -[setViewState]. rewrite setViewState_spec.
  destruct (Js.indexOf _ _ =? -1); destruct (annyang w); reflexivity.
Qed.

Lemma construct_previousState :
  previousState (construct decode w p extras) = previousStateOf extras.
Proof.
  unfold construct, constructorBody, bind, modify, gets.
  cbn -[setViewState]. rewrite setViewState_spec.
  destruct (Js.indexOf _ _ =? -1); destruct (annyang w); reflexivity.
Qed.

Lemma construct_rendered :
  annyang w = true -> rendered (construct decode w p extras).
Proof.
  intros Ha. unfold construct, constructorBody, bind, modify, gets, rendered.
  cbn -[setViewState]. rewrite setViewState_spec, Ha.
  destruct (Js.indexOf _ _ =? -1); cbn; split; congruence.
Qed.

Lemma construct_captureOff : captureOff (construct decode w p extras).
Proof.
  unfold construct, constructorBody, bind, modify, gets, captureOff.
  cbn -[setViewState]. rewrite setViewState_spec.
  destruct (Js.indexOf _ _ =? -1); destruct (annyang w); cbn; auto.
Qed.

Lemma construct_viewState :
  Snapshot.vieState (previousStateOf extras) = None ->
  viewState (construct decode w p extras) = Some "task".
Proof.
  intros Hv. unfold construct, constructorBody, bind, modify, gets.
  cbn -[setViewState]. rewrite Hv. cbn.
  destruct (annyang w); reflexivity.
Qed.

Lemma construct_publishes_nothing :
  published (trace (construct decode w p extras)) = [].
Proof.
  unfold construct, constructorBody, bind, modify, gets.
  cbn -[setViewState]. rewrite setViewState_spec.
  destruct (Js.indexOf _ _ =? -1); destruct (annyang w); reflexivity.
Qed.

Lemma construct_touches_no_page_node :
  filter onPageNode (trace (construct decode w p extras)) = [].
Proof.
  unfold construct, constructorBody, bind, modify, gets.
  cbn -[setViewState]. rewrite setViewState_spec.
  destruct (Js.indexOf _ _ =? -1); destruct (annyang w); reflexivity.
Qed.

Lemma construct_detached :
  placement (construct decode w p extras) = Detached.
Proof.
  unfold construct, constructorBody, bind, modify, gets.
  cbn -[setViewState]. rewrite setViewState_spec.
  destruct (Js.indexOf _ _ =? -1); destruct (annyang w); reflexivity.
Qed.

(** ** Invariants of reachable sessions *)

Lemma reachable_rendered (st : State) :
  annyang w = true -> reachable decode w p extras st -> rendered st.
Proof.
  intros Ha H. induction H as [|st c _ IH].
  - exact (construct_rendered Ha).
  - exact (proj1 (maintains_exec decode w c st) IH).
Qed.

Lemma reachable_legalViewState (st : State) :
  Snapshot.vieState (previousStateOf extras) = None ->
  reachable decode w p extras st -> legalViewState (viewState st).
Proof.
  intros Hv H. induction H as [|st c _ IH].
  - left. exact (construct_viewState Hv).
  - exact (proj1 (proj2 (maintains_exec decode w c st)) IH).
Qed.

Lemma reachable_captureOff (st : State) :
  getRecordingMIMEType w = None ->
  reachable decode w p extras st -> captureOff st.
Proof.
  intros Hm H. induction H as [|st c _ IH].
  - exact construct_captureOff.
  - exact (proj1 (proj2 (proj2 (maintains_exec decode w c st))) Hm IH).
Qed.

End Construction.

(** ** Delivery of an outcome, show-solution and reset *)

Section Delivery.

Variable decode : string -> string.
Variable w : Window.

Lemma bind_Return {A B} (m : M State A) (k : A -> M State B) (st s1 : State) (a : A) :
  m st = Return a s1 -> bind m k st = k a s1.
Proof. intros H. unfold bind. rewrite H. reflexivity. Qed.

Lemma storeTrigger_answered (b : bool) (data : list string) (st : State) :
  rendered st ->
  attached st ->
  storeTrigger decode (answeredEvent b) (Some data) st =
  Return tt (answered decode data
               (set_trace (trace st ++ [StoreTrigger (answeredEvent b) (Some data)]) st)).
Proof.
  intros [Hq Hs] Ha. unfold storeTrigger.
  destruct (speechEventStore st) as [store|] eqn:Hst; [| congruence].
  rewrite (bind_Return _ _ st st (Some store)) by (unfold gets; rewrite Hst; reflexivity).
  erewrite bind_Return by reflexivity.
  destruct b; cbn [answeredEvent String.eqb Ascii.eqb Bool.eqb orb];
    apply handleAnswered_eq; [exact Hq | exact Ha | exact Hq | exact Ha].
Qed.

Lemma exec_answered (b : bool) (data : list string) (st : State) :
  rendered st ->
  attached st ->
  exec decode w (Answered b data) st =
  Return tt (answered decode data
               (set_trace (trace st ++ [StoreTrigger (answeredEvent b) (Some data)]) st)).
Proof. intros H Ha. exact (storeTrigger_answered b data st H Ha). Qed.

Lemma storeTrigger_resize (st : State) :
  speechEventStore st <> None ->
  storeTrigger decode "resize" None st =
  Return tt (set_trace (trace st ++ [StoreTrigger "resize" None]) st).
Proof.
  intros Hs. unfold storeTrigger.
  destruct (speechEventStore st) as [store|] eqn:Hst; [| congruence].
  unfold bind, gets. rewrite Hst. reflexivity.
Qed.

Lemma showSolutions_eq (st : State) :
  rendered st -> attached st ->
  showSolutions decode st = Return tt (solutionsShown st).
Proof.
  intros [Hq Hs] Ha. unfold attached in Ha.
  run; try congruence; unfold solutionsShown, onGrandParent, inPage; close_form.
Qed.

Lemma resetTask_eq (st : State) :
  rendered st -> attached st ->
  resetTask decode st = Return tt (taskReset st).
Proof.
  intros [Hq Hs] Ha. unfold attached in Ha.
  run; try congruence; unfold taskReset, onGrandParent, inPage; close_form.
Qed.

Lemma answered_rendered (data : list string) (st : State) :
  rendered st -> rendered (answered decode data st).
Proof.
  intros H. exact H.
Qed.

Lemma answered_attached (data : list string) (st : State) :
  attached st -> attached (answered decode data st).
Proof.
  intros H. exact H.
Qed.

Lemma published_answered (data : list string) (st : State) :
  published (trace (answered decode data st)) =
  published (trace st) ++
    (if snapshotPermitsReport (previousState st)
     then [outcomeRecord (params st) (answeredScore st data) (hd_error data)]
     else []).
Proof.
  unfold answered, answeredEffects, stopEffects, onGrandParent. cbn.
  destruct (mediaRecorder st) as [[]|]; destruct (inPage st);
    destruct (isAccepted _ _); destruct (snapshotPermitsReport _);
    cbn; rewrite ?published_app; cbn; rewrite ?app_nil_r; reflexivity.
Qed.

Lemma buttons_answered (data : list string) (st : State) (id : string) :
  id = "try-again" \/ id = "show-solution" ->
  buttonVisible id (trace (answered decode data st)) =
  negb (isAccepted (acceptedAnswers (params st)) (hd_error data)).
Proof.
  intros Hid.
  unfold answered, answeredEffects, stopEffects, onGrandParent,
    buttonVisible, buttonVisibleFrom. cbn.
  destruct (mediaRecorder st) as [[]|]; destruct (inPage st);
    destruct (isAccepted _ _); destruct (snapshotPermitsReport _);
    cbn; rewrite ?fold_left_app; destruct Hid; subst id; reflexivity.
Qed.

Lemma calls_answered (data : list string) (st : State) :
  if isAccepted (acceptedAnswers (params st)) (hd_error data)
  then In (HideButton "try-again") (trace (answered decode data st)) /\
       In (HideButton "show-solution") (trace (answered decode data st))
  else In (ShowButton "try-again") (trace (answered decode data st)) /\
       In (ShowButton "show-solution") (trace (answered decode data st)).
Proof.
  unfold answered, answeredEffects. cbn.
  destruct (isAccepted _ _); split;
    apply in_or_app; right; apply in_or_app; right; right;
    apply in_or_app; right; cbn; auto.
Qed.

Lemma snapshotPermitsReport_spec (ps : Snapshot.t) :
  snapshotPermitsReport ps = true <->
  Snapshot.viewState ps = None \/ Snapshot.viewState ps = Some EmptyString \/
  Snapshot.viewState ps = Some "task".
Proof.
  unfold snapshotPermitsReport, Js.truthy, Js.strictEq.
  destruct (Snapshot.viewState ps) as [s|]; cbn.
  - rewrite negb_involutive, orb_true_iff, !String.eqb_eq.
    split.
    + intros [->| ->]; auto.
    + intros [H|[H|H]]; [discriminate | left | right]; congruence.
  - split; auto.
Qed.

(** ** Restoring a snapshot *)

Lemma negotiated_types :
  getRecordingMIMEType w = None \/
  getRecordingMIMEType w = Some "audio/webm" \/
  getRecordingMIMEType w = Some "audio/mp4".
Proof.
  unfold getRecordingMIMEType.
  destruct (MediaRecorder w) as [api|]; [| auto].
  destruct (isTypeSupported api) as [f|]; [| auto].
  destruct (f "audio/webm"); [auto|].
  destruct (f "audio/mp4"); auto.
Qed.

Lemma pageNode_answered (data : list string) (st : State) :
  filter onPageNode (trace (answered decode data st)) =
  filter onPageNode (trace st)
  ++ onGrandParent st (ClassListAdd WrapperGrandParent "answered").
Proof.
  unfold answered, answeredEffects, stopEffects, onGrandParent. cbn.
  rewrite filter_app.
  destruct (mediaRecorder st) as [[]|]; destruct (inPage st);
    destruct (isAccepted _ _); destruct (snapshotPermitsReport _);
    reflexivity.
Qed.

Lemma pageNode_solutionsShown (st : State) :
  filter onPageNode (trace (solutionsShown st)) =
  filter onPageNode (trace st)
  ++ onGrandParent st (ClassListAdd WrapperGrandParent "showing-solution").
Proof.
  unfold solutionsShown, onGrandParent. cbn.
  rewrite filter_app. destruct (inPage st); reflexivity.
Qed.

Lemma recreateState_replays (vs x : string) (l : list string) (st : State) :
  rendered st ->
  attached st ->
  previousState st = Snapshot.mk None (Some vs) (Some (x :: l)) ->
  vs = "results" \/ vs = "solutions" ->
  returned (recreateState decode st) = true /\
  viewState (stateOf (recreateState decode st)) = Some vs /\
  published (trace (stateOf (recreateState decode st))) = published (trace st) /\
  score (stateOf (recreateState decode st)) =
    (if isAccepted (acceptedAnswers (params st)) (Some x) then 1 else 0) /\
  hasAnswered (stateOf (recreateState decode st)) = true /\
  lastInterpretations (stateOf (recreateState decode st)) = Some (x :: l) /\
  (vs = "solutions" ->
   In (StoreTrigger "show-solution" None) (trace (stateOf (recreateState decode st))) /\
   In (HideButton "show-solution") (trace (stateOf (recreateState decode st)))) /\
  (inPage st = false ->
   filter onPageNode (trace (stateOf (recreateState decode st))) =
   filter onPageNode (trace st)).
Proof.
  intros Hr Ha Hps Hvs.
  set (ok := isAccepted (acceptedAnswers (params st)) (Some x)).
  set (s0 := set_trace (trace st ++ [StoreTrigger (answeredEvent ok) (Some (x :: l))]) st).
  set (s1 := answered decode (x :: l) s0).
  assert (Hr1 : rendered s1) by exact Hr.
  assert (Ha1 : attached s1) by exact Ha.
  assert (Hps1 : previousState s1 = Snapshot.mk None (Some vs) (Some (x :: l))) by exact Hps.
  assert (Hsc1 : score s1 = if ok then 1 else 0) by reflexivity.
  assert (Hans1 : hasAnswered s1 = true) by reflexivity.
  assert (Hli1 : lastInterpretations s1 = Some (x :: l)) by reflexivity.
  assert (Hvs1 : viewState s1 = Some "results") by reflexivity.
  assert (Hpl1 : inPage s1 = inPage st) by reflexivity.
  assert (Htrig : (if ok then storeTrigger decode "answered-correctly" (Some (x :: l))
                   else storeTrigger decode "answered-wrong" (Some (x :: l))) st
                  = Return tt s1).
  { pose proof (storeTrigger_answered ok (x :: l) st Hr Ha) as H.
    unfold answeredEvent in H. destruct ok; exact H. }
  assert (Hpub1 : published (trace s1) = published (trace st)).
  { unfold s1. rewrite published_answered. cbn [previousState set_trace s0].
    rewrite Hps. destruct Hvs; subst vs; cbn; rewrite published_app; cbn;
      rewrite !app_nil_r; reflexivity. }
  assert (Hpg1 : inPage st = false ->
                 filter onPageNode (trace s1) = filter onPageNode (trace st)).
  { intros Hp. unfold s1. rewrite pageNode_answered.
    unfold onGrandParent.
    change (inPage s0) with (inPage st). rewrite Hp.
    unfold s0. cbn [trace set_trace]. rewrite filter_app. cbn.
    rewrite !app_nil_r. reflexivity. }
  clearbody s1. clear s0.
  unfold recreateState.
  rewrite (bind_Return _ _ st st (previousState st)) by reflexivity.
  rewrite Hps. cbn [Snapshot.lastInterpretations Snapshot.viewState].
  rewrite (bind_Return _ _ st st (params st)) by reflexivity.
  cbn [hd_error]. fold ok.
  destruct Hvs; subst vs; cbn [Js.strictEq String.eqb Ascii.eqb Bool.eqb orb when].
  - rewrite (bind_Return _ _ st s1 tt Htrig).
    rewrite (bind_Return _ _ s1 s1 (previousState s1)) by reflexivity.
    rewrite Hps1. cbn [Snapshot.viewState Js.strictEq String.eqb Ascii.eqb Bool.eqb when].
    rewrite (bind_Return _ _ s1 s1 tt) by reflexivity.
    rewrite (storeTrigger_resize s1 (proj2 Hr1)).
    cbn [returned stateOf viewState score hasAnswered lastInterpretations
           trace set_trace].
    rewrite published_app, Hpub1, filter_app. cbn [published filter onPageNode].
    rewrite !app_nil_r.
    repeat split; auto; discriminate.
  - rewrite (bind_Return _ _ st s1 tt Htrig).
    rewrite (bind_Return _ _ s1 s1 (previousState s1)) by reflexivity.
    rewrite Hps1. cbn [Snapshot.viewState Js.strictEq String.eqb Ascii.eqb Bool.eqb when].
    rewrite (bind_Return _ _ s1 (solutionsShown s1) tt (showSolutions_eq s1 Hr1 Ha1)).
    rewrite (storeTrigger_resize (solutionsShown s1) (proj2 Hr1)).
    cbn [returned stateOf trace set_trace].
    rewrite published_app, filter_app, pageNode_solutionsShown.
    cbn [published filter onPageNode]. rewrite !app_nil_r.
    assert (Hpub2 : published (trace (solutionsShown s1)) = published (trace s1)).
    { unfold solutionsShown, onGrandParent. cbn.
      rewrite published_app. destruct (inPage s1); cbn; apply app_nil_r. }
    rewrite Hpub2, Hpub1.
    split; [reflexivity |]. split; [reflexivity |]. split; [reflexivity |].
    split; [exact Hsc1 |]. split; [exact Hans1 |]. split; [exact Hli1 |].
    split.
    + intros _. unfold solutionsShown. cbn [trace set_trace set_viewState].
      split; in_trace.
    + intros Hp. unfold onGrandParent. rewrite Hpl1, Hp, app_nil_r.
      exact (Hpg1 Hp).
Qed.

Lemma registerDomElements_replays (vs x : string) (l : list string) (st : State) :
  annyang w = true ->
  captureRequestable w ->
  rendered st ->
  previousState st = Snapshot.mk None (Some vs) (Some (x :: l)) ->
  vs = "results" \/ vs = "solutions" ->
  returned (registerDomElements decode w st) = true /\
  viewState (stateOf (registerDomElements decode w st)) = Some vs /\
  published (trace (stateOf (registerDomElements decode w st))) = published (trace st) /\
  score (stateOf (registerDomElements decode w st)) =
    (if isAccepted (acceptedAnswers (params st)) (Some x) then 1 else 0) /\
  hasAnswered (stateOf (registerDomElements decode w st)) = true /\
  lastInterpretations (stateOf (registerDomElements decode w st)) = Some (x :: l) /\
  (vs = "solutions" ->
   In (StoreTrigger "show-solution" None)
      (trace (stateOf (registerDomElements decode w st))) /\
   In (HideButton "show-solution")
      (trace (stateOf (registerDomElements decode w st)))) /\
  filter onPageNode (trace (stateOf (registerDomElements decode w st))) =
    filter onPageNode (trace st).
Proof.
  intros Ha Hc Hr Hps Hvs.
  rewrite (registerDomElements_supported decode w st Ha).
  assert (Hcap : exists s1,
            when (Js.truthy (getRecordingMIMEType w)) (getUserMedia w)
              (set_mediaMIMEType (getRecordingMIMEType w) st) = Return tt s1 /\
            rendered s1 /\ previousState s1 = previousState st /\
            params s1 = params st /\ introduction s1 = introduction st /\
            published (trace s1) = published (trace st) /\
            filter onPageNode (trace s1) = filter onPageNode (trace st)).
  { unfold getUserMedia.
    destruct negotiated_types as [Hm|[Hm|Hm]]; rewrite Hm; cbn [Js.truthy String.eqb negb when].
    - eexists; split; [reflexivity | cbn; auto 10].
    - destruct Hc as [Hn|Hd]; [congruence|]. rewrite Hd.
      eexists; split; [reflexivity |].
      cbn. rewrite published_app, filter_app, !app_nil_r. auto 10.
    - destruct Hc as [Hn|Hd]; [congruence|]. rewrite Hd.
      eexists; split; [reflexivity |].
      cbn. rewrite published_app, filter_app, !app_nil_r. auto 10. }
  destruct Hcap as (s1 & Hs1 & Hr1 & Hps1 & Hp1 & Hi1 & Hpub1 & Hpg1).
  unfold afterNegotiation.
  rewrite (bind_Return _ _ _ s1 tt Hs1).
  rewrite (bind_Return _ _ s1 s1 (introduction s1)) by reflexivity.
  erewrite bind_Return by reflexivity.
  erewrite bind_Return by reflexivity.
  erewrite bind_Return by reflexivity.
  cbn [previousState set_trace set_placement]. rewrite Hps1, Hps.
  cbn [Snapshot.lastInterpretations].
  match goal with
  | |- context [recreateState decode ?s] =>
      pose proof (recreateState_replays vs x l s) as H
  end.
  cbn [previousState set_trace set_placement params trace rendered
         questionWrapper speechEventStore] in H.
  rewrite Hps1, Hp1, !published_app, !filter_app, Hpub1, Hpg1 in H.
  cbn [published filter onPageNode] in H. rewrite !app_nil_r in H.
  destruct (H Hr1 ltac:(unfold attached; cbn; discriminate) Hps Hvs)
    as (H1 & H2 & H3 & H4 & H5 & H6 & H7 & H8).
  repeat split; try assumption; try (apply H7; assumption).
  apply H8. reflexivity.
Qed.

End Delivery.

(** ** The second copy of the class *)

Section SecondCopy.

Variable decode : string -> string.

Lemma part000_handleAnswered_requires_recorder (data : list string)
  (st : Part000.State) :
  Part000.mediaRecorder st = None ->
  Part000.handleAnswered decode data st = Throw Js.TypeError st.
Proof.
  intros H. unfold Part000.handleAnswered, bind, gets, throw.
  rewrite H. reflexivity.
Qed.

Lemma answered_without_recorder (w : Window) (b : bool) (data : list string)
  (st : State) :
  rendered st ->
  attached st ->
  mediaRecorder st = None ->
  returned (exec decode w (Answered b data) st) = true /\
  score (stateOf (exec decode w (Answered b data) st)) = answeredScore st data /\
  hasAnswered (stateOf (exec decode w (Answered b data) st)) = true /\
  mediaRecorder (stateOf (exec decode w (Answered b data) st)) = None /\
  In (SetFeedback
        (decode (if isAccepted (acceptedAnswers (params st)) (hd_error data)
                 then correctAnswerText (params st)
                 else incorrectAnswerText (params st)))
        (answeredScore st data) 1)
     (trace (stateOf (exec decode w (Answered b data) st))).
Proof.
  intros Hr Ha Hm. rewrite (exec_answered decode w b data st Hr Ha).
  cbn [returned stateOf]. unfold answered, answeredEffects, answeredScore. cbn.
  rewrite Hm. repeat split; try reflexivity.
  destruct (isAccepted _ _); cbn; in_trace.
Qed.

End SecondCopy.

(** * The claims *)

Example evaluation_is_case_sensitive :
  isAccepted ["paris"] (Some "Paris") = false /\
  isAccepted ["paris"] (Some "paris ") = false /\
  isAccepted ["paris"] (Some "paris") = true.
Proof. repeat split; reflexivity. Qed.

(** C1.  Answer evaluation is exact membership of the response in the
    accepted answers: the stored answers are the author's answers passed
    once through [decode] by the constructor, and the test made on a
    response [r] is true exactly when [r] is one of them, compared as
    strings (so case-sensitively). *)
Theorem C1_evaluation_is_exact_membership :
  forall (decode : string -> string) (w : Window) (p : Params)
         (extras : option Extras) (r : string),
    acceptedAnswers (params (construct decode w p extras)) =
      map decode (acceptedAnswers p) /\
    (isAccepted (acceptedAnswers (params (construct decode w p extras))) (Some r) = true
     <-> In r (map decode (acceptedAnswers p))).
Proof.
  intros decode w p extras r. rewrite construct_params.
  split; [reflexivity | apply isAccepted_In].
Qed.

(** C2, as stated, fails: in a new session (no snapshot), the same outcome
    event delivered a second time, while the view state is already
    [results], publishes a second record. *)
Lemma C2_replay_publishes_second_record :
  viewState Scenario.fresh = Some "task" /\
  viewState Scenario.answeredOnce = Some "results" /\
  length (published (trace Scenario.answeredOnce)) = 1%nat /\
  returned (exec Scenario.plain Scenario.noRecorder (Answered true ["paris"])
              Scenario.answeredOnce) = true /\
  length (published (trace Scenario.answeredTwice)) = 2%nat.
Proof. vm_compute. repeat split; reflexivity. Qed.

(** C2, amended.  In a session whose content wrapper has been handed to
    the host (registration reached [setContent]), from view state [task],
    an outcome event moves the session to [results]; it publishes exactly
    one Interaction Outcome Record when the prior snapshot's view state
    is absent, empty or [task], and none otherwise.  The test reads the
    prior snapshot only: the same event delivered again in [results]
    publishes the same record a second time when the first delivery
    published it, and none when it did not. *)
Theorem C2_report_guard_reads_snapshot :
  forall (decode : string -> string) (w : Window) (b : bool)
         (data : list string) (st : State),
    rendered st ->
    attached st ->
    viewState st = Some "task" ->
    returned (exec decode w (Answered b data) st) = true /\
    viewState (stateOf (exec decode w (Answered b data) st)) = Some "results" /\
    published (trace (stateOf (exec decode w (Answered b data) st))) =
      published (trace st) ++
      (if snapshotPermitsReport (previousState st)
       then [outcomeRecord (params st) (answeredScore st data) (hd_error data)]
       else []) /\
    returned (exec decode w (Answered b data)
                (stateOf (exec decode w (Answered b data) st))) = true /\
    viewState (stateOf (exec decode w (Answered b data)
                (stateOf (exec decode w (Answered b data) st)))) = Some "results" /\
    published (trace (stateOf (exec decode w (Answered b data)
                (stateOf (exec decode w (Answered b data) st))))) =
      published (trace st) ++
      (if snapshotPermitsReport (previousState st)
       then [outcomeRecord (params st) (answeredScore st data) (hd_error data);
             outcomeRecord (params st) (answeredScore st data) (hd_error data)]
       else []).
Proof.
  intros decode w b data st Hr Ha _.
  rewrite (exec_answered decode w b data st Hr Ha). cbn [stateOf returned].
  set (s0 := set_trace (trace st ++ [StoreTrigger (answeredEvent b) (Some data)]) st).
  assert (Hr1 : rendered (answered decode data s0)) by exact Hr.
  assert (Ha1 : attached (answered decode data s0)) by exact Ha.
  rewrite (exec_answered decode w b data _ Hr1 Ha1). cbn [stateOf returned].
  set (s1 := set_trace (trace (answered decode data s0) ++
                        [StoreTrigger (answeredEvent b) (Some data)])
               (answered decode data s0)).
  assert (H1 : published (trace (answered decode data s0)) =
               published (trace st) ++
               (if snapshotPermitsReport (previousState st)
                then [outcomeRecord (params st) (answeredScore st data) (hd_error data)]
                else [])).
  { rewrite published_answered. unfold s0. cbn [trace set_trace].
    rewrite published_app. cbn. rewrite app_nil_r. reflexivity. }
  repeat split; try reflexivity; try exact H1.
  rewrite published_answered.
  change (previousState s1) with (previousState st).
  change (params s1) with (params st).
  change (answeredScore s1 data) with (answeredScore st data).
  change (trace s1) with (trace (answered decode data s0) ++
                          [StoreTrigger (answeredEvent b) (Some data)]).
  rewrite published_app, H1. cbn [published]. rewrite app_nil_r.
  destruct (snapshotPermitsReport (previousState st));
    rewrite <- app_assoc; reflexivity.
Qed.

Lemma C2_report_guard_reads_snapshot_witness :
  published (trace Scenario.answeredTwice) =
  [outcomeRecord Scenario.paris 1 (Some "paris");
   outcomeRecord Scenario.paris 1 (Some "paris")].
Proof.
  assert (Hr : rendered Scenario.fresh) by (split; [reflexivity | discriminate]).
  assert (Ha : attached Scenario.fresh) by (vm_compute; discriminate).
  exact (proj2 (proj2 (proj2 (proj2 (proj2
    (C2_report_guard_reads_snapshot Scenario.plain Scenario.noRecorder true
       ["paris"] Scenario.fresh Hr Ha eq_refl)))))).
Defined.

(** C3, as stated, fails: a controller that was constructed and not yet
    registered has a detached wrapper; after [setViewState("results")]
    its view state is [results], and reset throws a [TypeError] at
    [questionWrapper.parentNode.classList] before it resets anything, so
    the view state stays [results] and [getCurrentState] returns it. *)
Lemma C3_reset_before_registration_throws :
  reachable Scenario.plain Scenario.noRecorder Scenario.paris None
    Cases.unregisteredInResults /\
  viewState Cases.unregisteredInResults = Some "results" /\
  exec Scenario.plain Scenario.noRecorder ResetTask Cases.unregisteredInResults =
    Throw Js.TypeError Cases.unregisteredInResults /\
  getCurrentState
    (stateOf (exec Scenario.plain Scenario.noRecorder ResetTask
                Cases.unregisteredInResults)) =
    Return (Snapshot.mk None (Some "results") (Some []))
      Cases.unregisteredInResults.
Proof.
  split.
  - unfold Cases.unregisteredInResults, Cases.unregistered.
    apply reachable_step, reachable_new.
  - vm_compute. repeat split; reflexivity.
Qed.

(** C3, amended.  In every reachable state of a session (recognition
    engine present) whose content wrapper has been handed to the host,
    reset returns normally and leaves view state [task], score 0, the
    has-answered flag false and an empty list of last interpretations, so
    that [getCurrentState] then yields
    [{viewState: "task", lastInterpretations: []}].  While the wrapper is
    still detached, reset throws a [TypeError] and changes nothing. *)
Theorem C3_reset_returns_to_task :
  forall (decode : string -> string) (w : Window) (p : Params)
         (extras : option Extras) (st : State),
    annyang w = true ->
    reachable decode w p extras st ->
    (attached st ->
     returned (exec decode w ResetTask st) = true /\
     viewState (stateOf (exec decode w ResetTask st)) = Some "task" /\
     score (stateOf (exec decode w ResetTask st)) = 0 /\
     hasAnswered (stateOf (exec decode w ResetTask st)) = false /\
     lastInterpretations (stateOf (exec decode w ResetTask st)) = Some [] /\
     getCurrentState (stateOf (exec decode w ResetTask st)) =
       Return (Snapshot.mk None (Some "task") (Some []))
              (stateOf (exec decode w ResetTask st))) /\
    (placement st = Detached ->
     exec decode w ResetTask st = Throw Js.TypeError st).
Proof.
  intros decode w p extras st Ha Hreach.
  pose proof (reachable_rendered decode w p extras st Ha Hreach) as Hr.
  split.
  - intros Hat. cbn [exec]. rewrite (resetTask_eq decode st Hr Hat).
    cbn [returned stateOf]. repeat split; reflexivity.
  - intros Hd. cbn [exec]. destruct Hr as [Hq _].
    unfold resetTask, wrapperParent, bind, gets, throw.
    rewrite Hq, Hd. reflexivity.
Qed.

Lemma C3_reset_returns_to_task_witness :
  viewState Scenario.answeredOnce = Some "results" /\
  score Scenario.answeredOnce = 1 /\
  getCurrentState
    (stateOf (exec Scenario.plain Scenario.noRecorder ResetTask Scenario.answeredOnce)) =
  Return (Snapshot.mk None (Some "task") (Some []))
    (stateOf (exec Scenario.plain Scenario.noRecorder ResetTask Scenario.answeredOnce)).
Proof.
  split; [reflexivity | split; [reflexivity |]].
  assert (R : reachable Scenario.plain Scenario.noRecorder Scenario.paris None
                Scenario.answeredOnce).
  { unfold Scenario.answeredOnce, Scenario.fresh.
    apply reachable_step, reachable_step, reachable_new. }
  apply (proj1 (C3_reset_returns_to_task Scenario.plain Scenario.noRecorder
                  Scenario.paris None Scenario.answeredOnce eq_refl R)).
  vm_compute. discriminate.
Defined.

(** C4, as stated, fails: in a new session, whose view state is [task],
    the show-solution command returns normally and the view state becomes
    [solutions]. *)
Lemma C4_show_solution_from_task :
  viewState Scenario.fresh = Some "task" /\
  returned (exec Scenario.plain Scenario.noRecorder ShowSolutions Scenario.fresh) = true /\
  viewState (stateOf (exec Scenario.plain Scenario.noRecorder ShowSolutions
                        Scenario.fresh)) = Some "solutions".
Proof. vm_compute. repeat split; reflexivity. Qed.

(** C4, amended.  The show-solution command has no view-state guard: on
    every session (recognition engine present) whose content wrapper has
    been handed to the host it returns normally and sets the view state
    to [solutions], whatever the view state was, [task] included.  The
    control that issues it is shown only by an outcome evaluated as
    incorrect, which leaves the session in [results]; an outcome
    evaluated as correct hides it. *)
Theorem C4_show_solution_is_unguarded :
  forall (decode : string -> string) (w : Window) (st : State),
    rendered st ->
    attached st ->
    returned (exec decode w ShowSolutions st) = true /\
    viewState (stateOf (exec decode w ShowSolutions st)) = Some "solutions" /\
    forall (b : bool) (data : list string),
      viewState (stateOf (exec decode w (Answered b data) st)) = Some "results" /\
      buttonVisible "show-solution"
        (trace (stateOf (exec decode w (Answered b data) st))) =
      negb (isAccepted (acceptedAnswers (params st)) (hd_error data)).
Proof.
  intros decode w st Hr Ha. cbn [exec].
  rewrite (showSolutions_eq decode st Hr Ha). cbn [returned stateOf].
  split; [reflexivity | split; [reflexivity |]].
  intros b data.
  change (storeTrigger decode (if b then "answered-correctly" else "answered-wrong")
            (Some data) st)
    with (exec decode w (Answered b data) st).
  rewrite (exec_answered decode w b data st Hr Ha). cbn [stateOf].
  split; [reflexivity |].
  rewrite buttons_answered by (right; reflexivity). reflexivity.
Qed.

Lemma C4_show_solution_is_unguarded_witness :
  viewState Scenario.fresh = Some "task" /\
  viewState (stateOf (exec Scenario.plain Scenario.noRecorder ShowSolutions
                        Scenario.fresh)) = Some "solutions".
Proof.
  split; [reflexivity |].
  assert (Hr : rendered Scenario.fresh) by (split; [reflexivity | discriminate]).
  assert (Ha : attached Scenario.fresh) by (vm_compute; discriminate).
  exact (proj1 (proj2 (C4_show_solution_is_unguarded Scenario.plain
                         Scenario.noRecorder Scenario.fresh Hr Ha))).
Defined.

(** C5.  A request to change the view state to a name outside
    [task], [results], [solutions] is ignored: it returns normally and
    leaves the whole controller, its view state included, as it was.
    Hence a legal view state stays legal through every operation, and
    every reachable state of a session started without snapshot, or from
    a snapshot of the persisted shape, has a legal view state. *)
Theorem C5_invalid_view_state_is_ignored :
  (forall (decode : string -> string) (w : Window) (s : string) (st : State),
      ~ In s VIEW_STATES ->
      exec decode w (SetViewState s) st = Return tt st) /\
  (forall (decode : string -> string) (w : Window) (c : Command) (st : State),
      legalViewState (viewState st) ->
      legalViewState (viewState (stateOf (exec decode w c st)))) /\
  (forall (decode : string -> string) (w : Window) (p : Params)
          (extras : option Extras) (st : State),
      Snapshot.vieState (previousStateOf extras) = None ->
      reachable decode w p extras st ->
      legalViewState (viewState st)).
Proof.
  split; [| split].
  - intros decode w s st Hs. cbn [exec]. rewrite setViewState_spec.
    destruct (Js.indexOf VIEW_STATES (Some s) =? -1) eqn:E; [reflexivity |].
    exfalso. apply Hs. apply setViewState_legal_name. exact E.
  - intros decode w c st H.
    exact (proj1 (proj2 (maintains_exec decode w c st)) H).
  - intros decode w p extras st Hv H.
    exact (reachable_legalViewState decode w p extras st Hv H).
Qed.

Lemma C5_invalid_view_state_is_ignored_witness :
  exec Scenario.plain Scenario.noRecorder (SetViewState "paused")
    Scenario.answeredOnce = Return tt Scenario.answeredOnce /\
  legalViewState
    (viewState (stateOf (exec Scenario.plain Scenario.noRecorder
                           (SetViewState "paused") Scenario.answeredOnce))).
Proof.
  split.
  - apply (proj1 C5_invalid_view_state_is_ignored).
    simpl. intros [H|[H|[H|[]]]]; discriminate H.
  - apply (proj1 (proj2 C5_invalid_view_state_is_ignored)).
    right; left; reflexivity.
Defined.

(** C6.  Initialisation from a snapshot
    [{viewState: "solutions", lastInterpretations: L}] with [L] not empty
    (on a platform with the recognition engine, where the capture request
    of registration can be issued): registration returns normally, the
    evaluation of the first interpretation is replayed (score, answered
    flag, last interpretations), the UI is told to show the solution, the
    show-solution control is hidden and the view state is [solutions],
    and no Interaction Outcome Record is published.  The section that
    holds the wrapper is not in the page during registration, so the
    restore makes no class-list update on [parentNode.parentNode]. *)
Theorem C6_restore_solutions_snapshot :
  forall (decode : string -> string) (w : Window) (p : Params)
         (x : string) (l : list string),
    annyang w = true ->
    captureRequestable w ->
    returned (exec decode w RegisterDomElements
                (construct decode w p (snapshotOf "solutions" (x :: l)))) = true /\
    viewState (stateOf (exec decode w RegisterDomElements
                (construct decode w p (snapshotOf "solutions" (x :: l))))) =
      Some "solutions" /\
    published (trace (stateOf (exec decode w RegisterDomElements
                (construct decode w p (snapshotOf "solutions" (x :: l)))))) = [] /\
    score (stateOf (exec decode w RegisterDomElements
                (construct decode w p (snapshotOf "solutions" (x :: l))))) =
      (if isAccepted (map decode (acceptedAnswers p)) (Some x) then 1 else 0) /\
    hasAnswered (stateOf (exec decode w RegisterDomElements
                (construct decode w p (snapshotOf "solutions" (x :: l))))) = true /\
    lastInterpretations (stateOf (exec decode w RegisterDomElements
                (construct decode w p (snapshotOf "solutions" (x :: l))))) =
      Some (x :: l) /\
    In (StoreTrigger "show-solution" None)
       (trace (stateOf (exec decode w RegisterDomElements
                (construct decode w p (snapshotOf "solutions" (x :: l)))))) /\
    In (HideButton "show-solution")
       (trace (stateOf (exec decode w RegisterDomElements
                (construct decode w p (snapshotOf "solutions" (x :: l)))))) /\
    filter onPageNode
       (trace (stateOf (exec decode w RegisterDomElements
                (construct decode w p (snapshotOf "solutions" (x :: l)))))) = [].
Proof.
  intros decode w p x l Ha Hc. cbn [exec].
  pose proof (registerDomElements_replays decode w "solutions" x l
                (construct decode w p (snapshotOf "solutions" (x :: l)))
                Ha Hc (construct_rendered decode w p _ Ha)
                (construct_previousState decode w p _)
                (or_intror eq_refl)) as H.
  rewrite construct_publishes_nothing, construct_params,
    construct_touches_no_page_node in H.
  destruct H as (H1 & H2 & H3 & H4 & H5 & H6 & H7 & H10).
  destruct (H7 eq_refl) as [H8 H9].
  repeat split; assumption.
Qed.

Lemma C6_restore_solutions_snapshot_witness :
  viewState (stateOf (exec Scenario.plain Scenario.webm RegisterDomElements
               (construct Scenario.plain Scenario.webm Scenario.paris
                  (snapshotOf "solutions" ["paris"])))) = Some "solutions" /\
  published (trace (stateOf (exec Scenario.plain Scenario.webm RegisterDomElements
               (construct Scenario.plain Scenario.webm Scenario.paris
                  (snapshotOf "solutions" ["paris"]))))) = [].
Proof.
  assert (Hc : captureRequestable Scenario.webm) by (right; reflexivity).
  pose proof (C6_restore_solutions_snapshot Scenario.plain Scenario.webm
                Scenario.paris "paris" [] eq_refl Hc) as H.
  exact (conj (proj1 (proj2 H)) (proj1 (proj2 (proj2 H)))).
Defined.

(** C7.  Encoding negotiation is a function of the recorder capabilities
    alone.  Without a recorder API it yields no encoding; with a recorder
    API that cannot be asked about codec support it yields [audio/mp4];
    otherwise it yields [audio/webm] when that is supported, else
    [audio/mp4] when that is supported, else no encoding.  Registration
    stores its result, and when there is no encoding no capture request
    is ever issued and no recorder ever exists, in any reachable state. *)
Theorem C7_encoding_negotiation :
  forall (w : Window),
    (MediaRecorder w = None -> getRecordingMIMEType w = None) /\
    (forall api,
        MediaRecorder w = Some api -> isTypeSupported api = None ->
        getRecordingMIMEType w = Some "audio/mp4") /\
    (forall api supported,
        MediaRecorder w = Some api -> isTypeSupported api = Some supported ->
        getRecordingMIMEType w =
          if supported "audio/webm" then Some "audio/webm"
          else if supported "audio/mp4" then Some "audio/mp4"
          else None) /\
    (forall w', MediaRecorder w' = MediaRecorder w ->
                getRecordingMIMEType w' = getRecordingMIMEType w) /\
    (forall (decode : string -> string) (st : State),
        annyang w = true ->
        mediaMIMEType (stateOf (exec decode w RegisterDomElements st)) =
          getRecordingMIMEType w) /\
    (forall (decode : string -> string) (p : Params) (extras : option Extras)
            (st : State),
        getRecordingMIMEType w = None ->
        reachable decode w p extras st ->
        mediaRecorder st = None /\ pendingUserMedia st = 0%nat).
Proof.
  intros w. unfold getRecordingMIMEType.
  split; [| split; [| split; [| split; [| split]]]].
  - intros H. rewrite H. reflexivity.
  - intros api H1 H2. rewrite H1, H2. reflexivity.
  - intros api f H1 H2. rewrite H1, H2. reflexivity.
  - intros w' H. rewrite H. reflexivity.
  - intros decode st Ha. exact (registerDomElements_negotiates decode w st Ha).
  - intros decode p extras st Hm Hreach.
    exact (reachable_captureOff decode w p extras st Hm Hreach).
Qed.

Lemma C7_encoding_negotiation_witness :
  getRecordingMIMEType Scenario.noRecorder = None /\
  getRecordingMIMEType Scenario.webm = Some "audio/webm" /\
  getRecordingMIMEType Scenario.appleLegacy = Some "audio/mp4" /\
  getRecordingMIMEType Scenario.appleMp4 = Some "audio/mp4" /\
  mediaRecorder Scenario.answeredOnce = None.
Proof.
  split; [| split; [| split; [| split]]].
  - exact (proj1 (C7_encoding_negotiation Scenario.noRecorder) eq_refl).
  - exact (proj1 (proj2 (proj2 (C7_encoding_negotiation Scenario.webm)))
             _ _ eq_refl eq_refl).
  - exact (proj1 (proj2 (C7_encoding_negotiation Scenario.appleLegacy))
             _ eq_refl eq_refl).
  - exact (proj1 (proj2 (proj2 (C7_encoding_negotiation Scenario.appleMp4)))
             _ _ eq_refl eq_refl).
  - refine (proj1 (proj2 (proj2 (proj2 (proj2 (proj2
             (C7_encoding_negotiation Scenario.noRecorder)))))
             Scenario.plain Scenario.paris None Scenario.answeredOnce eq_refl _)).
    unfold Scenario.answeredOnce, Scenario.fresh.
    apply reachable_step, reachable_step, reachable_new.
Defined.

(** C8 fails on the second copy of the class.  In a browser without
    recorder API the recorder stays absent after registration; an outcome
    event then makes that copy's [handleAnswered] throw a [TypeError]
    before any evaluation (score and answered flag keep their initial
    values), whereas the class in [speak-the-words.js], on the same
    input, returns normally with the answer scored. *)
Theorem C8_second_copy_throws_without_recorder :
  Part000.mediaRecorder Scenario.fresh000 = None /\
  Part000.handleAnswered Scenario.plain ["paris"] Scenario.fresh000 =
    Throw Js.TypeError Scenario.fresh000 /\
  Part000.score Scenario.fresh000 = 0 /\
  Part000.hasAnswered Scenario.fresh000 = false /\
  published (Part000.trace Scenario.fresh000) = [] /\
  mediaRecorder Scenario.fresh = None /\
  returned (exec Scenario.plain Scenario.noRecorder (Answered true ["paris"])
              Scenario.fresh) = true /\
  score Scenario.answeredOnce = 1 /\
  hasAnswered Scenario.answeredOnce = true.
Proof. vm_compute. repeat split; reflexivity. Qed.

(** C9.  With accepted answers [["paris"]], on any session whose content
    wrapper has been handed to the host: the
    candidates [["paris"; "pari"]] evaluate as correct, the score becomes
    1 and the retry and show-solution controls are hidden; the candidates
    [["london"]] evaluate as incorrect, the score becomes 0 and both
    controls are shown. *)
Theorem C9_paris_scenarios :
  forall (decode : string -> string) (w : Window) (b : bool) (st : State),
    rendered st ->
    attached st ->
    acceptedAnswers (params st) = ["paris"] ->
    (isAccepted (acceptedAnswers (params st)) (hd_error ["paris"; "pari"]) = true /\
     score (stateOf (exec decode w (Answered b ["paris"; "pari"]) st)) = 1 /\
     In (HideButton "try-again")
        (trace (stateOf (exec decode w (Answered b ["paris"; "pari"]) st))) /\
     In (HideButton "show-solution")
        (trace (stateOf (exec decode w (Answered b ["paris"; "pari"]) st))) /\
     buttonVisible "try-again"
        (trace (stateOf (exec decode w (Answered b ["paris"; "pari"]) st))) = false /\
     buttonVisible "show-solution"
        (trace (stateOf (exec decode w (Answered b ["paris"; "pari"]) st))) = false) /\
    (isAccepted (acceptedAnswers (params st)) (hd_error ["london"]) = false /\
     score (stateOf (exec decode w (Answered b ["london"]) st)) = 0 /\
     In (ShowButton "try-again")
        (trace (stateOf (exec decode w (Answered b ["london"]) st))) /\
     In (ShowButton "show-solution")
        (trace (stateOf (exec decode w (Answered b ["london"]) st))) /\
     buttonVisible "try-again"
        (trace (stateOf (exec decode w (Answered b ["london"]) st))) = true /\
     buttonVisible "show-solution"
        (trace (stateOf (exec decode w (Answered b ["london"]) st))) = true).
Proof.
  intros decode w b st Hr Ha Hp.
  assert (E1 : isAccepted (acceptedAnswers (params st))
                 (hd_error ["paris"; "pari"]) = true)
    by (rewrite Hp; reflexivity).
  assert (E2 : isAccepted (acceptedAnswers (params st))
                 (hd_error ["london"]) = false)
    by (rewrite Hp; reflexivity).
  rewrite !(exec_answered decode w b _ st Hr Ha). cbn [stateOf].
  split.
  - pose proof (calls_answered decode ["paris"; "pari"]
                  (set_trace (trace st ++
                     [StoreTrigger (answeredEvent b) (Some ["paris"; "pari"])]) st)) as Hc.
    rewrite !buttons_answered by auto.
    cbn [score answered]. unfold answeredScore.
    cbn [params set_trace] in *. rewrite E1 in *.
    destruct Hc as [Hc1 Hc2]. repeat split; try reflexivity; assumption.
  - pose proof (calls_answered decode ["london"]
                  (set_trace (trace st ++
                     [StoreTrigger (answeredEvent b) (Some ["london"])]) st)) as Hc.
    rewrite !buttons_answered by auto.
    cbn [score answered]. unfold answeredScore.
    cbn [params set_trace] in *. rewrite E2 in *.
    destruct Hc as [Hc1 Hc2]. repeat split; try reflexivity; assumption.
Qed.

Lemma C9_paris_scenarios_witness :
  score (stateOf (exec Scenario.plain Scenario.noRecorder
                    (Answered true ["paris"; "pari"]) Scenario.fresh)) = 1 /\
  score (stateOf (exec Scenario.plain Scenario.noRecorder
                    (Answered false ["london"]) Scenario.fresh)) = 0.
Proof.
  assert (Hr : rendered Scenario.fresh) by (split; [reflexivity | discriminate]).
  assert (Ha : attached Scenario.fresh) by (vm_compute; discriminate).
  split.
  - exact (proj1 (proj2 (proj1
      (C9_paris_scenarios Scenario.plain Scenario.noRecorder true
         Scenario.fresh Hr Ha eq_refl)))).
  - exact (proj1 (proj2 (proj2
      (C9_paris_scenarios Scenario.plain Scenario.noRecorder false
         Scenario.fresh Hr Ha eq_refl)))).
Defined.

(** C10.  Immediately after construction the view state is [task]: the
    constructor reads the snapshot's key [vieState], and for every input
    whose snapshot lacks that key (no snapshot at all, or any snapshot
    written by [getCurrentState], whatever view state it records) the
    default [task] is taken.  A recorded view state [results] or
    [solutions] takes effect only at registration, through the replay. *)
Theorem C10_constructor_starts_in_task :
  forall (decode : string -> string) (w : Window) (p : Params),
    (forall (extras : option Extras),
        Snapshot.vieState (previousStateOf extras) = None ->
        viewState (construct decode w p extras) = Some "task") /\
    (forall (st0 st1 : State) (snap : Snapshot.t),
        getCurrentState st0 = Return snap st1 ->
        viewState (construct decode w p (Some (mkExtras (Some snap)))) = Some "task") /\
    (forall (vs x : string) (l : list string),
        annyang w = true ->
        captureRequestable w ->
        vs = "results" \/ vs = "solutions" ->
        viewState (construct decode w p (snapshotOf vs (x :: l))) = Some "task" /\
        viewState (stateOf (exec decode w RegisterDomElements
                     (construct decode w p (snapshotOf vs (x :: l))))) = Some vs).
Proof.
  intros decode w p. split; [| split].
  - intros extras Hv. exact (construct_viewState decode w p extras Hv).
  - intros st0 st1 snap H. apply construct_viewState.
    unfold getCurrentState, bind, gets, ret in H.
    injection H as <- _. reflexivity.
  - intros vs x l Ha Hc Hvs. split.
    + apply construct_viewState. reflexivity.
    + cbn [exec].
      exact (proj1 (proj2
        (registerDomElements_replays decode w vs x l
           (construct decode w p (snapshotOf vs (x :: l)))
           Ha Hc (construct_rendered decode w p _ Ha)
           (construct_previousState decode w p _) Hvs))).
Qed.

Lemma C10_constructor_starts_in_task_witness :
  viewState (construct Scenario.plain Scenario.noRecorder Scenario.paris
               (Some (mkExtras (Some Scenario.solved)))) = Some "task" /\
  viewState (construct Scenario.plain Scenario.noRecorder Scenario.paris
               (snapshotOf "results" ["paris"])) = Some "task" /\
  viewState (stateOf (exec Scenario.plain Scenario.noRecorder RegisterDomElements
               (construct Scenario.plain Scenario.noRecorder Scenario.paris
                  (snapshotOf "results" ["paris"])))) = Some "results".
Proof.
  assert (Hc : captureRequestable Scenario.noRecorder) by (left; reflexivity).
  split.
  - exact (proj1 (C10_constructor_starts_in_task Scenario.plain
                    Scenario.noRecorder Scenario.paris)
             (Some (mkExtras (Some Scenario.solved))) eq_refl).
  - exact (proj2 (proj2 (C10_constructor_starts_in_task Scenario.plain
                           Scenario.noRecorder Scenario.paris))
             "results" "paris" [] eq_refl Hc (or_introl eq_refl)).
Defined.


(** * Further properties *)

(** ** The methods in every case *)

Ltac close_state :=
  subst; apply State_ext; cbn;
  repeat match goal with
         | H : ?f ?a = _ |- context [?f ?a] => rewrite H
         end;
  cbn; rewrite <- ?app_assoc; rewrite ?app_nil_r; reflexivity.

Section EveryCase.

Variable decode : string -> string.

Lemma parentReadable_true (st : State) :
  parentReadable st = true <-> questionWrapper st = true /\ attached st.
Proof.
  unfold parentReadable, attached.
  destruct (questionWrapper st); destruct (placement st); cbn;
    intuition congruence.
Qed.

Lemma handleAnswered_full (data : option (list string)) (st : State) :
  handleAnswered decode data st =
  if parentReadable st then
    match data with
    | Some d => Return tt (answered decode d st)
    | None =>
        Throw Js.TypeError
          (haltedAnswer
             ([ClassListAdd WrapperParent "empty"]
              ++ onGrandParent st (ClassListAdd WrapperGrandParent "answered"))
             st)
    end
  else Throw Js.TypeError (haltedAnswer [] st).
Proof.
  destruct (parentReadable st) eqn:Hp.
  - apply parentReadable_true in Hp. destruct Hp as [Hq Ha].
    destruct data as [d|]; [exact (handleAnswered_eq decode d st Hq Ha) |].
    unfold attached in Ha.
    run; try discriminate; try congruence;
      try (match goal with r : RecorderState |- _ => destruct r end;
           try discriminate);
      unfold haltedAnswer, stopEffects, onGrandParent, inPage;
      apply (f_equal (Throw Js.TypeError));
      close_state.
  - unfold parentReadable in Hp.
    run; try discriminate;
      try (match goal with r : RecorderState |- _ => destruct r end;
           try discriminate);
      unfold haltedAnswer, stopEffects; apply (f_equal (Throw Js.TypeError));
      close_state.
Qed.

Lemma resetTask_full (st : State) :
  resetTask decode st =
  if parentReadable st then
    match speechEventStore st with
    | Some _ => Return tt (taskReset st)
    | None => Throw Js.TypeError (haltedReset st)
    end
  else Throw Js.TypeError st.
Proof.
  destruct (parentReadable st) eqn:Hp.
  - apply parentReadable_true in Hp. destruct Hp as [Hq Ha].
    destruct (speechEventStore st) as [store|] eqn:Hs.
    + apply resetTask_eq; [split; congruence | exact Ha].
    + unfold attached in Ha.
      run; try discriminate; try congruence;
        unfold haltedReset, onGrandParent, inPage;
        apply (f_equal (Throw Js.TypeError)); close_state.
  - unfold parentReadable in Hp. run; try discriminate; reflexivity.
Qed.

Lemma showSolutions_full (st : State) :
  showSolutions decode st =
  if parentReadable st then
    match speechEventStore st with
    | Some _ => Return tt (solutionsShown st)
    | None => Throw Js.TypeError (haltedSolutions st)
    end
  else Throw Js.TypeError st.
Proof.
  destruct (parentReadable st) eqn:Hp.
  - apply parentReadable_true in Hp. destruct Hp as [Hq Ha].
    destruct (speechEventStore st) as [store|] eqn:Hs.
    + apply showSolutions_eq; [split; congruence | exact Ha].
    + unfold attached in Ha.
      run; try discriminate; try congruence;
        unfold haltedSolutions, onGrandParent, inPage;
        apply (f_equal (Throw Js.TypeError)); close_state.
  - unfold parentReadable in Hp. run; try discriminate; reflexivity.
Qed.

Lemma exec_answered_detached (w : Window) (b : bool) (d : list string)
  (st : State) :
  rendered st ->
  placement st = Detached ->
  exec decode w (Answered b d) st =
  Throw Js.TypeError
    (haltedAnswer []
       (set_trace (trace st ++ [StoreTrigger (answeredEvent b) (Some d)]) st)).
Proof.
  intros [Hq Hs] Hd. cbn [exec]. unfold storeTrigger.
  destruct (speechEventStore st) as [store|] eqn:Hst; [| congruence].
  rewrite (bind_Return _ _ st st (Some store)) by (unfold gets; rewrite Hst; reflexivity).
  erewrite bind_Return by reflexivity.
  assert (Hp : parentReadable
                 (set_trace (trace st ++ [StoreTrigger (answeredEvent b) (Some d)]) st)
               = false).
  { unfold parentReadable. cbn. rewrite Hd. apply andb_false_r. }
  destruct b; cbn [answeredEvent String.eqb Ascii.eqb Bool.eqb orb];
    rewrite handleAnswered_full; cbn [answeredEvent] in Hp; rewrite Hp;
    reflexivity.
Qed.

Lemma resetTask_detached (st : State) :
  placement st = Detached -> resetTask decode st = Throw Js.TypeError st.
Proof.
  intros Hd. rewrite resetTask_full. unfold parentReadable.
  rewrite Hd, andb_false_r. reflexivity.
Qed.

Lemma showSolutions_detached (st : State) :
  placement st = Detached -> showSolutions decode st = Throw Js.TypeError st.
Proof.
  intros Hd. rewrite showSolutions_full. unfold parentReadable.
  rewrite Hd, andb_false_r. reflexivity.
Qed.

End EveryCase.


(** ** Quiet steps and consistency *)

Lemma quiet_buttons (id : string) (delta : list Effect) (v : bool) :
  forallb quiet delta = true ->
  fold_left (buttonStep id) delta v = true -> v = true.
Proof.
  revert v. induction delta as [|e delta IH]; intros v Hq H; simpl in *.
  - exact H.
  - apply andb_prop in Hq. destruct Hq as [He Hd].
    specialize (IH _ Hd H).
    destruct e; simpl in *; try discriminate; try exact IH;
      destruct (String.eqb id0 id); congruence.
Qed.

Lemma quiet_published (delta : list Effect) :
  forallb quiet delta = true -> published delta = [].
Proof.
  induction delta as [|e delta IH]; simpl; intros H; [reflexivity |].
  apply andb_prop in H. destruct H as [He Hd].
  destruct e; simpl in *; try discriminate; auto.
Qed.

Lemma quietStep_refl (st : State) : quietStep st st.
Proof.
  unfold quietStep. repeat split; try reflexivity.
  exists []. rewrite app_nil_r. split; reflexivity.
Qed.

Lemma quietStep_trans (a b c : State) :
  quietStep a b -> quietStep b c -> quietStep a c.
Proof.
  intros (A1 & A2 & A3 & A4 & d1 & A5 & A6) (B1 & B2 & B3 & B4 & d2 & B5 & B6).
  unfold quietStep. repeat split; try congruence.
  exists (d1 ++ d2). split.
  - rewrite B5, A5, app_assoc. reflexivity.
  - rewrite forallb_app, A6, B6. reflexivity.
Qed.

Lemma keepsSound_refl (st : State) : keepsSound st st.
Proof. split; auto. Qed.

Lemma keepsSound_trans (a b c : State) :
  keepsSound a b -> keepsSound b c -> keepsSound a c.
Proof.
  intros [A1 A2] [B1 B2]. split; [congruence | auto].
Qed.

Lemma quietStep_keepsSound (st st' : State) :
  quietStep st st' -> keepsSound st st'.
Proof.
  intros (Hp & Ha & Hs & Hl & delta & Ht & Hq).
  split; [exact Hp |].
  intros (He & Hc & Hr). unfold sound, evaluated, controlsOnlyAfterWrong, answeredScore in *.
  rewrite Ha, Hs, Hl, Hp, Ht. split; [exact He | split].
  - intros id Hid Hv. apply (Hc id Hid).
    unfold buttonVisible, buttonVisibleFrom in *.
    rewrite fold_left_app in Hv. exact (quiet_buttons id delta _ Hq Hv).
  - rewrite published_app, (quiet_published delta Hq), app_nil_r. exact Hr.
Qed.

(** A state that differs from [st] only in fields outside the quiet
    step relation and by quiet effects. *)
Ltac quiet_goal :=
  unfold quietStep; cbn;
  repeat split; try reflexivity;
  first [ exists []; split; [rewrite app_nil_r; reflexivity | reflexivity]
        | rewrite <- ?app_assoc; eexists; split; reflexivity ].

Section Consistency.

Variable decode : string -> string.
Variable w : Window.

Lemma sound_answered (d : list string) (st : State) :
  sound st -> sound (answered decode d st).
Proof.
  intros (He & Hc & Hr).
  unfold sound, evaluated, controlsOnlyAfterWrong.
  split; [exists d; split; reflexivity | split].
  - intros id Hid Hv.
    rewrite (buttons_answered decode d st id Hid) in Hv.
    change (score (answered decode d st)) with (answeredScore st d).
    unfold answeredScore.
    destruct (isAccepted (acceptedAnswers (params st)) (hd_error d));
      [discriminate Hv | split; reflexivity].
  - rewrite published_answered.
    apply Forall_app. split; [exact Hr |].
    destruct (snapshotPermitsReport (previousState st)); [| constructor].
    constructor; [| constructor].
    unfold recordWellFormed, outcomeRecord, answeredScore. cbn.
    split; [reflexivity |].
    destruct (isAccepted _ _); auto.
Qed.

Lemma sound_taskReset (st : State) : sound st -> sound (taskReset st).
Proof.
  intros (He & Hc & Hr).
  unfold sound, evaluated, controlsOnlyAfterWrong, taskReset, onGrandParent.
  cbn.
  split; [reflexivity | split].
  - intros id Hid Hv. exfalso.
    unfold buttonVisible, buttonVisibleFrom in Hv.
    rewrite fold_left_app in Hv.
    destruct (inPage st); destruct Hid; subst id; discriminate Hv.
  - rewrite published_app. destruct (inPage st); cbn;
      rewrite app_nil_r; exact Hr.
Qed.

Lemma keepsSound_handleAnswered (data : option (list string)) :
  frames keepsSound (handleAnswered decode data).
Proof.
  intros st. rewrite handleAnswered_full.
  destruct (parentReadable st); [destruct data as [d|] |]; cbn [stateOf].
  - split; [reflexivity | apply sound_answered].
  - apply quietStep_keepsSound. unfold haltedAnswer, stopEffects, onGrandParent.
    destruct (mediaRecorder st) as [[]|]; destruct (inPage st); quiet_goal.
  - apply quietStep_keepsSound. unfold haltedAnswer, stopEffects.
    destruct (mediaRecorder st) as [[]|]; quiet_goal.
Qed.

Lemma keepsSound_resetTask : frames keepsSound (resetTask decode).
Proof.
  intros st. rewrite resetTask_full.
  destruct (parentReadable st); [destruct (speechEventStore st) |]; cbn [stateOf].
  - split; [reflexivity | apply sound_taskReset].
  - apply quietStep_keepsSound. unfold haltedReset, onGrandParent.
    destruct (inPage st); quiet_goal.
  - apply keepsSound_refl.
Qed.

Lemma keepsSound_showSolutions : frames keepsSound (showSolutions decode).
Proof.
  intros st. rewrite showSolutions_full.
  destruct (parentReadable st); [destruct (speechEventStore st) |]; cbn [stateOf].
  - apply quietStep_keepsSound. unfold solutionsShown, onGrandParent.
    destruct (inPage st); quiet_goal.
  - apply quietStep_keepsSound. unfold haltedSolutions, onGrandParent.
    destruct (inPage st); quiet_goal.
  - apply keepsSound_refl.
Qed.

Lemma keepsSound_emit (e : Effect) :
  quiet e = true -> frames keepsSound (emit e).
Proof.
  intros He st. apply quietStep_keepsSound. unfold quietStep. cbn.
  repeat split; try reflexivity.
  exists [e]. split; [reflexivity | cbn; rewrite He; reflexivity].
Qed.

Lemma keepsSound_setViewState (s : string) : frames keepsSound (setViewState s).
Proof.
  intros st. rewrite setViewState_spec.
  destruct (Js.indexOf VIEW_STATES (Some s) =? -1); cbn [stateOf].
  - apply keepsSound_refl.
  - apply quietStep_keepsSound. quiet_goal.
Qed.

Lemma keepsSound_onStartListening : frames keepsSound onStartListening.
Proof.
  intros st. apply quietStep_keepsSound. unfold onStartListening.
  run; quiet_goal || apply quietStep_refl.
Qed.

Ltac sound_seq :=
  apply frames_bind; [apply keepsSound_trans | | intros ?].

Ltac sound_leaf :=
  first [ apply keepsSound_emit; reflexivity
        | apply frames_gets, keepsSound_refl
        | apply frames_ret, keepsSound_refl
        | apply frames_throw, keepsSound_refl ].

Lemma keepsSound_storeTrigger (event : string) (data : option (list string)) :
  frames keepsSound (storeTrigger decode event data).
Proof.
  unfold storeTrigger.
  sound_seq; [sound_leaf |].
  match goal with |- frames _ (match ?x with _ => _ end) => destruct x end;
    [| sound_leaf].
  sound_seq; [sound_leaf |].
  destruct (_ || _).
  - apply keepsSound_handleAnswered.
  - destruct (String.eqb _ _).
    + apply frames_repeatM;
        [apply keepsSound_refl | apply keepsSound_trans
        | apply keepsSound_onStartListening].
    + sound_leaf.
Qed.

Lemma keepsSound_recreateState : frames keepsSound (recreateState decode).
Proof.
  unfold recreateState.
  sound_seq; [sound_leaf |].
  destruct (Snapshot.lastInterpretations _); [| sound_leaf].
  sound_seq; [sound_leaf |].
  sound_seq.
  { apply frames_when; [apply keepsSound_refl |].
    destruct (isAccepted _ _); apply keepsSound_storeTrigger. }
  sound_seq; [sound_leaf |].
  sound_seq.
  { apply frames_when; [apply keepsSound_refl | apply keepsSound_showSolutions]. }
  apply keepsSound_storeTrigger.
Qed.

Lemma keepsSound_setContent : frames keepsSound setContent.
Proof.
  intros st. apply quietStep_keepsSound.
  unfold setContent, emit, bind, modify. quiet_goal.
Qed.

Lemma keepsSound_registerDomElements :
  frames keepsSound (registerDomElements decode w).
Proof.
  intros st. destruct (annyang w) eqn:Ha.
  - rewrite (registerDomElements_supported decode w st Ha).
    apply keepsSound_trans with (b := set_mediaMIMEType (getRecordingMIMEType w) st).
    + apply quietStep_keepsSound. unfold quietStep. cbn.
      repeat split; try reflexivity. exists []. rewrite app_nil_r. auto.
    + generalize (set_mediaMIMEType (getRecordingMIMEType w) st).
      change (frames keepsSound (afterNegotiation decode w)).
      unfold afterNegotiation.
      sound_seq.
      { apply frames_when; [apply keepsSound_refl |].
        intros s. apply quietStep_keepsSound. unfold getUserMedia.
        run; quiet_goal || apply quietStep_refl. }
      do 2 (sound_seq; [sound_leaf |]).
      sound_seq; [apply keepsSound_setContent |].
      sound_seq; [sound_leaf |].
      destruct (Snapshot.lastInterpretations _) as [[|x l]|];
        [sound_leaf | apply keepsSound_recreateState | sound_leaf].
  - unfold registerDomElements. rewrite Ha. cbn [negb].
    apply frames_bind; [apply keepsSound_trans | sound_leaf | intros p; sound_leaf].
Qed.

Lemma keepsSound_exec (c : Command) : frames keepsSound (exec decode w c).
Proof.
  destruct c; cbn [exec].
  - apply keepsSound_registerDomElements.
  - apply keepsSound_storeTrigger.
  - apply keepsSound_resetTask.
  - apply keepsSound_showSolutions.
  - apply keepsSound_storeTrigger.
  - apply keepsSound_setViewState.
  - apply keepsSound_storeTrigger.
  - intros st. apply quietStep_keepsSound. run; quiet_goal || apply quietStep_refl.
  - intros st. apply quietStep_keepsSound. run; quiet_goal || apply quietStep_refl.
  - intros st. apply quietStep_keepsSound. run; quiet_goal || apply quietStep_refl.
  - intros st. apply quietStep_keepsSound. run; quiet_goal || apply quietStep_refl.
Qed.

End Consistency.


(** ** Reachable sessions are consistent *)

Section ReachableSound.

Variable decode : string -> string.
Variables (w : Window) (p : Params) (extras : option Extras).

Lemma construct_sound : sound (construct decode w p extras).
Proof.
  unfold construct, constructorBody, bind, modify, gets.
  cbn -[setViewState]. rewrite setViewState_spec.
  destruct (Js.indexOf _ _ =? -1); destruct (annyang w); cbn;
    unfold sound, evaluated, controlsOnlyAfterWrong; cbn;
    (split; [reflexivity | split; [| constructor]]);
    intros id [Hid|Hid] Hv; subst id; discriminate Hv.
Qed.

Lemma reachable_params (st : State) :
  reachable decode w p extras st ->
  params st = params (construct decode w p extras).
Proof.
  intros H. induction H as [|st c _ IH]; [reflexivity |].
  rewrite (proj1 (keepsSound_exec decode w c st)). exact IH.
Qed.

Lemma reachable_sound (st : State) :
  reachable decode w p extras st -> sound st.
Proof.
  intros H. induction H as [|st c _ IH].
  - exact construct_sound.
  - exact (proj2 (keepsSound_exec decode w c st) IH).
Qed.

Lemma reachable_execAll (cs : list Command) (st : State) :
  reachable decode w p extras st ->
  reachable decode w p extras (execAll decode w cs st).
Proof.
  revert st. induction cs as [|c cs IH]; intros st H; simpl.
  - exact H.
  - apply IH. apply reachable_step. exact H.
Qed.

End ReachableSound.

(** X1.  In every reachable state the score is 0 or 1; it is 0 while the
    question is not answered; and once it is answered the last
    interpretations are recorded and the score is 1 exactly when the
    first of them is one of the decoded accepted answers. *)
Theorem X1_score_reflects_last_interpretations :
  forall (decode : string -> string) (w : Window) (p : Params)
         (extras : option Extras) (st : State),
    reachable decode w p extras st ->
    (score st = 0 \/ score st = 1) /\
    (hasAnswered st = false -> score st = 0) /\
    (hasAnswered st = true ->
     exists d, lastInterpretations st = Some d /\
               (score st = 1 <->
                exists r, hd_error d = Some r /\
                          In r (map decode (acceptedAnswers p)))).
Proof.
  intros decode w p extras st H.
  pose proof (reachable_sound decode w p extras st H) as (He & _ & _).
  pose proof (reachable_params decode w p extras st H) as Hp.
  unfold evaluated, answeredScore in He.
  rewrite Hp, construct_params in He.
  destruct (hasAnswered st).
  - destruct He as (d & Hd & Hs).
    split; [| split; [discriminate |]].
    + rewrite Hs. destruct (isAccepted _ _); auto.
    + intros _. exists d. split; [exact Hd |].
      rewrite Hs. destruct (hd_error d) as [r|] eqn:Hr.
      * destruct (isAccepted _ (Some r)) eqn:E.
        -- split; [intros _ | reflexivity].
           exists r. split; [reflexivity | apply isAccepted_In; exact E].
        -- split; [discriminate |].
           intros (r' & Hr' & Hin). injection Hr' as <-.
           apply isAccepted_In in Hin. congruence.
      * cbn. split; [discriminate | intros (r' & Hr' & _); discriminate].
  - split; [left; exact He | split; [intros _; exact He | discriminate]].
Qed.

Lemma X1_score_reflects_last_interpretations_witness :
  score Scenario.answeredOnce = 1 /\
  exists d, lastInterpretations Scenario.answeredOnce = Some d /\
            (score Scenario.answeredOnce = 1 <->
             exists r, hd_error d = Some r /\
                       In r (map Scenario.plain (acceptedAnswers Scenario.paris))).
Proof.
  split; [reflexivity |].
  refine (proj2 (proj2 (X1_score_reflects_last_interpretations Scenario.plain
            Scenario.noRecorder Scenario.paris None Scenario.answeredOnce _)) eq_refl).
  unfold Scenario.answeredOnce, Scenario.fresh.
  apply reachable_step, reachable_step, reachable_new.
Defined.

(** X2.  In every reachable state, the retry control or the show-solution
    control is visible only while the question is answered with score 0:
    the controls are offered after an incorrect answer and at no other
    time. *)
Theorem X2_controls_only_after_incorrect_answer :
  forall (decode : string -> string) (w : Window) (p : Params)
         (extras : option Extras) (st : State) (id : string),
    reachable decode w p extras st ->
    id = "try-again" \/ id = "show-solution" ->
    buttonVisible id (trace st) = true ->
    hasAnswered st = true /\ score st = 0.
Proof.
  intros decode w p extras st id H Hid Hv.
  pose proof (reachable_sound decode w p extras st H) as (_ & Hc & _).
  exact (Hc id Hid Hv).
Qed.

Lemma X2_controls_only_after_incorrect_answer_witness :
  buttonVisible "try-again" (trace Cases.restored) = true /\
  hasAnswered Cases.restored = true /\ score Cases.restored = 0.
Proof.
  split; [reflexivity |].
  refine (X2_controls_only_after_incorrect_answer Scenario.plain
            Scenario.noRecorder Scenario.paris (snapshotOf "results" ["london"])
            Cases.restored "try-again" _ (or_introl eq_refl) eq_refl).
  unfold Cases.restored. apply reachable_step, reachable_new.
Defined.

(** X3.  Every Interaction Outcome Record published in a reachable state
    has the verb [answered], maximum score 1, raw score 0 or 1, success
    exactly when the raw score is 1, completion true, the question text
    as description, interaction type [fill-in] and the decoded accepted
    answers as correct-responses pattern. *)
Theorem X3_published_records_are_well_formed :
  forall (decode : string -> string) (w : Window) (p : Params)
         (extras : option Extras) (st : State) (r : XAPIStatement),
    reachable decode w p extras st ->
    In r (published (trace st)) ->
    verb r = "answered" /\
    maxScore r = 1 /\
    (rawScore r = 0 \/ rawScore r = 1) /\
    success r = (rawScore r =? 1) /\
    completion r = true /\
    description r = question p /\
    interactionType r = "fill-in" /\
    correctResponsesPattern r = map decode (acceptedAnswers p).
Proof.
  intros decode w p extras st r H Hin.
  pose proof (reachable_sound decode w p extras st H) as (_ & _ & Hr).
  pose proof (reachable_params decode w p extras st H) as Hp.
  rewrite Forall_forall in Hr. destruct (Hr r Hin) as [Hw Hs].
  rewrite Hp in Hw.
  rewrite <- (construct_params decode w p extras),
          <- (construct_question decode w p extras).
  rewrite Hw. cbn. repeat split; try reflexivity. exact Hs.
Qed.

Lemma X3_published_records_are_well_formed_witness :
  In (outcomeRecord Scenario.paris 1 (Some "paris"))
     (published (trace Scenario.answeredTwice)) /\
  correctResponsesPattern (outcomeRecord Scenario.paris 1 (Some "paris")) =
    map Scenario.plain (acceptedAnswers Scenario.paris).
Proof.
  assert (Hin : In (outcomeRecord Scenario.paris 1 (Some "paris"))
                   (published (trace Scenario.answeredTwice)))
    by (vm_compute; left; reflexivity).
  split; [exact Hin |].
  assert (Hreach : reachable Scenario.plain Scenario.noRecorder Scenario.paris None
                     Scenario.answeredTwice).
  { unfold Scenario.answeredTwice, Scenario.answeredOnce, Scenario.fresh.
    apply reachable_step, reachable_step, reachable_step, reachable_new. }
  exact (proj2 (proj2 (proj2 (proj2 (proj2 (proj2 (proj2
    (X3_published_records_are_well_formed Scenario.plain
       Scenario.noRecorder Scenario.paris None Scenario.answeredTwice
       _ Hreach Hin)))))))).
Defined.


(** ** Registration and the snapshot *)

Section Registration.

Variable decode : string -> string.
Variable w : Window.

Lemma truthy_negotiated :
  Js.truthy (getRecordingMIMEType w) =
  match getRecordingMIMEType w with Some _ => true | None => false end.
Proof.
  destruct (negotiated_types w) as [H|[H|H]]; rewrite H; reflexivity.
Qed.

Lemma registerDomElements_prefix (st : State) :
  annyang w = true ->
  captureRequestable w ->
  registerDomElements decode w st =
  match Snapshot.lastInterpretations (previousState st) with
  | Some (_ :: _) => recreateState decode
  | _ => ret tt
  end (registered w st).
Proof.
  intros Ha Hc. rewrite (registerDomElements_supported decode w st Ha).
  unfold afterNegotiation.
  assert (Hreq : exists s1,
            when (Js.truthy (getRecordingMIMEType w)) (getUserMedia w)
              (set_mediaMIMEType (getRecordingMIMEType w) st) = Return tt s1 /\
            set_placement InSection
              (set_trace
                 ((trace s1 ++ [SetIntroduction (IntroductionNode (introduction s1))])
                  ++ [SetContent])
                 (set_trace
                    (trace s1 ++ [SetIntroduction (IntroductionNode (introduction s1))])
                    s1)) = registered w st).
  { unfold registered, registrationEffects, getUserMedia.
    rewrite truthy_negotiated.
    destruct (getRecordingMIMEType w) as [m|] eqn:Hm.
    - destruct Hc as [Hc|Hc]; [congruence |]. rewrite Hc.
      eexists. split; [reflexivity |].
      apply State_ext; cbn; rewrite <- ?app_assoc; reflexivity.
    - eexists. split; [reflexivity |].
      apply State_ext; cbn; rewrite <- ?app_assoc; reflexivity. }
  destruct Hreq as (s1 & Hs1 & Hreg).
  rewrite (bind_Return _ _ _ s1 tt Hs1).
  rewrite (bind_Return _ _ s1 s1 (introduction s1)) by reflexivity.
  erewrite bind_Return by reflexivity.
  erewrite bind_Return by reflexivity.
  erewrite bind_Return by reflexivity.
  match goal with
  | |- match _ with _ => _ end ?s' = _ =>
      replace s' with (registered w st) by (rewrite <- Hreg; reflexivity)
  end.
  reflexivity.
Qed.

Lemma registerDomElements_without_mediaDevices (st : State) (m : string) :
  annyang w = true ->
  getRecordingMIMEType w = Some m ->
  mediaDevices w = false ->
  registerDomElements decode w st =
  Throw Js.TypeError (set_mediaMIMEType (Some m) st).
Proof.
  intros Ha Hm Hd. rewrite (registerDomElements_supported decode w st Ha).
  unfold afterNegotiation, getUserMedia.
  rewrite truthy_negotiated, Hm, Hd. reflexivity.
Qed.

Lemma recreateState_without_replay (vie vs : option string) (x : string)
  (l : list string) (st : State) :
  speechEventStore st <> None ->
  previousState st = Snapshot.mk vie vs (Some (x :: l)) ->
  Js.strictEq vs "results" = false ->
  Js.strictEq vs "solutions" = false ->
  recreateState decode st =
  Return tt (set_trace (trace st ++ [StoreTrigger "resize" None]) st).
Proof.
  intros Hs Hps H1 H2. unfold recreateState.
  rewrite (bind_Return _ _ st st (previousState st)) by reflexivity.
  rewrite Hps. cbn [Snapshot.lastInterpretations Snapshot.viewState].
  rewrite (bind_Return _ _ st st (params st)) by reflexivity.
  rewrite H1, H2. cbn [orb when].
  rewrite (bind_Return _ _ st st tt) by reflexivity.
  rewrite (bind_Return _ _ st st (previousState st)) by reflexivity.
  rewrite Hps. cbn [Snapshot.viewState]. rewrite H2. cbn [when].
  rewrite (bind_Return _ _ st st tt) by reflexivity.
  exact (storeTrigger_resize decode st Hs).
Qed.

Lemma getCurrentState_value (st : State) :
  getCurrentState st =
  Return (Snapshot.mk None (viewState st)
            (Some match lastInterpretations st with Some l => l | None => [] end))
         st.
Proof. reflexivity. Qed.

Lemma published_registered (st : State) :
  published (trace (registered w st)) = published (trace st).
Proof.
  unfold registered, registrationEffects. cbn.
  rewrite published_app. destruct (Js.truthy _); cbn; apply app_nil_r.
Qed.

Lemma register_without_replay (vie vs : option string) (x : string)
  (l : list string) (st : State) :
  annyang w = true ->
  captureRequestable w ->
  speechEventStore st <> None ->
  previousState st = Snapshot.mk vie vs (Some (x :: l)) ->
  Js.strictEq vs "results" = false ->
  Js.strictEq vs "solutions" = false ->
  returned (registerDomElements decode w st) = true /\
  viewState (stateOf (registerDomElements decode w st)) = viewState st /\
  hasAnswered (stateOf (registerDomElements decode w st)) = hasAnswered st /\
  score (stateOf (registerDomElements decode w st)) = score st /\
  lastInterpretations (stateOf (registerDomElements decode w st)) =
    lastInterpretations st /\
  published (trace (stateOf (registerDomElements decode w st))) =
    published (trace st) /\
  trace (stateOf (registerDomElements decode w st)) =
    trace st ++ registrationEffects w st ++ [StoreTrigger "resize" None].
Proof.
  intros Ha Hc Hs Hps H1 H2.
  rewrite (registerDomElements_prefix st Ha Hc), Hps.
  cbn [Snapshot.lastInterpretations].
  rewrite (recreateState_without_replay vie vs x l (registered w st) Hs Hps H1 H2).
  cbn [returned stateOf trace set_trace].
  rewrite published_app, published_registered. cbn [published].
  rewrite app_nil_r.
  repeat split; try reflexivity.
  unfold registered. cbn [trace set_trace set_placement].
  rewrite <- app_assoc. reflexivity.
Qed.

Lemma register_without_recreate (vie vs : option string)
  (li : option (list string)) (st : State) :
  annyang w = true ->
  captureRequestable w ->
  previousState st = Snapshot.mk vie vs li ->
  li = None \/ li = Some [] ->
  registerDomElements decode w st = Return tt (registered w st).
Proof.
  intros Ha Hc Hps Hli.
  rewrite (registerDomElements_prefix st Ha Hc), Hps.
  destruct Hli; subst li; reflexivity.
Qed.


End Registration.


Section Construction2.

Variable decode : string -> string.
Variables (w : Window) (p : Params) (extras : option Extras).

(** The constructed controller when the snapshot lacks [vieState] and the
    recognition engine exists. *)
Lemma construct_supported :
  annyang w = true ->
  Snapshot.vieState (previousStateOf extras) = None ->
  hasAnswered (construct decode w p extras) = false /\
  score (construct decode w p extras) = 0 /\
  lastInterpretations (construct decode w p extras) = None /\
  introduction (construct decode w p extras) = Some (decode (question p)) /\
  mediaRecorder (construct decode w p extras) = None /\
  trace (construct decode w p extras) =
    [QuestionTrigger "kllStoreSessionState";
     AddButton "try-again" (decode (retryLabel (l10n p))) false (a11yRetry (l10n p));
     AddButton "show-solution" (decode (showSolutionLabel (l10n p))) false
       (a11yShowSolution (l10n p))].
Proof.
  intros Ha Hv. unfold construct, constructorBody, bind, modify, gets.
  cbn -[setViewState]. rewrite Hv, Ha. cbn. repeat split; reflexivity.
Qed.

End Construction2.


(** X4.  The persisted state round-trips: from any state in view state
    [results] or [solutions] with a non-empty list of last
    interpretations, the snapshot returned by [getCurrentState], given to
    a new controller (recognition engine present, capture request
    issuable), is returned again by [getCurrentState] once that
    controller is registered. *)
Theorem X4_snapshot_round_trip :
  forall (decode : string -> string) (w : Window) (p : Params) (st st1 : State)
         (snap : Snapshot.t) (vs x : string) (l : list string),
    annyang w = true ->
    captureRequestable w ->
    viewState st = Some vs ->
    vs = "results" \/ vs = "solutions" ->
    lastInterpretations st = Some (x :: l) ->
    getCurrentState st = Return snap st1 ->
    returned (exec decode w RegisterDomElements
                (construct decode w p (Some (mkExtras (Some snap))))) = true /\
    getCurrentState
      (stateOf (exec decode w RegisterDomElements
                  (construct decode w p (Some (mkExtras (Some snap)))))) =
    Return snap
      (stateOf (exec decode w RegisterDomElements
                  (construct decode w p (Some (mkExtras (Some snap)))))).
Proof.
  intros decode w p st st1 snap vs x l Ha Hc Hvs Hlegal Hli Hsnap.
  rewrite getCurrentState_value, Hvs, Hli in Hsnap.
  injection Hsnap as <- _.
  cbn [exec].
  destruct (registerDomElements_replays decode w vs x l
              (construct decode w p
                 (Some (mkExtras (Some (Snapshot.mk None (Some vs) (Some (x :: l)))))))
              Ha Hc (construct_rendered decode w p _ Ha)
              (construct_previousState decode w p _) Hlegal)
    as (H1 & H2 & _ & _ & _ & H6 & _).
  split; [exact H1 |].
  rewrite getCurrentState_value, H2, H6. reflexivity.
Qed.

Lemma X4_snapshot_round_trip_witness :
  getCurrentState
    (stateOf (exec Scenario.plain Scenario.webm RegisterDomElements
                (construct Scenario.plain Scenario.webm Scenario.paris
                   (Some (mkExtras (Some
                      (Snapshot.mk None (Some "results") (Some ["paris"])))))))) =
  Return (Snapshot.mk None (Some "results") (Some ["paris"]))
    (stateOf (exec Scenario.plain Scenario.webm RegisterDomElements
                (construct Scenario.plain Scenario.webm Scenario.paris
                   (Some (mkExtras (Some
                      (Snapshot.mk None (Some "results") (Some ["paris"])))))))).
Proof.
  assert (Hc : captureRequestable Scenario.webm) by (right; reflexivity).
  exact (proj2 (X4_snapshot_round_trip Scenario.plain Scenario.webm Scenario.paris
                  Scenario.answeredOnce Scenario.answeredOnce
                  (Snapshot.mk None (Some "results") (Some ["paris"]))
                  "results" "paris" [] eq_refl Hc eq_refl (or_introl eq_refl)
                  eq_refl eq_refl)).
Defined.

(** X5.  A snapshot that holds interpretations but whose view state is
    absent, [task] or any name other than [results] and [solutions] is
    not replayed: registration returns, and all it does after the calls
    of a registration without snapshot is to trigger [resize] on the
    event store, no other store event.  It leaves a new task (view state
    [task], not answered, score 0, nothing published) whose own snapshot
    has no interpretations: the recorded ones are dropped. *)
Theorem X5_task_snapshot_is_not_replayed :
  forall (decode : string -> string) (w : Window) (p : Params)
         (vs : option string) (x : string) (l : list string),
    annyang w = true ->
    captureRequestable w ->
    Js.strictEq vs "results" = false ->
    Js.strictEq vs "solutions" = false ->
    returned (exec decode w RegisterDomElements
                (construct decode w p
                   (Some (mkExtras (Some (Snapshot.mk None vs (Some (x :: l)))))))) = true /\
    viewState (stateOf (exec decode w RegisterDomElements
                (construct decode w p
                   (Some (mkExtras (Some (Snapshot.mk None vs (Some (x :: l))))))))) =
      Some "task" /\
    hasAnswered (stateOf (exec decode w RegisterDomElements
                (construct decode w p
                   (Some (mkExtras (Some (Snapshot.mk None vs (Some (x :: l))))))))) =
      false /\
    score (stateOf (exec decode w RegisterDomElements
                (construct decode w p
                   (Some (mkExtras (Some (Snapshot.mk None vs (Some (x :: l))))))))) = 0 /\
    published (trace (stateOf (exec decode w RegisterDomElements
                (construct decode w p
                   (Some (mkExtras (Some (Snapshot.mk None vs (Some (x :: l)))))))))) =
      [] /\
    trace (stateOf (exec decode w RegisterDomElements
                (construct decode w p
                   (Some (mkExtras (Some (Snapshot.mk None vs (Some (x :: l))))))))) =
      trace (construct decode w p
               (Some (mkExtras (Some (Snapshot.mk None vs (Some (x :: l)))))))
      ++ registrationEffects w
           (construct decode w p
              (Some (mkExtras (Some (Snapshot.mk None vs (Some (x :: l)))))))
      ++ [StoreTrigger "resize" None] /\
    getCurrentState (stateOf (exec decode w RegisterDomElements
                (construct decode w p
                   (Some (mkExtras (Some (Snapshot.mk None vs (Some (x :: l))))))))) =
      Return (Snapshot.mk None (Some "task") (Some []))
        (stateOf (exec decode w RegisterDomElements
                (construct decode w p
                   (Some (mkExtras (Some (Snapshot.mk None vs (Some (x :: l))))))))).
Proof.
  intros decode w p vs x l Ha Hc H1 H2.
  destruct (construct_supported decode w p
              (Some (mkExtras (Some (Snapshot.mk None vs (Some (x :: l))))))
              Ha eq_refl)
    as (Hans & Hsc & Hli & _ & _ & _).
  destruct (register_without_replay decode w None vs x l
              (construct decode w p
                 (Some (mkExtras (Some (Snapshot.mk None vs (Some (x :: l)))))))
              Ha Hc
              (proj2 (construct_rendered decode w p _ Ha))
              (construct_previousState decode w p _) H1 H2)
    as (R1 & R2 & R3 & R4 & R5 & R6 & R7).
  cbn [exec].
  rewrite getCurrentState_value, R2, R3, R4, R5, R6, R7, Hans, Hsc, Hli.
  rewrite construct_publishes_nothing.
  rewrite (construct_viewState decode w p
             (Some (mkExtras (Some (Snapshot.mk None vs (Some (x :: l))))))
             eq_refl).
  repeat split; try reflexivity; assumption.
Qed.

Lemma X5_task_snapshot_is_not_replayed_witness :
  viewState (stateOf (exec Scenario.plain Scenario.noRecorder RegisterDomElements
               (construct Scenario.plain Scenario.noRecorder Scenario.paris
                  (Some (mkExtras (Some
                     (Snapshot.mk None (Some "task") (Some ["paris"])))))))) =
    Some "task" /\
  hasAnswered (stateOf (exec Scenario.plain Scenario.noRecorder RegisterDomElements
               (construct Scenario.plain Scenario.noRecorder Scenario.paris
                  (Some (mkExtras (Some
                     (Snapshot.mk None (Some "task") (Some ["paris"])))))))) = false.
Proof.
  assert (Hc : captureRequestable Scenario.noRecorder) by (left; reflexivity).
  pose proof (X5_task_snapshot_is_not_replayed Scenario.plain Scenario.noRecorder
                Scenario.paris (Some "task") "paris" [] eq_refl Hc eq_refl eq_refl)
    as H.
  exact (conj (proj1 (proj2 H)) (proj1 (proj2 (proj2 H)))).
Defined.




(** X7.  Once the content wrapper has been handed to the host, an
    outcome event that carries no candidate is evaluated as incorrect:
    the response is undefined, the score is 0, both controls are shown,
    the record (when one is published) has no response, and the snapshot
    taken afterwards is [{viewState: "results", lastInterpretations: []}].
    While the wrapper is detached the event throws a [TypeError] before
    anything is evaluated: score, answered flag, last interpretations,
    view state and the records published stay as they were. *)
Theorem X7_outcome_without_candidates :
  forall (decode : string -> string) (w : Window) (b : bool) (st : State),
    rendered st ->
    (attached st ->
     returned (exec decode w (Answered b []) st) = true /\
     score (stateOf (exec decode w (Answered b []) st)) = 0 /\
     hasAnswered (stateOf (exec decode w (Answered b []) st)) = true /\
     buttonVisible "try-again"
       (trace (stateOf (exec decode w (Answered b []) st))) = true /\
     buttonVisible "show-solution"
       (trace (stateOf (exec decode w (Answered b []) st))) = true /\
     published (trace (stateOf (exec decode w (Answered b []) st))) =
       published (trace st) ++
       (if snapshotPermitsReport (previousState st)
        then [outcomeRecord (params st) 0 None] else []) /\
     getCurrentState (stateOf (exec decode w (Answered b []) st)) =
       Return (Snapshot.mk None (Some "results") (Some []))
         (stateOf (exec decode w (Answered b []) st))) /\
    (placement st = Detached ->
     returned (exec decode w (Answered b []) st) = false /\
     score (stateOf (exec decode w (Answered b []) st)) = score st /\
     hasAnswered (stateOf (exec decode w (Answered b []) st)) = hasAnswered st /\
     lastInterpretations (stateOf (exec decode w (Answered b []) st)) =
       lastInterpretations st /\
     viewState (stateOf (exec decode w (Answered b []) st)) = viewState st /\
     published (trace (stateOf (exec decode w (Answered b []) st))) =
       published (trace st)).
Proof.
  intros decode w b st Hr. split.
  - intros Ha.
    rewrite (exec_answered decode w b [] st Hr Ha). cbn [returned stateOf].
    rewrite !buttons_answered by auto.
    rewrite published_answered, getCurrentState_value.
    cbn [trace set_trace previousState params]. rewrite published_app.
    cbn. rewrite app_nil_r. repeat split; reflexivity.
  - intros Hd.
    rewrite (exec_answered_detached decode w b [] st Hr Hd).
    cbn [returned stateOf]. unfold haltedAnswer, stopEffects.
    cbn [score hasAnswered lastInterpretations viewState trace set_trace
           set_mediaRecorder mediaRecorder].
    rewrite !published_app.
    destruct (mediaRecorder st) as [[| |]|]; cbn; rewrite ?app_nil_r;
      repeat split; reflexivity.
Qed.

Lemma X7_outcome_without_candidates_witness :
  score (stateOf (exec Scenario.plain Scenario.noRecorder (Answered false [])
                    Scenario.fresh)) = 0 /\
  published (trace (stateOf (exec Scenario.plain Scenario.noRecorder
                               (Answered false []) Scenario.fresh))) =
    [outcomeRecord Scenario.paris 0 None] /\
  returned (exec Scenario.plain Scenario.noRecorder (Answered false [])
              Cases.unregistered) = false.
Proof.
  assert (Hr : rendered Scenario.fresh) by (split; [reflexivity | discriminate]).
  assert (Ha : attached Scenario.fresh) by (vm_compute; discriminate).
  assert (Hr' : rendered Cases.unregistered)
    by (split; [reflexivity | discriminate]).
  pose proof (proj1 (X7_outcome_without_candidates Scenario.plain
                       Scenario.noRecorder false Scenario.fresh Hr) Ha) as H.
  pose proof (proj2 (X7_outcome_without_candidates Scenario.plain
                       Scenario.noRecorder false Cases.unregistered Hr')
                eq_refl) as H'.
  exact (conj (proj1 (proj2 H))
              (conj (proj1 (proj2 (proj2 (proj2 (proj2 (proj2 H))))))
                    (proj1 H'))).
Defined.

Lemma execAll_nil (decode : string -> string) (w : Window) (st : State) :
  execAll decode w [] st = st.
Proof. reflexivity. Qed.

Lemma execAll_cons (decode : string -> string) (w : Window) (c : Command)
  (cs : list Command) (st : State) :
  execAll decode w (c :: cs) st = execAll decode w cs (stateOf (exec decode w c st)).
Proof. reflexivity. Qed.

Lemma exec_resetTask (decode : string -> string) (w : Window) (st : State) :
  rendered st -> attached st ->
  stateOf (exec decode w ResetTask st) = taskReset st.
Proof.
  intros Hr Ha. change (exec decode w ResetTask st) with (resetTask decode st).
  rewrite (resetTask_eq decode st Hr Ha). reflexivity.
Qed.

Lemma rendered_taskReset (st : State) : rendered st -> rendered (taskReset st).
Proof. intros Hr. exact Hr. Qed.

Lemma attached_taskReset (st : State) : attached st -> attached (taskReset st).
Proof. intros Ha. exact Ha. Qed.

Lemma taskReset_fields (st : State) :
  previousState (taskReset st) = Snapshot.empty /\
  params (taskReset st) = params st /\
  published (trace (taskReset st)) = published (trace st) /\
  buttonVisible "try-again" (trace (taskReset st)) = false /\
  buttonVisible "show-solution" (trace (taskReset st)) = false /\
  (forall data, answeredScore (taskReset st) data = answeredScore st data).
Proof.
  unfold taskReset, onGrandParent, buttonVisible, buttonVisibleFrom. cbn.
  rewrite published_app, !fold_left_app.
  destruct (inPage st); cbn; rewrite app_nil_r; repeat split; reflexivity.
Qed.

Lemma published_delivered (decode : string -> string) (w : Window) (b : bool)
  (data : list string) (st : State) :
  rendered st ->
  attached st ->
  published (trace (stateOf (exec decode w (Answered b data) st))) =
  published (trace st) ++
    (if snapshotPermitsReport (previousState st)
     then [outcomeRecord (params st) (answeredScore st data) (hd_error data)]
     else []).
Proof.
  intros Hr Ha. rewrite (exec_answered decode w b data st Hr Ha). cbn [stateOf].
  rewrite published_answered. cbn [trace set_trace previousState params].
  rewrite published_app. cbn [published]. rewrite app_nil_r. reflexivity.
Qed.

(** X8.  In a session whose content wrapper has been handed to the host,
    reset clears the snapshot the controller was restored from and hides
    both controls, so the next outcome event publishes exactly one
    record, also in a session restored from [results] or [solutions],
    where outcome events published nothing before the reset. *)
Theorem X8_reset_reenables_reporting :
  forall (decode : string -> string) (w : Window) (b : bool)
         (data : list string) (st : State),
    rendered st ->
    attached st ->
    previousState (stateOf (exec decode w ResetTask st)) = Snapshot.empty /\
    buttonVisible "try-again" (trace (stateOf (exec decode w ResetTask st))) = false /\
    buttonVisible "show-solution" (trace (stateOf (exec decode w ResetTask st))) = false /\
    published (trace (stateOf (exec decode w ResetTask st))) = published (trace st) /\
    published (trace (execAll decode w [ResetTask; Answered b data] st)) =
      published (trace st) ++
      [outcomeRecord (params st) (answeredScore st data) (hd_error data)].
Proof.
  intros decode w b data st Hr Ha.
  rewrite !execAll_cons, execAll_nil, (exec_resetTask decode w st Hr Ha).
  rewrite (published_delivered decode w b data _ (rendered_taskReset st Hr)
             (attached_taskReset st Ha)).
  destruct (taskReset_fields st) as (F1 & F2 & F3 & F4 & F5 & F6).
  rewrite F1, F2, F3, F4, F5, F6. repeat split; reflexivity.
Qed.

Lemma X8_reset_reenables_reporting_witness :
  published (trace Cases.restored) = [] /\
  published (trace (stateOf (exec Scenario.plain Scenario.noRecorder
                               (Answered true ["paris"]) Cases.restored))) = [] /\
  published (trace (execAll Scenario.plain Scenario.noRecorder
                      [ResetTask; Answered true ["paris"]] Cases.restored)) =
    [outcomeRecord Scenario.paris 1 (Some "paris")].
Proof.
  split; [reflexivity | split; [vm_compute; reflexivity |]].
  assert (Hr : rendered Cases.restored) by (split; [reflexivity | discriminate]).
  assert (Ha : attached Cases.restored) by (vm_compute; discriminate).
  exact (proj2 (proj2 (proj2 (proj2
    (X8_reset_reenables_reporting Scenario.plain Scenario.noRecorder true
       ["paris"] Cases.restored Hr Ha))))).
Defined.

(** ** Without the recognition engine *)

Section Unsupported.

Variable decode : string -> string.
Variable w : Window.
Hypothesis engine_absent : annyang w = false.

Lemma construct_inert (p : Params) (extras : option Extras) :
  inert (construct decode w p extras).
Proof.
  unfold construct, constructorBody, bind, modify, gets, inert.
  cbn -[setViewState]. rewrite setViewState_spec, engine_absent.
  destruct (Js.indexOf _ _ =? -1); cbn; repeat split; reflexivity.
Qed.

Lemma inert_commands (st : State) :
  inert st ->
  exec decode w RegisterDomElements st =
    Return tt
      (set_trace (trace st ++
         [SetIntroduction
            (UnsupportedNotice
               (decode (unsupportedBrowserHeader (l10n (params st))))
               (decode (unsupportedBrowserDetails (l10n (params st)))))]) st) /\
  (forall b data, exec decode w (Answered b data) st = Throw Js.TypeError st) /\
  exec decode w ResetTask st = Throw Js.TypeError st /\
  exec decode w ShowSolutions st = Throw Js.TypeError st /\
  exec decode w StopListening st = Throw Js.TypeError st /\
  exec decode w StartListening st = Throw Js.TypeError st /\
  exec decode w UserMediaGranted st = Return tt st /\
  (forall c, exec decode w (DataAvailable c) st = Return tt st) /\
  exec decode w RecorderStopped st = Return tt st.
Proof.
  intros (Hq & Hs & Ha & Hsc & Hli & Hp & Hm & Hpe & Hmi).
  cbn [exec]. rewrite resetTask_full, showSolutions_full.
  unfold parentReadable. rewrite Hq. cbn [andb].
  unfold registerDomElements, stopListening, storeTrigger, bind, gets, throw.
  rewrite engine_absent, Hs, Hpe, Hm. cbn.
  repeat split; reflexivity.
Qed.

Lemma exec_inert (c : Command) (st : State) :
  inert st -> inert (stateOf (exec decode w c st)).
Proof.
  intros H. pose proof (inert_commands st H) as
    (H1 & H2 & H3 & H4 & H5 & H6 & H7 & H8 & H9).
  destruct c.
  - rewrite H1. destruct H as (Hq & Hs & Ha & Hsc & Hli & Hp & Hm & Hpe & Hmi).
    unfold inert. cbn. rewrite published_app, Hp. repeat split; assumption.
  - rewrite H2. exact H.
  - rewrite H3. exact H.
  - rewrite H4. exact H.
  - rewrite H5. exact H.
  - cbn [exec]. rewrite setViewState_spec.
    destruct (Js.indexOf _ _ =? -1); cbn [stateOf]; [exact H |].
    destruct H as (Hq & Hs & Ha & Hsc & Hli & Hp & Hm & Hpe & Hmi).
    unfold inert. cbn. rewrite published_app, Hp. repeat split; assumption.
  - rewrite H6. exact H.
  - rewrite H7. exact H.
  - rewrite H8. exact H.
  - rewrite H9. exact H.
  - cbn [exec]. unfold bind, gets, modify, ret.
    destruct (placement st); exact H.
Qed.

Lemma reachable_inert (p : Params) (extras : option Extras) (st : State) :
  reachable decode w p extras st -> inert st.
Proof.
  intros H. induction H as [|st c _ IH].
  - apply construct_inert.
  - apply exec_inert. exact IH.
Qed.

End Unsupported.

(** X9.  Without the recognition engine the controller stays inert in
    every reachable state: nothing was answered, scored, published or
    captured and no encoding was negotiated; registration only shows the
    unsupported-browser notice; an outcome event, reset, show-solution,
    stop-listening and start-listening each throw a [TypeError] and
    leave the controller as it was. *)
Theorem X9_without_engine_the_controller_is_inert :
  forall (decode : string -> string) (w : Window) (p : Params)
         (extras : option Extras) (st : State),
    annyang w = false ->
    reachable decode w p extras st ->
    (hasAnswered st = false /\ score st = 0 /\ published (trace st) = [] /\
     mediaRecorder st = None /\ mediaMIMEType st = None) /\
    exec decode w RegisterDomElements st =
      Return tt
        (set_trace (trace st ++
           [SetIntroduction
              (UnsupportedNotice
                 (decode (unsupportedBrowserHeader (l10n (params st))))
                 (decode (unsupportedBrowserDetails (l10n (params st)))))]) st) /\
    (forall b data, exec decode w (Answered b data) st = Throw Js.TypeError st) /\
    exec decode w ResetTask st = Throw Js.TypeError st /\
    exec decode w ShowSolutions st = Throw Js.TypeError st /\
    exec decode w StopListening st = Throw Js.TypeError st /\
    exec decode w StartListening st = Throw Js.TypeError st.
Proof.
  intros decode w p extras st Ha H.
  pose proof (reachable_inert decode w Ha p extras st H) as Hi.
  destruct (inert_commands decode w Ha st Hi)
    as (H1 & H2 & H3 & H4 & H5 & H6 & _).
  destruct Hi as (_ & _ & I3 & I4 & _ & I6 & I7 & _ & I9).
  repeat split; assumption.
Qed.

Lemma X9_without_engine_the_controller_is_inert_witness :
  exec Scenario.plain Cases.unsupported ResetTask
    (stateOf (exec Scenario.plain Cases.unsupported RegisterDomElements
                (construct Scenario.plain Cases.unsupported Scenario.paris None))) =
  Throw Js.TypeError
    (stateOf (exec Scenario.plain Cases.unsupported RegisterDomElements
                (construct Scenario.plain Cases.unsupported Scenario.paris None))).
Proof.
  refine (proj1 (proj2 (proj2 (proj2
    (X9_without_engine_the_controller_is_inert Scenario.plain Cases.unsupported
       Scenario.paris None _ eq_refl _))))).
  apply reachable_step, reachable_new.
Defined.

(** X10.  When the snapshot does carry the key [vieState], the
    constructor uses it: an empty value gives [task], a legal name
    becomes the view state at once, and any other value is rejected by
    [setViewState], which leaves the view state undefined, so that
    [getCurrentState] returns a snapshot without view state. *)
Theorem X10_constructor_reads_vieState :
  forall (decode : string -> string) (w : Window) (p : Params)
         (extras : option Extras) (s : string),
    Snapshot.vieState (previousStateOf extras) = Some s ->
    (s = EmptyString -> viewState (construct decode w p extras) = Some "task") /\
    (In s VIEW_STATES -> viewState (construct decode w p extras) = Some s) /\
    (s <> EmptyString -> ~ In s VIEW_STATES ->
     viewState (construct decode w p extras) = None /\
     getCurrentState (construct decode w p extras) =
       Return (Snapshot.mk None None (Some [])) (construct decode w p extras)).
Proof.
  intros decode w p extras s Hv.
  assert (Hcons : forall s',
            Js.orElse (Some s) "task" = s' ->
            viewState (construct decode w p extras) =
              (if Js.indexOf VIEW_STATES (Some s') =? -1 then None else Some s') /\
            lastInterpretations (construct decode w p extras) = None).
  { intros s' Hs'. unfold construct, constructorBody, bind, modify, gets.
    cbn -[setViewState Js.orElse Js.indexOf Z.eqb]. rewrite Hv, Hs', setViewState_spec.
    destruct (Js.indexOf _ _ =? -1); destruct (annyang w); split; reflexivity. }
  split; [| split].
  - intros ->. exact (proj1 (Hcons "task" eq_refl)).
  - intros Hin.
    assert (Hne : String.eqb s EmptyString = false).
    { simpl in Hin. destruct Hin as [<-|[<-|[<-|[]]]]; reflexivity. }
    destruct (Hcons s) as [H _]; [unfold Js.orElse; rewrite Hne; reflexivity |].
    rewrite H. apply setViewState_legal_name in Hin. rewrite Hin. reflexivity.
  - intros Hne Hout.
    assert (Hneb : String.eqb s EmptyString = false)
      by (apply String.eqb_neq; exact Hne).
    destruct (Hcons s) as [H Hl]; [unfold Js.orElse; rewrite Hneb; reflexivity |].
    assert (E : (Js.indexOf VIEW_STATES (Some s) =? -1) = true).
    { destruct (Js.indexOf VIEW_STATES (Some s) =? -1) eqn:E; [reflexivity |].
      exfalso. apply Hout. apply setViewState_legal_name. exact E. }
    rewrite E in H. split; [exact H |].
    rewrite getCurrentState_value, H, Hl. reflexivity.
Qed.

Lemma X10_constructor_reads_vieState_witness :
  viewState (construct Scenario.plain Scenario.noRecorder Scenario.paris
               (Some (mkExtras (Some
                  (Snapshot.mk (Some "solutions") None None))))) =
    Some "solutions" /\
  viewState (construct Scenario.plain Scenario.noRecorder Scenario.paris
               (Some (mkExtras (Some
                  (Snapshot.mk (Some "done") None None))))) = None.
Proof.
  split.
  - refine (proj1 (proj2
      (X10_constructor_reads_vieState Scenario.plain Scenario.noRecorder
         Scenario.paris
         (Some (mkExtras (Some (Snapshot.mk (Some "solutions") None None))))
         "solutions" eq_refl)) _).
    simpl. auto.
  - refine (proj1 (proj2 (proj2
      (X10_constructor_reads_vieState Scenario.plain Scenario.noRecorder
         Scenario.paris
         (Some (mkExtras (Some (Snapshot.mk (Some "done") None None))))
         "done" eq_refl)) _ _)).
    + discriminate.
    + simpl. intros [H|[H|[H|[]]]]; discriminate H.
Defined.

(** X11.  When an encoding was negotiated but [navigator.mediaDevices]
    is missing, registration throws a [TypeError] at the capture request:
    the negotiated encoding is stored, but the introduction and the
    content are never handed to the host and a snapshot is not replayed. *)
Theorem X11_registration_needs_mediaDevices :
  forall (decode : string -> string) (w : Window) (m : string) (st : State),
    annyang w = true ->
    getRecordingMIMEType w = Some m ->
    mediaDevices w = false ->
    exec decode w RegisterDomElements st =
      Throw Js.TypeError (set_mediaMIMEType (Some m) st) /\
    trace (stateOf (exec decode w RegisterDomElements st)) = trace st /\
    viewState (stateOf (exec decode w RegisterDomElements st)) = viewState st /\
    hasAnswered (stateOf (exec decode w RegisterDomElements st)) = hasAnswered st.
Proof.
  intros decode w m st Ha Hm Hd. cbn [exec].
  rewrite (registerDomElements_without_mediaDevices decode w st m Ha Hm Hd).
  repeat split; reflexivity.
Qed.

Lemma X11_registration_needs_mediaDevices_witness :
  returned (exec Scenario.plain Cases.insecure RegisterDomElements
              (construct Scenario.plain Cases.insecure Scenario.paris
                 (snapshotOf "results" ["paris"]))) = false /\
  viewState (stateOf (exec Scenario.plain Cases.insecure RegisterDomElements
              (construct Scenario.plain Cases.insecure Scenario.paris
                 (snapshotOf "results" ["paris"])))) = Some "task".
Proof.
  pose proof (X11_registration_needs_mediaDevices Scenario.plain Cases.insecure
                "audio/webm"
                (construct Scenario.plain Cases.insecure Scenario.paris
                   (snapshotOf "results" ["paris"]))
                eq_refl eq_refl eq_refl) as H.
  split.
  - rewrite (proj1 H). reflexivity.
  - rewrite (proj1 (proj2 (proj2 H))). reflexivity.
Defined.

(** ** Audio capture *)

Lemma onStartListening_recording (st : State) :
  mediaRecorder st = Some recording -> onStartListening st = Return tt st.
Proof.
  intros H. unfold onStartListening, bind, gets. rewrite H. reflexivity.
Qed.

Lemma repeatM_onStartListening_recording (n : nat) (st : State) :
  mediaRecorder st = Some recording ->
  repeatM n onStartListening st = Return tt st.
Proof.
  intros H. induction n as [|n IH]; [reflexivity |].
  cbn [repeatM].
  rewrite (bind_Return _ _ st st tt (onStartListening_recording st H)).
  exact IH.
Qed.

Lemma onStartListening_inactive (st : State) :
  mediaRecorder st = Some inactive ->
  onStartListening st =
  Return tt (set_trace (trace st ++ [RecorderStart])
               (set_mediaRecorder (Some recording) st)).
Proof.
  intros H. unfold onStartListening, bind, gets. rewrite H. reflexivity.
Qed.

Lemma storeTrigger_start_listening (decode : string -> string) (st : State)
  (store : EventStore) :
  speechEventStore st = Some store ->
  storeTrigger decode "start-listening" None st =
  repeatM (startListeningHandlers store) onStartListening
    (set_trace (trace st ++ [StoreTrigger "start-listening" None]) st).
Proof.
  intros Hs. unfold storeTrigger.
  rewrite (bind_Return _ _ st st (Some store))
    by (unfold gets; rewrite Hs; reflexivity).
  erewrite bind_Return by reflexivity.
  reflexivity.
Qed.

Lemma exec_start_listening (decode : string -> string) (w : Window)
  (st : State) (store : EventStore) :
  speechEventStore st = Some store ->
  mediaRecorder st <> Some paused ->
  (mediaRecorder st = None -> startListeningHandlers store = 0%nat) ->
  exec decode w StartListening st = Return tt (listeningStarted st).
Proof.
  intros Hs Hp Hn. cbn [exec].
  rewrite (storeTrigger_start_listening decode st store Hs).
  unfold listeningStarted, captureHandlers. rewrite Hs.
  destruct (startListeningHandlers store) as [|n] eqn:Hh.
  - reflexivity.
  - destruct (mediaRecorder st) as [[| |]|] eqn:Hm.
    + cbn [repeatM].
      erewrite bind_Return by (apply onStartListening_inactive; exact Hm).
      rewrite repeatM_onStartListening_recording by reflexivity.
      apply (f_equal (Return tt)).
      apply State_ext; cbn; rewrite <- ?app_assoc; reflexivity.
    + apply repeatM_onStartListening_recording. exact Hm.
    + congruence.
    + specialize (Hn eq_refl). discriminate.
Qed.

Lemma execAll_app (decode : string -> string) (w : Window)
  (cs cs' : list Command) (st : State) :
  execAll decode w (cs ++ cs') st = execAll decode w cs' (execAll decode w cs st).
Proof.
  revert st. induction cs as [|c cs IH]; intros st; [reflexivity |].
  cbn [app execAll]. apply IH.
Qed.

Lemma exec_data_available (decode : string -> string) (w : Window)
  (c : Chunk) (st : State) :
  mediaRecorder st <> None ->
  exec decode w (DataAvailable c) st =
  Return tt (set_mediaChunks (mediaChunks st ++ [c]) st).
Proof.
  intros H. cbn [exec]. unfold bind, gets.
  destruct (mediaRecorder st); [reflexivity | congruence].
Qed.

Lemma execAll_data_available (decode : string -> string) (w : Window)
  (cs : list Chunk) (st : State) :
  mediaRecorder st <> None ->
  execAll decode w (map DataAvailable cs) st =
  set_mediaChunks (mediaChunks st ++ cs) st.
Proof.
  intros H. revert st H. induction cs as [|c cs IH]; intros st H.
  - cbn [map execAll]. apply State_ext; cbn; rewrite ?app_nil_r; reflexivity.
  - cbn [map]. rewrite execAll_cons, (exec_data_available decode w c st H).
    cbn [stateOf]. rewrite IH by exact H.
    apply State_ext; cbn; rewrite <- ?app_assoc; reflexivity.
Qed.

Lemma exec_recorder_stopped (decode : string -> string) (w : Window)
  (st : State) :
  mediaRecorder st <> None ->
  exec decode w RecorderStopped st = Return tt (exported w [] st).
Proof.
  intros H. cbn [exec]. unfold bind, gets.
  destruct (mediaRecorder st); [| congruence].
  unfold onStop, exported, bind, gets, modify, when, emit.
  cbn. rewrite app_nil_r. destruct (KLFileExporter w); cbn.
  - reflexivity.
  - apply (f_equal (Return tt)).
    apply State_ext; cbn; rewrite ?app_nil_r; reflexivity.
Qed.

(** X12. A [start-listening] event on a controller whose recorder is
    not paused returns; an inactive recorder is started by the first
    installed handler and by no other, a recorder already recording is
    left alone, and without installed handler nothing but the
    notification of the UI happens. *)
Theorem X12_start_listening_starts_the_recorder_once :
  forall (decode : string -> string) (w : Window) (st : State)
         (store : EventStore),
    speechEventStore st = Some store ->
    mediaRecorder st <> Some paused ->
    (mediaRecorder st = None -> startListeningHandlers store = 0%nat) ->
    exec decode w StartListening st = Return tt (listeningStarted st) /\
    occurrences isRecorderStart (trace (listeningStarted st)) =
      (occurrences isRecorderStart (trace st) +
       match startListeningHandlers store, mediaRecorder st with
       | Datatypes.S _, Some inactive => 1
       | _, _ => 0
       end)%nat /\
    (mediaRecorder st <> None -> (0 < startListeningHandlers store)%nat ->
     mediaRecorder (listeningStarted st) = Some recording).
Proof.
  intros decode w st store Hs Hp Hn.
  split; [exact (exec_start_listening decode w st store Hs Hp Hn) |].
  unfold listeningStarted, captureHandlers, occurrences. rewrite Hs.
  destruct (startListeningHandlers store) as [|n];
    destruct (mediaRecorder st) as [[| |]|] eqn:Hm;
    cbn [trace set_trace mediaRecorder set_mediaRecorder];
    rewrite ?filter_app, ?length_app; cbn [filter isRecorderStart length];
    (split; [lia | intros H1 H2; first [reflexivity | exact Hm | lia | congruence]]).
Qed.

Lemma X12_start_listening_starts_the_recorder_once_witness :
  exec Scenario.plain Scenario.webm StartListening Cases.granted =
    Return tt (listeningStarted Cases.granted) /\
  mediaRecorder (listeningStarted Cases.granted) = Some recording /\
  occurrences isRecorderStart (trace (listeningStarted Cases.granted)) = 1%nat.
Proof.
  pose proof (X12_start_listening_starts_the_recorder_once
                Scenario.plain Scenario.webm Cases.granted (mkEventStore 1)
                ltac:(vm_compute; reflexivity)
                ltac:(vm_compute; discriminate)
                ltac:(vm_compute; discriminate)) as (H1 & H2 & H3).
  split; [exact H1 | split].
  - apply H3; [vm_compute; discriminate | vm_compute; lia].
  - rewrite H2. vm_compute. reflexivity.
Defined.

(** X13. The chunks the recorder delivers are collected in order; its
    [stop] event hands all chunks collected since the previous one to the
    export collaborator, typed with the stored encoding, and empties the
    collection.  Without export collaborator the chunks are dropped. *)
Theorem X13_stop_exports_the_collected_chunks :
  forall (decode : string -> string) (w : Window) (cs : list Chunk)
         (st : State),
    mediaRecorder st <> None ->
    execAll decode w (map DataAvailable cs ++ [RecorderStopped]) st =
      exported w cs st /\
    mediaChunks (exported w cs st) = [] /\
    trace (exported w cs st) =
      trace st ++
      (if KLFileExporter w
       then [FileExport (mediaMIMEType st) (mediaChunks st ++ cs)]
       else []).
Proof.
  intros decode w cs st H.
  split; [| split; reflexivity].
  rewrite execAll_app, (execAll_data_available decode w cs st H).
  rewrite execAll_cons, execAll_nil, exec_recorder_stopped by exact H.
  cbn [stateOf]. unfold exported.
  apply State_ext; cbn; rewrite ?app_nil_r; reflexivity.
Qed.

Lemma X13_stop_exports_the_collected_chunks_witness :
  trace (execAll Scenario.plain Scenario.webm
           (map DataAvailable [1%nat; 2%nat] ++ [RecorderStopped]) Cases.listening) =
  trace Cases.listening ++ [FileExport (Some "audio/webm") [1%nat; 2%nat]].
Proof.
  destruct (X13_stop_exports_the_collected_chunks
              Scenario.plain Scenario.webm [1%nat; 2%nat] Cases.listening
              ltac:(vm_compute; discriminate)) as (H1 & _ & H3).
  rewrite H1, H3. vm_compute. reflexivity.
Defined.

(** ** Consistency of the capture fields *)

Lemma occurrences_app (kind : Effect -> bool) (a b : list Effect) :
  occurrences kind (a ++ b) = (occurrences kind a + occurrences kind b)%nat.
Proof. unfold occurrences. rewrite filter_app, length_app. reflexivity. Qed.

Lemma captureFree_occurrences (kind : Effect -> bool) (delta : list Effect) :
  (forall e, kind e = true -> captureFree e = false) ->
  forallb captureFree delta = true -> occurrences kind delta = 0%nat.
Proof.
  intros Hk. unfold occurrences.
  induction delta as [|e delta IH]; intros H; [reflexivity |].
  cbn [forallb] in H. apply andb_prop in H. destruct H as [He Hd].
  cbn [filter]. destruct (kind e) eqn:Ke.
  - rewrite (Hk e Ke) in He. discriminate.
  - exact (IH Hd).
Qed.

Lemma captureFree_exports (delta : list Effect) (m : option string)
  (b : list Chunk) :
  forallb captureFree delta = true -> ~ In (FileExport m b) delta.
Proof.
  intros H Hin. rewrite forallb_forall in H. specialize (H _ Hin). discriminate.
Qed.

Lemma captureFree_log (delta : list Effect) :
  forallb captureFree delta = true -> captureLog delta = [].
Proof.
  unfold captureLog. induction delta as [|e delta IH]; intros H; [reflexivity |].
  cbn [forallb] in H. apply andb_prop in H. destruct H as [He Hd].
  cbn [filter]. rewrite He. exact (IH Hd).
Qed.

Lemma captureLog_app (a b : list Effect) :
  captureLog (a ++ b) = captureLog a ++ captureLog b.
Proof. apply filter_app. Qed.

Lemma captureNeutral_refl (st : State) : captureNeutral st st.
Proof.
  unfold captureNeutral. repeat split; try reflexivity.
  exists []. rewrite app_nil_r. split; reflexivity.
Qed.

Lemma captureNeutral_trans (a b c : State) :
  captureNeutral a b -> captureNeutral b c -> captureNeutral a c.
Proof.
  intros (A1 & A3 & A4 & A5 & d1 & A6 & A7)
         (B1 & B3 & B4 & B5 & d2 & B6 & B7).
  unfold captureNeutral. repeat split; try congruence.
  exists (d1 ++ d2). split.
  - rewrite B6, A6, app_assoc. reflexivity.
  - rewrite forallb_app, A7, B7. reflexivity.
Qed.

Lemma keepsCapture_refl (w : Window) (st : State) : keepsCapture w st st.
Proof. intros H. exact H. Qed.

Lemma keepsCapture_trans (w : Window) (a b c : State) :
  keepsCapture w a b -> keepsCapture w b c -> keepsCapture w a c.
Proof. unfold keepsCapture. auto. Qed.

(** What a step may do to the capture fields: the recorder moves as
    [rec'] says, the handlers and pending requests as given, and the
    trace grows by [delta]. *)
Lemma captureSound_intro (w : Window) (st st' : State) (delta : list Effect) :
  trace st' = trace st ++ delta ->
  mediaRecorder st' <> Some paused ->
  (mediaRecorder st' = None -> captureHandlers st' = 0%nat) ->
  (mediaRecorder st' <> None \/ pendingUserMedia st' <> 0%nat ->
   annyang w = true /\ mediaDevices w = true /\
   Js.truthy (getRecordingMIMEType w) = true /\
   mediaMIMEType st' = getRecordingMIMEType w) ->
  (forall m b, In (FileExport m b) delta ->
               KLFileExporter w = true /\ m = getRecordingMIMEType w /\
               Js.truthy m = true) ->
  (occurrences isRecorderStop delta + running st'
   <= occurrences isRecorderStart delta + running st)%nat ->
  captureSound w st -> captureSound w st'.
Proof.
  intros Ht Hp Hh Hm He Hb (S1 & S2 & S3 & S4 & S5).
  unfold captureSound. rewrite Ht, !occurrences_app.
  repeat split; try assumption; try (apply Hm; assumption).
  - apply in_app_or in H. destruct H as [H|H]; [apply (S4 m b H) | apply (He m b H)].
  - apply in_app_or in H. destruct H as [H|H]; [apply (S4 m b H) | apply (He m b H)].
  - apply in_app_or in H. destruct H as [H|H]; [apply (S4 m b H) | apply (He m b H)].
  - lia.
Qed.

Lemma captureNeutral_keepsCapture (w : Window) (st st' : State) :
  captureNeutral st st' -> keepsCapture w st st'.
Proof.
  intros (N1 & N3 & N4 & N5 & delta & N6 & N7) HS.
  pose proof HS as (S1 & S2 & S3 & S4 & S5).
  apply (captureSound_intro w st st' delta N6); try exact HS.
  - rewrite N1. exact S1.
  - rewrite N1, N4. exact S2.
  - rewrite N1, N3, N5. exact S3.
  - intros m b H. destruct (captureFree_exports delta m b N7 H).
  - rewrite !captureFree_occurrences by (exact N7 || (intros [] ?; try discriminate; reflexivity)).
    unfold running. rewrite N1. lia.
Qed.

Ltac neutral_goal :=
  unfold captureNeutral, captureHandlers; cbn;
  repeat split; try reflexivity;
  first [ exists []; split; [rewrite app_nil_r; reflexivity | reflexivity]
        | rewrite <- ?app_assoc; eexists; split; reflexivity ].

Section Capture.

Variable decode : string -> string.
Variable w : Window.

Lemma keepsCapture_emit (e : Effect) :
  captureFree e = true -> frames (keepsCapture w) (emit e).
Proof.
  intros He st. apply captureNeutral_keepsCapture.
  unfold captureNeutral, captureHandlers. cbn.
  repeat split; try reflexivity.
  exists [e]. split; [reflexivity | cbn; rewrite He; reflexivity].
Qed.

Lemma keepsCapture_setViewState (s : string) :
  frames (keepsCapture w) (setViewState s).
Proof.
  intros st. rewrite setViewState_spec.
  destruct (Js.indexOf VIEW_STATES (Some s) =? -1); cbn [stateOf].
  - apply keepsCapture_refl.
  - apply captureNeutral_keepsCapture. neutral_goal.
Qed.

Lemma keepsCapture_resetTask : frames (keepsCapture w) (resetTask decode).
Proof.
  intros st. rewrite resetTask_full.
  destruct (parentReadable st); [destruct (speechEventStore st) eqn:Hs |];
    cbn [stateOf].
  - apply captureNeutral_keepsCapture. unfold taskReset, onGrandParent.
    destruct (inPage st); neutral_goal.
  - apply captureNeutral_keepsCapture. unfold haltedReset, onGrandParent.
    destruct (inPage st); neutral_goal.
  - apply keepsCapture_refl.
Qed.

Lemma keepsCapture_showSolutions : frames (keepsCapture w) (showSolutions decode).
Proof.
  intros st. rewrite showSolutions_full.
  destruct (parentReadable st); [destruct (speechEventStore st) eqn:Hs |];
    cbn [stateOf].
  - apply captureNeutral_keepsCapture. unfold solutionsShown, onGrandParent.
    destruct (inPage st); neutral_goal.
  - apply captureNeutral_keepsCapture. unfold haltedSolutions, onGrandParent.
    destruct (inPage st); neutral_goal.
  - apply keepsCapture_refl.
Qed.

(** A step that stops the recorder when it runs and otherwise adds only
    effects unrelated to capture. *)
Lemma keepsCapture_stopped (st st' : State) (delta : list Effect) :
  mediaRecorder st' =
    match mediaRecorder st with None => None | Some _ => Some inactive end ->
  mediaMIMEType st' = mediaMIMEType st ->
  captureHandlers st' = captureHandlers st ->
  pendingUserMedia st' = pendingUserMedia st ->
  trace st' = trace st ++ stopEffects st ++ delta ->
  forallb captureFree delta = true ->
  keepsCapture w st st'.
Proof.
  intros Hr Hm Hh Hp Ht Hd HS.
  pose proof HS as (S1 & S2 & S3 & S4 & S5).
  apply (captureSound_intro w st st' (stopEffects st ++ delta) Ht); try exact HS.
  - rewrite Hr. destruct (mediaRecorder st); discriminate.
  - rewrite Hr, Hh. destruct (mediaRecorder st) eqn:E; [discriminate | auto].
  - rewrite Hr, Hm, Hp. intros H. apply S3.
    destruct (mediaRecorder st); [left; discriminate | exact H].
  - intros m b H. apply in_app_or in H. destruct H as [H|H].
    + unfold stopEffects in H. destruct (mediaRecorder st) as [[| |]|];
        cbn in H; intuition discriminate.
    + destruct (captureFree_exports delta m b Hd H).
  - rewrite !occurrences_app.
    rewrite !(captureFree_occurrences _ delta)
      by (exact Hd || (intros [] ?; try discriminate; reflexivity)).
    unfold running, stopEffects. rewrite Hr.
    destruct (mediaRecorder st) as [[| |]|]; cbn; lia.
Qed.

Lemma captureFree_answeredEffects (d : list string) (st : State) :
  forallb captureFree (answeredEffects decode st d) = true.
Proof.
  unfold answeredEffects, onGrandParent.
  destruct (inPage st); destruct (isAccepted _ _);
    destruct (snapshotPermitsReport _); reflexivity.
Qed.

Lemma keepsCapture_handleAnswered (data : option (list string)) :
  frames (keepsCapture w) (handleAnswered decode data).
Proof.
  intros st. rewrite handleAnswered_full.
  destruct (parentReadable st); [destruct data as [d|] |]; cbn [stateOf].
  - apply (keepsCapture_stopped st _ (answeredEffects decode st d));
      try reflexivity.
    apply captureFree_answeredEffects.
  - eapply keepsCapture_stopped; try reflexivity.
    unfold onGrandParent. destruct (inPage st); reflexivity.
  - apply (keepsCapture_stopped st _ []); reflexivity.
Qed.

Lemma keepsCapture_onStartListening : frames (keepsCapture w) onStartListening.
Proof.
  intros st. unfold onStartListening, bind, gets.
  destruct (mediaRecorder st) as [[| |]|] eqn:Hm; cbn [stateOf];
    try apply keepsCapture_refl.
  intros HS. pose proof HS as (S1 & S2 & S3 & S4 & S5).
  apply (captureSound_intro w st _ [RecorderStart]); try exact HS;
    try reflexivity.
  - cbn. discriminate.
  - cbn. discriminate.
  - cbn [mediaRecorder mediaMIMEType pendingUserMedia set_trace set_mediaRecorder].
    intros _. apply S3. left. rewrite Hm. discriminate.
  - intros m b [H|[]]. discriminate.
  - unfold running. cbn. rewrite Hm. lia.
Qed.

Ltac capture_seq :=
  apply frames_bind; [apply keepsCapture_trans | | intros ?].

Ltac capture_leaf :=
  first [ apply keepsCapture_emit; reflexivity
        | apply frames_gets, keepsCapture_refl
        | apply frames_ret, keepsCapture_refl
        | apply frames_throw, keepsCapture_refl ].

Lemma keepsCapture_storeTrigger (event : string) (data : option (list string)) :
  frames (keepsCapture w) (storeTrigger decode event data).
Proof.
  unfold storeTrigger.
  capture_seq; [capture_leaf |].
  match goal with |- frames _ (match ?x with _ => _ end) => destruct x end;
    [| capture_leaf].
  capture_seq; [capture_leaf |].
  destruct (_ || _).
  - apply keepsCapture_handleAnswered.
  - destruct (String.eqb _ _).
    + apply frames_repeatM;
        [apply keepsCapture_refl | apply keepsCapture_trans
        | apply keepsCapture_onStartListening].
    + capture_leaf.
Qed.

Lemma keepsCapture_recreateState : frames (keepsCapture w) (recreateState decode).
Proof.
  unfold recreateState.
  capture_seq; [capture_leaf |].
  destruct (Snapshot.lastInterpretations _); [| capture_leaf].
  capture_seq; [capture_leaf |].
  capture_seq.
  { apply frames_when; [apply keepsCapture_refl |].
    destruct (isAccepted _ _); apply keepsCapture_storeTrigger. }
  capture_seq; [capture_leaf |].
  capture_seq.
  { apply frames_when; [apply keepsCapture_refl | apply keepsCapture_showSolutions]. }
  apply keepsCapture_storeTrigger.
Qed.

(** The capture request of registration, from the state in which the
    negotiated encoding has just been stored. *)
Lemma keepsCapture_request (st : State) :
  annyang w = true ->
  keepsCapture w st
    (stateOf (when (Js.truthy (getRecordingMIMEType w)) (getUserMedia w)
                (set_mediaMIMEType (getRecordingMIMEType w) st))).
Proof.
  intros Ha HS. pose proof HS as (S1 & S2 & S3 & S4 & S5).
  unfold getUserMedia, throw, ret.
  destruct (Js.truthy (getRecordingMIMEType w)) eqn:Ht; cbn [when];
    [destruct (mediaDevices w) eqn:Hd |]; cbn [stateOf].
  - apply (captureSound_intro w st _ [GetUserMedia]); try exact HS;
      try reflexivity; try assumption.
    + intros _. repeat split; assumption.
    + intros m b [H|[]]. discriminate.
  - apply (captureSound_intro w st _ []); try exact HS; try assumption.
    + cbn. rewrite app_nil_r. reflexivity.
    + cbn [mediaRecorder mediaMIMEType pendingUserMedia set_mediaMIMEType].
      intros H. destruct (S3 H) as (M1 & M2 & M3 & M4). repeat split; congruence.
    + intros m b [].
    + cbn. unfold running. cbn. lia.
  - apply (captureSound_intro w st _ []); try exact HS; try assumption.
    + cbn. rewrite app_nil_r. reflexivity.
    + cbn [mediaRecorder mediaMIMEType pendingUserMedia set_mediaMIMEType].
      intros H. destruct (S3 H) as (M1 & M2 & M3 & M4). repeat split; congruence.
    + intros m b [].
    + cbn. unfold running. cbn. lia.
Qed.

Lemma keepsCapture_setContent : frames (keepsCapture w) setContent.
Proof.
  intros st. apply captureNeutral_keepsCapture.
  unfold setContent, emit, bind, modify. neutral_goal.
Qed.

Lemma keepsCapture_registerDomElements :
  frames (keepsCapture w) (registerDomElements decode w).
Proof.
  intros st. destruct (annyang w) eqn:Ha.
  - rewrite (registerDomElements_supported decode w st Ha).
    unfold afterNegotiation.
    pose proof (keepsCapture_request st Ha) as Hreq.
    set (s0 := set_mediaMIMEType (getRecordingMIMEType w) st) in *.
    clearbody s0.
    unfold bind at 1.
    destruct (when (Js.truthy (getRecordingMIMEType w)) (getUserMedia w) s0)
      as [[] s1|e s1]; cbn [stateOf] in Hreq; [| exact Hreq].
    apply keepsCapture_trans with (b := s1); [exact Hreq |].
    generalize s1.
    change (frames (keepsCapture w)
              (intro <- gets introduction ;;
               emit (SetIntroduction (IntroductionNode intro)) ;;
               setContent ;;
               ps <- gets previousState ;;
               match Snapshot.lastInterpretations ps with
               | Some (_ :: _) => recreateState decode
               | _ => ret tt
               end)).
    do 2 (capture_seq; [capture_leaf |]).
    capture_seq; [apply keepsCapture_setContent |].
    capture_seq; [capture_leaf |].
    destruct (Snapshot.lastInterpretations _) as [[|x l]|];
      [capture_leaf | apply keepsCapture_recreateState | capture_leaf].
  - unfold registerDomElements. rewrite Ha. cbn [negb].
    apply frames_bind; [apply keepsCapture_trans | capture_leaf | intros p; capture_leaf].
Qed.

Lemma keepsCapture_granted : frames (keepsCapture w) (exec decode w UserMediaGranted).
Proof.
  intros st. cbn [exec]. unfold bind, gets.
  destruct (pendingUserMedia st) as [|n] eqn:Hn; [apply keepsCapture_refl |].
  unfold onUserMedia, bind, modify, gets. cbn.
  intros HS. pose proof HS as (S1 & S2 & S3 & S4 & S5).
  assert (Hm : annyang w = true /\ mediaDevices w = true /\
               Js.truthy (getRecordingMIMEType w) = true /\
               mediaMIMEType st = getRecordingMIMEType w).
  { apply S3. right. rewrite Hn. discriminate. }
  destruct (speechEventStore st) eqn:Hs; cbn [stateOf].
  - apply (captureSound_intro w st _ []); try exact HS.
    + cbn. rewrite app_nil_r. reflexivity.
    + cbn. discriminate.
    + cbn. discriminate.
    + intros _. exact Hm.
    + intros m b [].
    + cbn. unfold running. cbn. lia.
  - apply (captureSound_intro w st _ []); try exact HS.
    + cbn. rewrite app_nil_r. reflexivity.
    + cbn. discriminate.
    + cbn. discriminate.
    + intros _. exact Hm.
    + intros m b [].
    + cbn. unfold running. cbn. lia.
Qed.

Lemma keepsCapture_chunk (c : Chunk) :
  frames (keepsCapture w) (exec decode w (DataAvailable c)).
Proof.
  intros st. apply captureNeutral_keepsCapture. cbn [exec].
  unfold bind, gets, onDataAvailable, modify.
  destruct (mediaRecorder st); cbn [stateOf];
    [neutral_goal | unfold ret; apply captureNeutral_refl].
Qed.

Lemma keepsCapture_recorder_stopped :
  frames (keepsCapture w) (exec decode w RecorderStopped).
Proof.
  intros st. cbn [exec]. unfold bind, gets.
  destruct (mediaRecorder st) as [r|] eqn:Hr; [| apply keepsCapture_refl].
  unfold onStop, bind, gets, modify, when, emit, ret.
  destruct (KLFileExporter w) eqn:Hk; cbn [stateOf].
  - intros HS. pose proof HS as (S1 & S2 & S3 & S4 & S5).
    assert (Hm : annyang w = true /\ mediaDevices w = true /\
                 Js.truthy (getRecordingMIMEType w) = true /\
                 mediaMIMEType st = getRecordingMIMEType w).
    { apply S3. left. rewrite Hr. discriminate. }
    apply (captureSound_intro w st _ [FileExport (mediaMIMEType st) (mediaChunks st)]);
      try exact HS; try reflexivity; try assumption.
    intros m b [H|[]]. injection H as <- <-.
    destruct Hm as (M1 & M2 & M3 & M4). rewrite M4. auto.
  - apply captureNeutral_keepsCapture. neutral_goal.
Qed.

Lemma keepsCapture_exec (c : Command) : frames (keepsCapture w) (exec decode w c).
Proof.
  destruct c.
  - apply keepsCapture_registerDomElements.
  - apply keepsCapture_storeTrigger.
  - apply keepsCapture_resetTask.
  - apply keepsCapture_showSolutions.
  - apply keepsCapture_storeTrigger.
  - apply keepsCapture_setViewState.
  - apply keepsCapture_storeTrigger.
  - apply keepsCapture_granted.
  - apply keepsCapture_chunk.
  - apply keepsCapture_recorder_stopped.
  - intros st. apply captureNeutral_keepsCapture. cbn [exec].
    unfold bind, gets, modify, ret.
    destruct (placement st); cbn [stateOf];
      first [apply captureNeutral_refl | neutral_goal].
Qed.

Lemma construct_captureSound (p : Params) (extras : option Extras) :
  captureSound w (construct decode w p extras).
Proof.
  unfold construct, constructorBody, bind, modify, gets.
  cbn -[setViewState]. rewrite setViewState_spec.
  destruct (Js.indexOf _ _ =? -1); destruct (annyang w); cbn;
    unfold captureSound, captureHandlers, running, occurrences; cbn;
    (split; [discriminate | split; [reflexivity | split; [| split]]]);
    try lia;
    try (intros [H|H]; exfalso; congruence);
    intros m b H; exfalso; intuition discriminate.
Qed.

Lemma reachable_captureSound (p : Params) (extras : option Extras) (st : State) :
  reachable decode w p extras st -> captureSound w st.
Proof.
  intros H. induction H as [|st c _ IH].
  - apply construct_captureSound.
  - exact (keepsCapture_exec c st IH).
Qed.

End Capture.

(** X14. Whatever the session did, a recorder exists or a capture
    request is pending only where the recognition engine and
    [navigator.mediaDevices] exist and an encoding was negotiated, which
    is then the stored one; and every export made carries the
    negotiated encoding, WebM or MP4, and was made through an existing
    export collaborator. *)
Theorem X14_capture_uses_the_negotiated_encoding :
  forall (decode : string -> string) (w : Window) (p : Params)
         (extras : option Extras) (st : State),
    reachable decode w p extras st ->
    (mediaRecorder st <> None \/ pendingUserMedia st <> 0%nat ->
     annyang w = true /\ mediaDevices w = true /\
     mediaMIMEType st = getRecordingMIMEType w /\
     (mediaMIMEType st = Some "audio/webm" \/
      mediaMIMEType st = Some "audio/mp4")) /\
    (forall m b, In (FileExport m b) (trace st) ->
                 KLFileExporter w = true /\
                 m = getRecordingMIMEType w /\
                 (m = Some "audio/webm" \/ m = Some "audio/mp4")).
Proof.
  intros decode w p extras st H.
  destruct (reachable_captureSound decode w p extras st H)
    as (S1 & S2 & S3 & S4 & S5).
  assert (Hty : forall m, m = getRecordingMIMEType w -> Js.truthy m = true ->
                          m = Some "audio/webm" \/ m = Some "audio/mp4").
  { intros m -> Ht. destruct (negotiated_types w) as [E|[E|E]]; rewrite E in *;
      [discriminate Ht | auto | auto]. }
  split.
  - intros Hc. destruct (S3 Hc) as (M1 & M2 & M3 & M4).
    repeat split; try assumption. apply Hty; [exact M4 | rewrite M4; exact M3].
  - intros m b Hin. destruct (S4 m b Hin) as (E1 & E2 & E3).
    repeat split; try assumption. exact (Hty m E2 E3).
Qed.

Lemma X14_capture_uses_the_negotiated_encoding_witness :
  mediaMIMEType Cases.listening = Some "audio/webm" /\
  In (FileExport (Some "audio/webm") [7%nat])
     (trace (execAll Scenario.plain Scenario.webm
               [DataAvailable 7%nat; RecorderStopped] Cases.listening)).
Proof.
  assert (R : reachable Scenario.plain Scenario.webm Scenario.paris None
                Cases.listening).
  { apply reachable_step.
    apply (reachable_execAll Scenario.plain Scenario.webm Scenario.paris None
             [RegisterDomElements; UserMediaGranted]).
    apply reachable_new. }
  split.
  - destruct (X14_capture_uses_the_negotiated_encoding
                Scenario.plain Scenario.webm Scenario.paris None
                Cases.listening R) as [H1 _].
    destruct (H1 ltac:(left; vm_compute; discriminate)) as (_ & _ & E & _).
    rewrite E. vm_compute. reflexivity.
  - vm_compute. repeat first [left; reflexivity | right].
Defined.

(** X15. The controller never stops a recorder more often than it
    started one: in every reachable state the calls of [stop] are at most
    the calls of [start], strictly fewer while the recorder records, and
    the recorder is never paused. *)
Theorem X15_recorder_is_stopped_only_after_a_start :
  forall (decode : string -> string) (w : Window) (p : Params)
         (extras : option Extras) (st : State),
    reachable decode w p extras st ->
    mediaRecorder st <> Some paused /\
    (occurrences isRecorderStop (trace st)
     <= occurrences isRecorderStart (trace st))%nat /\
    (mediaRecorder st = Some recording ->
     (occurrences isRecorderStop (trace st)
      < occurrences isRecorderStart (trace st))%nat).
Proof.
  intros decode w p extras st H.
  destruct (reachable_captureSound decode w p extras st H)
    as (S1 & S2 & S3 & S4 & S5).
  split; [exact S1 | split].
  - lia.
  - intros Hr. unfold running in S5. rewrite Hr in S5. lia.
Qed.

Lemma X15_recorder_is_stopped_only_after_a_start_witness :
  mediaRecorder Cases.listening = Some recording /\
  (occurrences isRecorderStop (trace Cases.listening)
   < occurrences isRecorderStart (trace Cases.listening))%nat.
Proof.
  assert (R : reachable Scenario.plain Scenario.webm Scenario.paris None
                Cases.listening).
  { apply reachable_step.
    apply (reachable_execAll Scenario.plain Scenario.webm Scenario.paris None
             [RegisterDomElements; UserMediaGranted]).
    apply reachable_new. }
  assert (E : mediaRecorder Cases.listening = Some recording)
    by (vm_compute; reflexivity).
  split; [exact E |].
  exact (proj2 (proj2 (X15_recorder_is_stopped_only_after_a_start
                         Scenario.plain Scenario.webm Scenario.paris None
                         Cases.listening R)) E).
Defined.

(** ** Commands return *)

Section Safety.

Variable decode : string -> string.
Variable w : Window.

Lemma safe_ret {A} (a : A) : safe (ret a).
Proof. intros st Hr Ha. exists a, st. split; [reflexivity | split; assumption]. Qed.

Lemma safe_gets {A} (f : State -> A) : safe (gets f).
Proof.
  intros st Hr Ha. exists (f st), st. split; [reflexivity | split; assumption].
Qed.

Lemma safe_emit (e : Effect) : safe (emit e).
Proof.
  intros st Hr Ha. exists tt, (set_trace (trace st ++ [e]) st).
  split; [reflexivity | split; [exact Hr | exact Ha]].
Qed.

Lemma safe_bind {A B} (m : M State A) (k : A -> M State B) :
  safe m -> (forall a, safe (k a)) -> safe (bind m k).
Proof.
  intros Hm Hk st Hr Ha. destruct (Hm st Hr Ha) as (a & s1 & E1 & R1 & A1).
  destruct (Hk a s1 R1 A1) as (b & s2 & E2 & R2 & A2).
  exists b, s2. split; [| split; assumption].
  rewrite (bind_Return m k st s1 a E1). exact E2.
Qed.

Lemma safe_when (b : bool) (m : M State unit) : safe m -> safe (when b m).
Proof. intros H. destruct b; [exact H | apply safe_ret]. Qed.

Lemma safe_closed (m : M State unit) (f : State -> State) :
  (forall st, rendered st -> attached st -> m st = Return tt (f st)) ->
  (forall st, rendered st -> rendered (f st)) ->
  (forall st, attached st -> attached (f st)) ->
  safe m.
Proof.
  intros He Hf Hg st Hr Ha. exists tt, (f st).
  split; [exact (He st Hr Ha) | split; [exact (Hf st Hr) | exact (Hg st Ha)]].
Qed.

Lemma safe_setViewState (s : string) : safe (setViewState s).
Proof.
  intros st Hr Ha. rewrite setViewState_spec.
  destruct (Js.indexOf VIEW_STATES (Some s) =? -1);
    eexists; eexists; (split; [reflexivity | split; [exact Hr | exact Ha]]).
Qed.

Lemma safe_answered (b : bool) (d : list string) :
  safe (storeTrigger decode (answeredEvent b) (Some d)).
Proof.
  intros st Hr Ha. eexists; eexists.
  split; [exact (storeTrigger_answered decode b d st Hr Ha) |].
  split; [exact Hr | exact Ha].
Qed.

Lemma safe_showSolutions : safe (showSolutions decode).
Proof.
  apply (safe_closed _ solutionsShown); [apply showSolutions_eq | |];
    intros st H; exact H.
Qed.

Lemma safe_resetTask : safe (resetTask decode).
Proof.
  apply (safe_closed _ taskReset); [apply resetTask_eq | |];
    intros st H; exact H.
Qed.

Lemma safe_resize : safe (storeTrigger decode "resize" None).
Proof.
  apply (safe_closed _ (fun st => set_trace (trace st ++ [StoreTrigger "resize" None]) st)).
  - intros st [_ Hs] _. exact (storeTrigger_resize decode st Hs).
  - intros st Hr. exact Hr.
  - intros st Ha. exact Ha.
Qed.

Lemma stopListening_eq (st : State) :
  speechEventStore st <> None ->
  stopListening decode st =
  Return tt (set_trace (trace st ++ [StoreTrigger "stop-all-media" None]) st).
Proof.
  intros Hs. unfold stopListening, storeTrigger.
  destruct (speechEventStore st) as [store|] eqn:Hst; [| congruence].
  unfold bind, gets. rewrite Hst. reflexivity.
Qed.

(** [recreateState] once the last interpretations of the snapshot have
    been read. *)
Lemma safe_recreate_body (ps : Snapshot.t) (li : list string) :
  safe (p <- gets params ;;
        when (Js.strictEq (Snapshot.viewState ps) "results"
              || Js.strictEq (Snapshot.viewState ps) "solutions")
             (if isAccepted (acceptedAnswers p) (hd_error li)
              then storeTrigger decode "answered-correctly" (Some li)
              else storeTrigger decode "answered-wrong" (Some li)) ;;
        ps' <- gets previousState ;;
        when (Js.strictEq (Snapshot.viewState ps') "solutions")
             (showSolutions decode) ;;
        storeTrigger decode "resize" None).
Proof.
  apply safe_bind; [apply safe_gets | intros p].
  apply safe_bind.
  { apply safe_when. destruct (isAccepted _ _).
    - exact (safe_answered true li).
    - exact (safe_answered false li). }
  intros _. apply safe_bind; [apply safe_gets | intros ps'].
  apply safe_bind; [apply safe_when, safe_showSolutions | intros _].
  apply safe_resize.
Qed.

Lemma recreateState_returns (li : list string) (st : State) :
  rendered st ->
  attached st ->
  Snapshot.lastInterpretations (previousState st) = Some li ->
  exists st', recreateState decode st = Return tt st' /\
              rendered st' /\ attached st'.
Proof.
  intros Hr Ha Hli.
  destruct (safe_recreate_body (previousState st) li st Hr Ha)
    as ([] & st' & E & R).
  exists st'. split; [| exact R].
  rewrite <- E. unfold recreateState.
  rewrite (bind_Return _ _ st st (previousState st)) by reflexivity.
  rewrite Hli. reflexivity.
Qed.

(** Registration returns, and hands the wrapper to the host. *)
Lemma registerDomElements_returns (st : State) :
  annyang w = true ->
  captureRequestable w ->
  rendered st ->
  exists st', registerDomElements decode w st = Return tt st' /\
              rendered st' /\ attached st'.
Proof.
  intros Ha Hc Hr. rewrite (registerDomElements_prefix decode w st Ha Hc).
  assert (Hr' : rendered (registered w st)) by exact Hr.
  assert (Ha' : attached (registered w st)) by (unfold attached; cbn; discriminate).
  destruct (Snapshot.lastInterpretations (previousState st)) as [[|x l]|] eqn:Hli.
  - exists (registered w st). split; [reflexivity | split; assumption].
  - exact (recreateState_returns (x :: l) (registered w st) Hr' Ha' Hli).
  - exists (registered w st). split; [reflexivity | split; assumption].
Qed.

Lemma start_listening_returns (st : State) :
  rendered st ->
  captureSound w st ->
  exec decode w StartListening st = Return tt (listeningStarted st).
Proof.
  intros [Hq Hs] (S1 & S2 & _).
  destruct (speechEventStore st) as [store|] eqn:Hst; [| congruence].
  apply (exec_start_listening decode w st store Hst S1).
  intros Hn. specialize (S2 Hn). unfold captureHandlers in S2.
  rewrite Hst in S2. exact S2.
Qed.

Lemma granted_returns (st : State) :
  rendered st -> returned (exec decode w UserMediaGranted st) = true.
Proof.
  intros [Hq Hs]. cbn [exec]. unfold bind, gets.
  destruct (pendingUserMedia st); [reflexivity |].
  unfold onUserMedia, bind, modify, gets. cbn.
  destruct (speechEventStore st); [reflexivity | congruence].
Qed.

Lemma exec_returns (c : Command) (st : State) :
  annyang w = true ->
  (c = RegisterDomElements -> captureRequestable w) ->
  rendered st ->
  (c <> RegisterDomElements -> attached st) ->
  captureSound w st ->
  returned (exec decode w c st) = true.
Proof.
  intros Ha Hc Hr Hat HS. destruct c.
  - destruct (registerDomElements_returns st Ha (Hc eq_refl) Hr) as (st' & E & _).
    cbn [exec]. rewrite E. reflexivity.
  - rewrite (exec_answered decode w correctly data st Hr
               (Hat ltac:(discriminate))). reflexivity.
  - cbn [exec]. rewrite (resetTask_eq decode st Hr (Hat ltac:(discriminate))).
    reflexivity.
  - cbn [exec]. rewrite (showSolutions_eq decode st Hr (Hat ltac:(discriminate))).
    reflexivity.
  - cbn [exec]. rewrite (stopListening_eq st (proj2 Hr)). reflexivity.
  - cbn [exec]. rewrite setViewState_spec.
    destruct (Js.indexOf VIEW_STATES (Some state) =? -1); reflexivity.
  - rewrite (start_listening_returns st Hr HS). reflexivity.
  - exact (granted_returns st Hr).
  - cbn [exec]. unfold bind, gets. destruct (mediaRecorder st); reflexivity.
  - cbn [exec]. unfold bind, gets. destruct (mediaRecorder st); [| reflexivity].
    unfold onStop, bind, gets, modify, when, emit.
    destruct (KLFileExporter w); reflexivity.
  - cbn [exec]. unfold bind, gets. destruct (placement st); reflexivity.
Qed.

(** Which commands throw while the wrapper is detached. *)
Lemma exec_detached (c : Command) (st : State) :
  rendered st ->
  placement st = Detached ->
  match c with
  | Answered _ _ | ResetTask | ShowSolutions =>
      returned (exec decode w c st) = false
  | _ => True
  end.
Proof.
  intros Hr Hd. destruct c; try exact I.
  - rewrite (exec_answered_detached decode w correctly data st Hr Hd). reflexivity.
  - cbn [exec]. rewrite (resetTask_detached decode st Hd). reflexivity.
  - cbn [exec]. rewrite (showSolutions_detached decode st Hd). reflexivity.
Qed.

End Safety.

(** X16.  In a session with the recognition engine, once registration
    has handed the content wrapper to the host, no command throws in any
    reachable state, and the wrapper stays with the host; registering
    again needs, as the first time, that no encoding was negotiated or
    that [navigator.mediaDevices] exists.  While the wrapper is still
    detached (before registration, or after a registration that threw
    at the capture request), an outcome event, reset and show-solution
    throw. *)
Theorem X16_commands_return_when_the_engine_exists :
  forall (decode : string -> string) (w : Window) (p : Params)
         (extras : option Extras) (st : State) (c : Command),
    annyang w = true ->
    (c = RegisterDomElements -> captureRequestable w) ->
    reachable decode w p extras st ->
    (attached st ->
     returned (exec decode w c st) = true /\
     attached (stateOf (exec decode w c st))) /\
    (placement st = Detached ->
     match c with
     | Answered _ _ | ResetTask | ShowSolutions =>
         returned (exec decode w c st) = false
     | RegisterDomElements =>
         returned (exec decode w c st) = true /\
         attached (stateOf (exec decode w c st))
     | _ => returned (exec decode w c st) = true
     end).
Proof.
  intros decode w p extras st c Ha Hc H.
  pose proof (reachable_rendered decode w p extras st Ha H) as Hr.
  pose proof (reachable_captureSound decode w p extras st H) as HS.
  split.
  - intros Hat. split.
    + apply exec_returns; auto.
    + exact (proj2 (proj2 (proj2 (proj2 (maintains_exec decode w c st)))) Hat).
  - intros Hd.
    pose proof (exec_detached decode w c st Hr Hd) as Ht.
    destruct c; try exact Ht.
    + destruct (registerDomElements_returns decode w st Ha (Hc eq_refl) Hr)
        as (st' & E & _ & A).
      cbn [exec]. rewrite E. split; [reflexivity | exact A].
    + cbn [exec]. rewrite (stopListening_eq decode st (proj2 Hr)). reflexivity.
    + cbn [exec]. rewrite setViewState_spec.
      destruct (Js.indexOf VIEW_STATES (Some state) =? -1); reflexivity.
    + rewrite (start_listening_returns decode w st Hr HS). reflexivity.
    + exact (granted_returns decode w st Hr).
    + cbn [exec]. unfold bind, gets. destruct (mediaRecorder st); reflexivity.
    + cbn [exec]. unfold bind, gets. destruct (mediaRecorder st); [| reflexivity].
      unfold onStop, bind, gets, modify, when, emit.
      destruct (KLFileExporter w); reflexivity.
    + cbn [exec]. unfold bind, gets. rewrite Hd. reflexivity.
Qed.

Lemma X16_commands_return_when_the_engine_exists_witness :
  returned (exec Scenario.plain Scenario.noRecorder ResetTask
              Scenario.answeredOnce) = true /\
  returned (exec Scenario.plain Scenario.noRecorder ResetTask
              Cases.unregistered) = false.
Proof.
  assert (R : reachable Scenario.plain Scenario.noRecorder Scenario.paris None
                Scenario.answeredOnce).
  { unfold Scenario.answeredOnce, Scenario.fresh.
    apply reachable_step, reachable_step, reachable_new. }
  assert (R0 : reachable Scenario.plain Scenario.noRecorder Scenario.paris None
                 Cases.unregistered) by apply reachable_new.
  split.
  - exact (proj1 (proj1 (X16_commands_return_when_the_engine_exists
                           Scenario.plain Scenario.noRecorder Scenario.paris None
                           Scenario.answeredOnce ResetTask eq_refl
                           ltac:(discriminate) R)
                    ltac:(vm_compute; discriminate))).
  - exact (proj2 (X16_commands_return_when_the_engine_exists
                    Scenario.plain Scenario.noRecorder Scenario.paris None
                    Cases.unregistered ResetTask eq_refl
                    ltac:(discriminate) R0)
             eq_refl).
Defined.

(** ** A recording cycle *)

Lemma captureMoves_trans (a b c : State) (rec rec' : option RecorderState)
  (chunks chunks' : list Chunk) (log log' : list Effect) :
  captureMoves a b rec chunks log ->
  captureMoves b c rec' chunks' log' ->
  captureMoves a c rec' chunks' (log ++ log').
Proof.
  intros (A1 & A2 & A3 & A4 & A5 & A6 & A7) (B1 & B2 & B3 & B4 & B5 & B6 & B7).
  unfold captureMoves. split; [exact B1 |].
  repeat split; try congruence.
  rewrite B7, A7, app_assoc. reflexivity.
Qed.

Section Cycle.

Variable decode : string -> string.
Variable w : Window.

Lemma moves_start_listening (st : State) :
  rendered st ->
  mediaRecorder st = Some inactive ->
  captureHandlers st <> 0%nat ->
  captureMoves st (stateOf (exec decode w StartListening st))
    (Some recording) (mediaChunks st) [RecorderStart].
Proof.
  intros Hr Hm Hh. pose proof Hr as [Hq Hs].
  destruct (speechEventStore st) as [store|] eqn:Hst; [| congruence].
  rewrite (exec_start_listening decode w st store Hst)
    by (rewrite Hm; discriminate).
  cbn [stateOf]. unfold listeningStarted. rewrite Hm.
  destruct (captureHandlers st) as [|n] eqn:Hc; [congruence |].
  split; [exact Hr |].
  unfold captureHandlers. cbn. rewrite captureLog_app.
  repeat split; reflexivity.
Qed.

Lemma moves_data_available (cs : list Chunk) (st : State) :
  rendered st ->
  mediaRecorder st <> None ->
  captureMoves st (execAll decode w (map DataAvailable cs) st)
    (mediaRecorder st) (mediaChunks st ++ cs) [].
Proof.
  intros Hr Hm. rewrite (execAll_data_available decode w cs st Hm).
  split; [exact Hr |].
  unfold captureHandlers. cbn. rewrite app_nil_r.
  repeat split; reflexivity.
Qed.

Lemma captureLog_stopEffects (st : State) :
  captureLog (stopEffects st) = stopEffects st.
Proof.
  unfold stopEffects. destruct (mediaRecorder st) as [[| |]|]; reflexivity.
Qed.

Lemma moves_answered (b : bool) (d : list string) (st : State) :
  rendered st ->
  captureMoves st (stateOf (exec decode w (Answered b d) st))
    match mediaRecorder st with None => None | Some _ => Some inactive end
    (mediaChunks st) (stopEffects st).
Proof.
  intros Hr. destruct (placement st) eqn:Hp.
  - rewrite (exec_answered_detached decode w b d st Hr Hp). cbn [stateOf].
    unfold captureMoves.
    split; [exact Hr |].
    repeat split; try reflexivity.
    cbn [trace haltedAnswer set_trace set_mediaRecorder].
    rewrite !captureLog_app.
    change (stopEffects (set_trace (trace st ++ [StoreTrigger (answeredEvent b) (Some d)]) st))
      with (stopEffects st).
    rewrite captureLog_stopEffects.
    cbn [captureLog filter captureFree negb]. rewrite !app_nil_r. reflexivity.
  - assert (Ha : attached st) by (unfold attached; rewrite Hp; discriminate).
    rewrite (exec_answered decode w b d st Hr Ha). cbn [stateOf].
    unfold captureMoves.
    split; [exact Hr |].
    repeat split; try reflexivity.
    cbn [trace answered set_trace].
    rewrite !captureLog_app.
    rewrite (captureFree_log _ (captureFree_answeredEffects decode d _)).
    change (stopEffects (set_trace (trace st ++ [StoreTrigger (answeredEvent b) (Some d)]) st))
      with (stopEffects st).
    rewrite captureLog_stopEffects.
    cbn [captureLog filter captureFree negb]. rewrite !app_nil_r. reflexivity.
  - assert (Ha : attached st) by (unfold attached; rewrite Hp; discriminate).
    rewrite (exec_answered decode w b d st Hr Ha). cbn [stateOf].
    unfold captureMoves.
    split; [exact Hr |].
    repeat split; try reflexivity.
    cbn [trace answered set_trace].
    rewrite !captureLog_app.
    rewrite (captureFree_log _ (captureFree_answeredEffects decode d _)).
    change (stopEffects (set_trace (trace st ++ [StoreTrigger (answeredEvent b) (Some d)]) st))
      with (stopEffects st).
    rewrite captureLog_stopEffects.
    cbn [captureLog filter captureFree negb]. rewrite !app_nil_r. reflexivity.
Qed.

Lemma moves_recorder_stopped (st : State) :
  rendered st ->
  mediaRecorder st <> None ->
  captureMoves st (stateOf (exec decode w RecorderStopped st))
    (mediaRecorder st) []
    (if KLFileExporter w
     then [FileExport (mediaMIMEType st) (mediaChunks st)] else []).
Proof.
  intros Hr Hm. rewrite (exec_recorder_stopped decode w st Hm). cbn [stateOf].
  split; [exact Hr |].
  unfold exported, captureHandlers. cbn.
  rewrite captureLog_app, app_nil_r.
  repeat split; try reflexivity.
  destruct (KLFileExporter w); reflexivity.
Qed.

Lemma moves_recordingCycle (cs1 cs2 : list Chunk) (b : bool)
  (d : list string) (st : State) :
  rendered st ->
  mediaRecorder st = Some inactive ->
  captureHandlers st <> 0%nat ->
  captureMoves st (execAll decode w (recordingCycle cs1 cs2 b d) st)
    (Some inactive) []
    ([RecorderStart; RecorderStop] ++
     if KLFileExporter w
     then [FileExport (mediaMIMEType st) (mediaChunks st ++ cs1 ++ cs2)]
     else []).
Proof.
  intros Hr Hm Hh. unfold recordingCycle.
  rewrite !execAll_app, !execAll_cons, !execAll_nil.
  pose proof (moves_start_listening st Hr Hm Hh) as M1.
  set (s1 := stateOf (exec decode w StartListening st)) in *.
  pose proof M1 as (R1 & A1 & C1 & T1 & _).
  assert (N1 : mediaRecorder s1 <> None) by (rewrite A1; discriminate).
  pose proof (moves_data_available cs1 s1 R1 N1) as M2.
  set (s2 := execAll decode w (map DataAvailable cs1) s1) in *.
  pose proof M2 as (R2 & A2 & C2 & T2 & _).
  pose proof (moves_answered b d s2 R2) as M3.
  set (s3 := stateOf (exec decode w (Answered b d) s2)) in *.
  pose proof M3 as (R3 & A3 & C3 & T3 & _).
  assert (E2 : mediaRecorder s2 = Some recording) by congruence.
  rewrite E2 in A3.
  assert (N3 : mediaRecorder s3 <> None) by (rewrite A3; discriminate).
  pose proof (moves_data_available cs2 s3 R3 N3) as M4.
  set (s4 := execAll decode w (map DataAvailable cs2) s3) in *.
  pose proof M4 as (R4 & A4 & C4 & T4 & _).
  assert (N4 : mediaRecorder s4 <> None) by congruence.
  pose proof (moves_recorder_stopped s4 R4 N4) as M5.
  set (s5 := stateOf (exec decode w RecorderStopped s4)) in *.
  pose proof (captureMoves_trans _ _ _ _ _ _ _ _ _
                (captureMoves_trans _ _ _ _ _ _ _ _ _
                   (captureMoves_trans _ _ _ _ _ _ _ _ _
                      (captureMoves_trans _ _ _ _ _ _ _ _ _ M1 M2) M3) M4) M5)
    as M.
  clearbody s1 s2 s3 s4 s5.
  assert (S3 : stopEffects s2 = [RecorderStop])
    by (unfold stopEffects; rewrite E2; reflexivity).
  rewrite S3 in M.
  assert (Rec : mediaRecorder s4 = Some inactive) by congruence.
  assert (Mime : mediaMIMEType s4 = mediaMIMEType st) by congruence.
  assert (Chunks : mediaChunks s4 = mediaChunks st ++ cs1 ++ cs2).
  { rewrite C4, C3, C2, C1, <- app_assoc. reflexivity. }
  rewrite Rec, Mime, Chunks in M.
  rewrite !app_nil_r in M. exact M.
Qed.

End Cycle.

(** X17. One recording cycle on a controller with an inactive recorder
    and an installed handler: [start-listening], chunks, an outcome,
    further chunks, the recorder's [stop] event.  The recorder is
    started once and stopped once, one export holds every chunk of the
    cycle in order (none when there is no export collaborator), and the
    controller is left ready for the next cycle. *)
Theorem X17_recording_cycle :
  forall (decode : string -> string) (w : Window) (cs1 cs2 : list Chunk)
         (b : bool) (d : list string) (st : State),
    rendered st ->
    mediaRecorder st = Some inactive ->
    captureHandlers st <> 0%nat ->
    captureLog (trace (execAll decode w (recordingCycle cs1 cs2 b d) st)) =
      captureLog (trace st) ++ [RecorderStart; RecorderStop] ++
      (if KLFileExporter w
       then [FileExport (mediaMIMEType st) (mediaChunks st ++ cs1 ++ cs2)]
       else []) /\
    rendered (execAll decode w (recordingCycle cs1 cs2 b d) st) /\
    mediaRecorder (execAll decode w (recordingCycle cs1 cs2 b d) st) =
      Some inactive /\
    captureHandlers (execAll decode w (recordingCycle cs1 cs2 b d) st) =
      captureHandlers st /\
    mediaChunks (execAll decode w (recordingCycle cs1 cs2 b d) st) = [].
Proof.
  intros decode w cs1 cs2 b d st Hr Hm Hh.
  destruct (moves_recordingCycle decode w cs1 cs2 b d st Hr Hm Hh)
    as (M1 & M2 & M3 & M4 & M5 & M6 & M7).
  repeat split; try assumption; apply M1.
Qed.

Lemma X17_recording_cycle_witness :
  captureLog (trace (execAll Scenario.plain Scenario.webm
                       (recordingCycle [1%nat] [2%nat] true ["paris"])
                       Cases.granted)) =
  [GetUserMedia; RecorderStart; RecorderStop;
   FileExport (Some "audio/webm") [1%nat; 2%nat]].
Proof.
  destruct (X17_recording_cycle Scenario.plain Scenario.webm [1%nat] [2%nat]
              true ["paris"] Cases.granted
              ltac:(split; vm_compute; [reflexivity | discriminate])
              ltac:(vm_compute; reflexivity)
              ltac:(vm_compute; discriminate)) as (H & _).
  rewrite H. vm_compute. reflexivity.
Defined.

(** ** The first recording of a new session *)

Section FirstRecording.

Variable decode : string -> string.
Variable w : Window.

Lemma construct_capture_fields (p : Params) (extras : option Extras) :
  annyang w = true ->
  speechEventStore (construct decode w p extras) = Some (mkEventStore 0) /\
  mediaChunks (construct decode w p extras) = [] /\
  pendingUserMedia (construct decode w p extras) = 0%nat /\
  captureLog (trace (construct decode w p extras)) = [].
Proof.
  intros Ha. unfold construct, constructorBody, bind, modify, gets.
  cbn -[setViewState]. rewrite setViewState_spec, Ha.
  destruct (Js.indexOf _ _ =? -1); cbn; repeat split; reflexivity.
Qed.

Lemma exec_granted (st : State) (n : nat) (store : EventStore) :
  pendingUserMedia st = Datatypes.S n ->
  speechEventStore st = Some store ->
  exec decode w UserMediaGranted st =
  Return tt
    (set_speechEventStore
       (Some (mkEventStore (Datatypes.S (startListeningHandlers store))))
       (set_mediaRecorder (Some inactive) (set_pendingUserMedia n st))).
Proof.
  intros Hp Hs. cbn [exec]. unfold bind, gets. rewrite Hp.
  unfold onUserMedia, bind, modify, gets. cbn. rewrite Hs. reflexivity.
Qed.

Lemma capture_set_up_from (s0 : State) (m : string) :
  annyang w = true ->
  getRecordingMIMEType w = Some m ->
  mediaDevices w = true ->
  rendered s0 ->
  previousState s0 = Snapshot.empty ->
  pendingUserMedia s0 = 0%nat ->
  speechEventStore s0 = Some (mkEventStore 0) ->
  mediaChunks s0 = [] ->
  captureLog (trace s0) = [] ->
  rendered (execAll decode w [RegisterDomElements; UserMediaGranted] s0) /\
  mediaRecorder (execAll decode w [RegisterDomElements; UserMediaGranted] s0) =
    Some inactive /\
  captureHandlers (execAll decode w [RegisterDomElements; UserMediaGranted] s0) =
    1%nat /\
  mediaChunks (execAll decode w [RegisterDomElements; UserMediaGranted] s0) = [] /\
  mediaMIMEType (execAll decode w [RegisterDomElements; UserMediaGranted] s0) =
    Some m /\
  captureLog (trace (execAll decode w [RegisterDomElements; UserMediaGranted] s0)) =
    [GetUserMedia].
Proof.
  intros Ha Hm Hd Hr Hps Hpen Hs Hc Hl.
  rewrite !execAll_cons, execAll_nil.
  assert (Hreg : exec decode w RegisterDomElements s0 = Return tt (registered w s0)).
  { apply (register_without_recreate decode w None None None s0 Ha);
      [right; exact Hd | exact Hps | left; reflexivity]. }
  rewrite Hreg. cbn [stateOf].
  assert (Hp1 : pendingUserMedia (registered w s0) = 1%nat).
  { unfold registered. cbn. rewrite truthy_negotiated, Hm, Hpen. reflexivity. }
  assert (Hs1 : speechEventStore (registered w s0) = Some (mkEventStore 0))
    by exact Hs.
  rewrite (exec_granted (registered w s0) 0 (mkEventStore 0) Hp1 Hs1).
  cbn [stateOf]. split; [split; [exact (proj1 Hr) | discriminate] |].
  unfold captureHandlers, registered, registrationEffects. cbn.
  rewrite truthy_negotiated, Hm, Hc, captureLog_app, Hl. cbn.
  repeat split; reflexivity.
Qed.

End FirstRecording.

(** X18. A new session in a browser with the recognition engine, a
    negotiated encoding [m] and [navigator.mediaDevices]: registration,
    the granted capture request and one recording cycle make exactly one
    capture request, one start and one stop of the recorder, and export
    the chunks of the cycle typed [m] (nothing without export
    collaborator); the recorder is left inactive and the collection
    empty. *)
Theorem X18_first_recording_of_a_new_session :
  forall (decode : string -> string) (w : Window) (p : Params) (m : string)
         (cs1 cs2 : list Chunk) (b : bool) (d : list string),
    annyang w = true ->
    getRecordingMIMEType w = Some m ->
    mediaDevices w = true ->
    captureLog
      (trace (execAll decode w
                ([RegisterDomElements; UserMediaGranted]
                 ++ recordingCycle cs1 cs2 b d)
                (construct decode w p None))) =
      [GetUserMedia; RecorderStart; RecorderStop] ++
      (if KLFileExporter w then [FileExport (Some m) (cs1 ++ cs2)] else []) /\
    mediaRecorder
      (execAll decode w
         ([RegisterDomElements; UserMediaGranted] ++ recordingCycle cs1 cs2 b d)
         (construct decode w p None)) = Some inactive /\
    mediaChunks
      (execAll decode w
         ([RegisterDomElements; UserMediaGranted] ++ recordingCycle cs1 cs2 b d)
         (construct decode w p None)) = [].
Proof.
  intros decode w p m cs1 cs2 b d Ha Hm Hd.
  rewrite execAll_app.
  destruct (construct_capture_fields decode w p None Ha) as (Fs & Fc & Fp & Fl).
  destruct (capture_set_up_from decode w (construct decode w p None) m Ha Hm Hd
              (construct_rendered decode w p None Ha)
              (construct_previousState decode w p None) Fp Fs Fc Fl)
    as (Hr & Hrec & Hh & Hc & Hmime & Hl).
  generalize dependent (execAll decode w [RegisterDomElements; UserMediaGranted]
                          (construct decode w p None)).
  intros s Hr Hrec Hh Hc Hmime Hl.
  destruct (moves_recordingCycle decode w cs1 cs2 b d s Hr Hrec
              ltac:(rewrite Hh; discriminate))
    as (M1 & M2 & M3 & M4 & M5 & M6 & M7).
  rewrite M7, Hl, Hmime, Hc. repeat split; assumption || reflexivity.
Qed.

Lemma X18_first_recording_of_a_new_session_witness :
  captureLog
    (trace (execAll Scenario.plain Scenario.webm
              ([RegisterDomElements; UserMediaGranted]
               ++ recordingCycle [1%nat; 2%nat] [3%nat] false ["london"])
              (construct Scenario.plain Scenario.webm Scenario.paris None))) =
  [GetUserMedia; RecorderStart; RecorderStop;
   FileExport (Some "audio/webm") [1%nat; 2%nat; 3%nat]].
Proof.
  exact (proj1 (X18_first_recording_of_a_new_session
                  Scenario.plain Scenario.webm Scenario.paris "audio/webm"
                  [1%nat; 2%nat] [3%nat] false ["london"]
                  eq_refl eq_refl eq_refl)).
Defined.

(** ** The report fetched by the host *)

Lemma getXAPIData_value (decode : string -> string) (st : State) :
  getXAPIData st = Return (outcomeRecord (params st) (score st) None) st.
Proof. reflexivity. Qed.

(** X19. [getXAPIData] changes nothing.  Once the content wrapper has
    been handed to the host, after an outcome event it returns the record
    of that outcome without the response: the record [handleAnswered]
    published, or, when the snapshot suppressed the publication, the
    record it would have published.  While the wrapper is detached the
    outcome event throws before the score is set: nothing is published
    and the fetched report still carries the earlier score. *)
Theorem X19_fetched_report_agrees_with_the_published_record :
  forall (decode : string -> string) (w : Window) (b : bool)
         (d : list string) (st : State),
    rendered st ->
    (attached st ->
     getXAPIData (stateOf (exec decode w (Answered b d) st)) =
       Return (setResponse None
                 (outcomeRecord (params st) (answeredScore st d) (hd_error d)))
              (stateOf (exec decode w (Answered b d) st)) /\
     published (trace (stateOf (exec decode w (Answered b d) st))) =
       published (trace st) ++
       (if snapshotPermitsReport (previousState st)
        then [outcomeRecord (params st) (answeredScore st d) (hd_error d)]
        else [])) /\
    (placement st = Detached ->
     getXAPIData (stateOf (exec decode w (Answered b d) st)) =
       Return (outcomeRecord (params st) (score st) None)
              (stateOf (exec decode w (Answered b d) st)) /\
     published (trace (stateOf (exec decode w (Answered b d) st))) =
       published (trace st)).
Proof.
  intros decode w b d st Hr. split.
  - intros Ha.
    split; [| exact (published_delivered decode w b d st Hr Ha)].
    rewrite (exec_answered decode w b d st Hr Ha). cbn [stateOf].
    rewrite (getXAPIData_value decode). reflexivity.
  - intros Hd.
    rewrite (exec_answered_detached decode w b d st Hr Hd). cbn [stateOf].
    rewrite (getXAPIData_value decode).
    split; [reflexivity |].
    unfold haltedAnswer, stopEffects.
    cbn [trace set_trace set_mediaRecorder mediaRecorder].
    rewrite !published_app.
    destruct (mediaRecorder st) as [[| |]|]; cbn; rewrite ?app_nil_r;
      reflexivity.
Qed.

Lemma X19_fetched_report_agrees_with_the_published_record_witness :
  (getXAPIData Scenario.answeredOnce =
     Return (setResponse None (outcomeRecord Scenario.paris 1 (Some "paris")))
            Scenario.answeredOnce /\
   published (trace Scenario.answeredOnce) =
     [outcomeRecord Scenario.paris 1 (Some "paris")]) /\
  published (trace (stateOf (exec Scenario.plain Scenario.noRecorder
                               (Answered true ["paris"]) Cases.unregistered))) =
    [].
Proof.
  split.
  - exact (proj1 (X19_fetched_report_agrees_with_the_published_record
                    Scenario.plain Scenario.noRecorder true ["paris"]
                    Scenario.fresh
                    ltac:(split; vm_compute; [reflexivity | discriminate]))
             ltac:(vm_compute; discriminate)).
  - exact (proj2 (proj2 (X19_fetched_report_agrees_with_the_published_record
                    Scenario.plain Scenario.noRecorder true ["paris"]
                    Cases.unregistered
                    ltac:(split; vm_compute; [reflexivity | discriminate]))
             eq_refl)).
Defined.

(** ** The second copy of the class *)

(** X20. In the second copy of the class an outcome event needs the
    recorder: without one [handleAnswered] throws before it changes
    anything.  With a recorder and the content wrapper it returns, stops
    the recorder, scores the first candidate and publishes one record at
    every delivery, the record the current class publishes when the
    snapshot permits. *)
Theorem X20_second_copy_reports_every_delivery :
  forall (decode : string -> string) (d : list string) (st : Part000.State),
    Part000.questionWrapper st = true ->
    match Part000.mediaRecorder st with
    | None => Part000.handleAnswered decode d st = Throw Js.TypeError st
    | Some r =>
        exists st',
          Part000.handleAnswered decode d st = Return tt st' /\
          Part000.mediaRecorder st' = Some inactive /\
          Part000.hasAnswered st' = true /\
          Part000.score st' =
            (if isAccepted (acceptedAnswers (Part000.params st)) (hd_error d)
             then 1 else 0) /\
          published (Part000.trace st') =
            published (Part000.trace st) ++
            [outcomeRecord (Part000.params st) (Part000.score st') (hd_error d)] /\
          occurrences isRecorderStop (Part000.trace st') =
            (occurrences isRecorderStop (Part000.trace st) +
             match r with inactive => 0 | _ => 1 end)%nat
    end.
Proof.
  intros decode d st Hq.
  destruct (Part000.mediaRecorder st) as [r|] eqn:Hm.
  - unfold Part000.handleAnswered, Part000.triggerXAPIAnswered,
      Part000.getXAPIAnswerEvent, Part000.getScore, Part000.getMaxScore,
      Part000.recorderStop, Part000.wrapperParent, Part000.emit,
      when, bind, gets, modify, ret, throw.
    rewrite Hm.
    destruct r; cbn; rewrite Hq; cbn;
      destruct (isAccepted (acceptedAnswers (Part000.params st)) (hd_error d));
      cbn; eexists; (split; [reflexivity |]); cbn;
      unfold occurrences;
      rewrite ?published_app, ?filter_app, ?length_app; cbn;
      rewrite ?app_nil_r; repeat split; try reflexivity; try exact Hm; lia.
  - apply part000_handleAnswered_requires_recorder. exact Hm.
Qed.

Lemma X20_second_copy_reports_every_delivery_witness :
  exists st',
    Part000.handleAnswered Scenario.plain ["paris"] Cases.granted000 =
      Return tt st' /\
    published (Part000.trace st') =
      [outcomeRecord Scenario.paris 1 (Some "paris")].
Proof.
  pose proof (X20_second_copy_reports_every_delivery Scenario.plain ["paris"]
                Cases.granted000 eq_refl) as H.
  change (Part000.mediaRecorder Cases.granted000) with (Some inactive) in H.
  destruct H as (st' & E & _ & _ & Hs & Hp & _).
  exists st'. split; [exact E |].
  rewrite Hp, Hs. vm_compute. reflexivity.
Defined.
